(** * Quantum-performance-simulator: handshake engines, framing and benchmark model

    A shallow embedding of the Python sources
    [client_classical.py], [client_pqc.py], [server_pqc.py] and
    [benchmark.py], and the properties of the specification proved on it.

    Conventions of the embedding.
    - A Python [int] is a [Z]; [bytes] is a [list byte]; [None] is the
      [None] of [option]; a [str] is a list of code points.
    - A method is a function in the monad [M S], state [S] plus exceptions:
      a raised exception keeps the state reached so far, as in Python.
    - A socket carries the script of what its peer and the network will do:
      the chunks successive [recv] calls return, how many [sendall] calls
      succeed, whether [connect] is refused and whether [close] raises.
    - The cryptographic libraries (cryptography, oqs) are interfaces:
      classes of operations, instantiated by toy primitives for the
      concrete runs.
    - A truth test [if not x] on [bytes | None] is a match: [None] and the
      empty byte string are the falsy cases.
    - Calls to [print] that write fixed progress lines touch neither the
      objects nor the sockets and are left out; the server's print of the
      text a peer has sent is kept, since it can raise on that text. *)

From Stdlib Require Import String Ascii ZArith QArith Lqa Bool Lia List.
From Stdlib Require Import Strings.Byte.
From Stdlib Require Import Floats.
From Stdlib Require Uint63.
Set Warnings "-inexact-float".
Import ListNotations.
#[local] Open Scope Z_scope.

Set Implicit Arguments.

(** ** Bytes and integers *)

Definition bytes := list byte.

Definition len {A : Type} (l : list A) : Z := Z.of_nat (length l).

Definition byte_to_Z (b : byte) : Z := Z.of_N (Byte.to_N b).

Definition byte_of_Z (z : Z) : byte :=
  match Byte.of_N (Z.to_N (z mod 256)) with
  | Some b => b
  | None => x00
  end.

(** [int.from_bytes(b, byteorder="big")] *)
Definition from_bytes (b : bytes) : Z :=
  fold_left (fun acc x => acc * 256 + byte_to_Z x) b 0.

(** The four big-endian bytes of [n] modulo [2^32]. *)
Definition be32 (n : Z) : bytes :=
  [ byte_of_Z (n / 16777216); byte_of_Z (n / 65536);
    byte_of_Z (n / 256); byte_of_Z n ].

(** ** Exceptions and the method monad *)

Definition exn := string.

Inductive res (A : Type) : Type :=
| Ok (a : A)
| Exc (e : exn).
Arguments Ok {A} a.
Arguments Exc {A} e.

Definition M (S A : Type) : Type := S -> res A * S.

Definition ret {S A : Type} (a : A) : M S A := fun s => (Ok a, s).

Definition raise {S A : Type} (e : exn) : M S A := fun s => (Exc e, s).

Definition bind {S A B : Type} (m : M S A) (k : A -> M S B) : M S B :=
  fun s => match m s with
           | (Ok a, s') => k a s'
           | (Exc e, s') => (Exc e, s')
           end.

(** [try: m except Exception as e: h e] *)
Definition try_except {S A : Type} (m : M S A) (h : exn -> M S A) : M S A :=
  fun s => match m s with
           | (Ok a, s') => (Ok a, s')
           | (Exc e, s') => h e s'
           end.

(** [try: m finally: f] *)
Definition try_finally {S A : Type} (m : M S A) (f : M S unit) : M S A :=
  fun s => match m s with
           | (r, s') => match f s' with
                        | (Ok _, s'') => (r, s'')
                        | (Exc e, s'') => (Exc e, s'')
                        end
           end.

(** A library call that returns or raises without touching the state. *)
Definition lift {S A : Type} (r : res A) : M S A := fun s => (r, s).

Definition gets {S A : Type} (f : S -> A) : M S A := fun s => (Ok (f s), s).

Definition modify {S : Type} (f : S -> S) : M S unit := fun s => (Ok tt, f s).

Declare Scope py_scope.
Delimit Scope py_scope with py.
Notation "x <- m ;; k" := (bind m (fun x => k))
  (at level 61, m at next level, right associativity) : py_scope.
Notation "m ;;; k" := (bind m (fun _ => k))
  (at level 61, right associativity) : py_scope.
Notation "' pat <- m ;; k" := (bind m (fun x => match x with pat => k end))
  (at level 61, pat pattern, m at next level, right associativity) : py_scope.
#[local] Open Scope py_scope.

(** [n.to_bytes(4, byteorder="big")]: [OverflowError] outside [0 .. 2^32-1]. *)
Definition to_bytes4 (n : Z) : res bytes :=
  if (0 <=? n) && (n <? 4294967296) then Ok (be32 n)
  else Exc "OverflowError: int too big to convert"%string.

(** ** Sockets *)

Inductive rx_event : Type :=
| Chunk (c : bytes)
| Fault (e : exn).

Record socket : Type := mkSocket {
  rx : list rx_event;       (* what the next calls of recv will produce *)
  tx : bytes;               (* everything sent so far *)
  tx_credit : option nat;   (* sendall calls that still succeed; None: all *)
  refuses : bool;           (* connect raises ConnectionRefusedError *)
  close_fails : bool;       (* close raises *)
  closed : bool
}.

Definition set_rx (q : list rx_event) (s : socket) : socket :=
  mkSocket q (tx s) (tx_credit s) (refuses s) (close_fails s) (closed s).

Module Socket.

  (** [sock.recv(bufsize)]: at most [bufsize] bytes of the next chunk; the
      empty byte string once the peer has closed. *)
Definition recv (bufsize : Z) : M socket bytes := fun s =>
    if closed s then (Exc "OSError: Bad file descriptor"%string, s)
    else if bufsize <? 0 then (Exc "ValueError: negative buffersize in recv"%string, s)
    else match rx s with
         | [] => (Ok [], s)
         | Fault e :: q => (Exc e, set_rx q s)
         | Chunk c :: q =>
             let k := Z.to_nat bufsize in
             (Ok (firstn k c),
              set_rx (if (length c <=? k)%nat then q else Chunk (skipn k c) :: q) s)
         end.

Definition sendall (data : bytes) : M socket unit := fun s =>
    if closed s then (Exc "OSError: Bad file descriptor"%string, s)
    else match tx_credit s with
         | Some O => (Exc "BrokenPipeError"%string, s)
         | Some (S k) =>
             (Ok tt, mkSocket (rx s) (tx s ++ data) (Some k) (refuses s) (close_fails s) false)
         | None =>
             (Ok tt, mkSocket (rx s) (tx s ++ data) None (refuses s) (close_fails s) false)
         end.

Definition connect : M socket unit := fun s =>
    if refuses s then (Exc "ConnectionRefusedError"%string, s) else (Ok tt, s).

Definition close : M socket unit := fun s =>
    let s' := mkSocket (rx s) (tx s) (tx_credit s) (refuses s) (close_fails s) true in
    if closed s then (Ok tt, s)
    else if close_fails s then (Exc "OSError: close failed"%string, s')
    else (Ok tt, s').

End Socket.

(** What the network holds for a socket about to be created. *)
Record network : Type := mkNetwork {
  net_refuses : bool;
  net_incoming : list rx_event;
  net_send_credit : option nat;
  net_close_fails : bool
}.

(** [socket.socket(socket.AF_INET, socket.SOCK_STREAM)] *)
Definition socket_socket (net : network) : socket :=
  mkSocket (net_incoming net) [] (net_send_credit net)
           (net_refuses net) (net_close_fails net) false.

(** ** The exact-read loop

    The three classes carry the same [_receive_exact]; the loop is written
    once over the [recv] of the class.  [fuel] bounds the iterations: every
    iteration that does not return adds at least one byte, so [num_bytes]
    iterations are enough (see [receive_exact_loop_fuel]). *)

Inductive loop_res (A : Type) : Type :=
| Done (a : A)
| OutOfFuel.
Arguments Done {A} a.
Arguments OutOfFuel {A}.

Section ExactRead.
Variable S : Type.
Variable recv : Z -> M S bytes.

Fixpoint receive_exact_loop (fuel : nat) (num_bytes : Z) (data : bytes)
    : S -> loop_res (res (option bytes)) * S :=
    fun s =>
      if len data <? num_bytes then
        match fuel with
        | O => (OutOfFuel, s)
        | Datatypes.S fuel' =>
            match recv (num_bytes - len data) s with
            | (Exc e, s') => (Done (Exc e), s')
            | (Ok [], s') => (Done (Ok None), s')
            | (Ok chunk, s') => receive_exact_loop fuel' num_bytes (data ++ chunk) s'
            end
        end
      else (Done (Ok (Some data)), s).

Definition receive_exact (num_bytes : Z) : M S (option bytes) := fun s =>
    match receive_exact_loop (Z.to_nat num_bytes) num_bytes [] s with
    | (Done r, s') => (r, s')
    | (OutOfFuel, s') => (Exc "unreachable: loop bound"%string, s')
    end.
End ExactRead.

(** ** The library interfaces *)

(** [cryptography.hazmat.primitives.ciphers.aead.AESGCM]: the object is its
    key; the constructor accepts 128, 192 and 256 bit keys only. *)
Definition AESGCM (key : bytes) : res bytes :=
  if (len key =? 16) || (len key =? 24) || (len key =? 32) then Ok key
  else Exc "ValueError: AESGCM key must be 128, 192, or 256 bits."%string.

Class AEAD : Type := {
  aesgcm_encrypt : bytes -> bytes -> bytes -> option bytes -> res bytes;
  aesgcm_decrypt : bytes -> bytes -> bytes -> option bytes -> res bytes
}.

(** The elliptic-curve and key-derivation calls of [cryptography]. *)
Class ECDH : Type := {
  ec_entropy : Type;
  ec_private_key : Type;
  ec_public_key : Type;
  (* ec.generate_private_key(ec.SECP384R1()) *)
  generate_private_key : ec_entropy -> res ec_private_key;
  public_key : ec_private_key -> ec_public_key;
  (* key.public_bytes(Encoding.PEM, PublicFormat.SubjectPublicKeyInfo) *)
  public_bytes : ec_public_key -> res bytes;
  load_pem_public_key : bytes -> res ec_public_key;
  (* private_key.exchange(ec.ECDH(), peer_public_key) *)
  exchange : ec_private_key -> ec_public_key -> res bytes;
  (* HKDF(algorithm=SHA256(), length, salt, info).derive(key_material) *)
  hkdf_sha256 : Z -> option bytes -> bytes -> bytes -> res bytes
}.

(** The [oqs] objects [KeyEncapsulation] and [Signature]; the secret key an
    object keeps after [generate_keypair] is returned next to the public one. *)
Class OQS : Type := {
  oqs_entropy : Type;
  kem_secret_key : Type;
  sig_secret_key : Type;
  KeyEncapsulation : string -> res unit;
  Signature : string -> res unit;
  kem_generate_keypair : oqs_entropy -> res (bytes * kem_secret_key);
  kem_encap_secret : oqs_entropy -> bytes -> res (bytes * bytes);
  kem_decap_secret : kem_secret_key -> bytes -> res bytes;
  sig_generate_keypair : oqs_entropy -> res (bytes * sig_secret_key);
  sig_sign : oqs_entropy -> sig_secret_key -> bytes -> res bytes;
  sig_verify : bytes -> bytes -> bytes -> res bool
}.

(** Python text: a [str] is its code points. *)
Definition str := list Z.

Definition str_of_string (s : string) : str :=
  map (fun a => Z.of_N (N_of_ascii a)) (list_ascii_of_string s).

Definition str_eqb (a b : str) : bool :=
  if list_eq_dec Z.eq_dec a b then true else false.

Class PyText : Type := {
  decode_utf8 : bytes -> res str;   (* bytes.decode("utf-8") *)
  lower : str -> str;               (* str.lower() *)
  (* print(f"... {message}"): UnicodeEncodeError when the encoding of
     standard output has no code for a character of the message *)
  stdout_print : str -> res unit
}.

Definition bytes_of_string (s : string) : bytes := list_byte_of_string s.

(** ** The client objects

    [ClassicalClient] and [PQCClient] declare the same attributes. *)

Record client : Type := mkClient {
  host : string;
  port : Z;
  client_socket : option socket;
  aesgcm : option bytes;
  connected : bool
}.

Definition set_client_socket (o : option socket) (c : client) : client :=
  mkClient (host c) (port c) o (aesgcm c) (connected c).
Definition set_aesgcm (o : option bytes) (c : client) : client :=
  mkClient (host c) (port c) (client_socket c) o (connected c).
Definition set_connected (b : bool) (c : client) : client :=
  mkClient (host c) (port c) (client_socket c) (aesgcm c) b.

(** A method call on [self.client_socket]: [AttributeError] on [None]. *)
Definition on_client_socket {A : Type} (m : M socket A) : M client A := fun c =>
  match client_socket c with
  | None => (Exc "AttributeError: 'NoneType' object has no attribute"%string, c)
  | Some s => match m s with
              | (r, s') => (r, set_client_socket (Some s') c)
              end
  end.

Module ClassicalClient.

  (** [__init__] *)
Definition init (h : string) (p : Z) : client := mkClient h p None None false.

Definition _receive_exact (num_bytes : Z) : M client (option bytes) :=
    receive_exact (fun n => on_client_socket (Socket.recv n)) num_bytes.

Definition disconnect : M client unit :=
    modify (set_connected false) ;;;
    sock <- gets client_socket ;;
    match sock with
    | Some _ => try_except (on_client_socket Socket.close) (fun _ => ret tt)
    | None => ret tt
    end ;;;
    modify (set_client_socket None) ;;;
    modify (set_aesgcm None).

Section WithCrypto.
Context {ecdh : ECDH}.

Definition _perform_key_exchange (rnd : ec_entropy) : M client (option bytes) :=
      try_except
        (server_key_length_bytes <- _receive_exact 4 ;;
         match server_key_length_bytes with
         | None | Some [] => ret None
         | Some server_key_length_bytes =>
         let server_key_length := from_bytes server_key_length_bytes in
         server_public_bytes <- _receive_exact server_key_length ;;
         match server_public_bytes with
         | None | Some [] => ret None
         | Some server_public_bytes =>
         server_public_key <- lift (load_pem_public_key server_public_bytes) ;;
         client_private_key <- lift (generate_private_key rnd) ;;
         let client_public_key := public_key client_private_key in
         client_public_bytes <- lift (public_bytes client_public_key) ;;
         let key_length := len client_public_bytes in
         key_length_bytes <- lift (to_bytes4 key_length) ;;
         on_client_socket (Socket.sendall key_length_bytes) ;;;
         on_client_socket (Socket.sendall client_public_bytes) ;;;
         shared_secret <- lift (exchange client_private_key server_public_key) ;;
         derived_key <- lift (hkdf_sha256 32 None (bytes_of_string "handshake data")
                                          shared_secret) ;;
         ret (Some derived_key)
         end end)
        (fun _ => ret None).

Definition connect (net : network) (rnd : ec_entropy) : M client bool :=
      try_except
        (modify (set_client_socket (Some (socket_socket net))) ;;;
         on_client_socket Socket.connect ;;;
         aes_key <- _perform_key_exchange rnd ;;
         match aes_key with
         | None | Some [] => disconnect ;;; ret false
         | Some aes_key =>
             cipher <- lift (AESGCM aes_key) ;;
             modify (set_aesgcm (Some cipher)) ;;;
             modify (set_connected true) ;;;
             ret true
         end)
        (fun _ => disconnect ;;; ret false).
End WithCrypto.

End ClassicalClient.

Module PQCClient.

Definition init (h : string) (p : Z) : client := mkClient h p None None false.

Definition _receive_exact (num_bytes : Z) : M client (option bytes) :=
    receive_exact (fun n => on_client_socket (Socket.recv n)) num_bytes.

Definition disconnect : M client unit :=
    modify (set_connected false) ;;;
    sock <- gets client_socket ;;
    match sock with
    | Some _ => try_except (on_client_socket Socket.close) (fun _ => ret tt)
    | None => ret tt
    end ;;;
    modify (set_client_socket None) ;;;
    modify (set_aesgcm None).

Section WithCrypto.
Context {oqs : OQS}.

Definition _perform_pqc_key_exchange (rnd : oqs_entropy) : M client (option bytes) :=
      try_except
        (lift (KeyEncapsulation "Kyber768") ;;;
         lift (Signature "ML-DSA-65") ;;;
         '(client_sig_public_key, sig_sk) <- lift (sig_generate_keypair rnd) ;;
         server_sig_key_length_bytes <- _receive_exact 4 ;;
         match server_sig_key_length_bytes with
         | None | Some [] => ret None
         | Some server_sig_key_length_bytes =>
         let server_sig_key_length := from_bytes server_sig_key_length_bytes in
         server_sig_public_key <- _receive_exact server_sig_key_length ;;
         match server_sig_public_key with
         | None | Some [] => ret None
         | Some server_sig_public_key =>
         let sig_key_length := len client_sig_public_key in
         sig_key_length_bytes <- lift (to_bytes4 sig_key_length) ;;
         on_client_socket (Socket.sendall sig_key_length_bytes) ;;;
         on_client_socket (Socket.sendall client_sig_public_key) ;;;
         '(client_kem_public_key, kem_sk) <- lift (kem_generate_keypair rnd) ;;
         kem_signature <- lift (sig_sign rnd sig_sk client_kem_public_key) ;;
         let kem_pk_length := len client_kem_public_key in
         kem_pk_length_bytes <- lift (to_bytes4 kem_pk_length) ;;
         on_client_socket (Socket.sendall kem_pk_length_bytes) ;;;
         on_client_socket (Socket.sendall client_kem_public_key) ;;;
         let signature_length := len kem_signature in
         signature_length_out <- lift (to_bytes4 signature_length) ;;
         on_client_socket (Socket.sendall signature_length_out) ;;;
         on_client_socket (Socket.sendall kem_signature) ;;;
         ciphertext_length_bytes <- _receive_exact 4 ;;
         match ciphertext_length_bytes with
         | None | Some [] => ret None
         | Some ciphertext_length_bytes =>
         let ciphertext_length := from_bytes ciphertext_length_bytes in
         ciphertext <- _receive_exact ciphertext_length ;;
         match ciphertext with
         | None | Some [] => ret None
         | Some ciphertext =>
         signature_length_bytes <- _receive_exact 4 ;;
         match signature_length_bytes with
         | None | Some [] => ret None
         | Some signature_length_bytes =>
         let signature_length := from_bytes signature_length_bytes in
         ciphertext_signature <- _receive_exact signature_length ;;
         match ciphertext_signature with
         | None | Some [] => ret None
         | Some ciphertext_signature =>
         is_valid <- lift (sig_verify ciphertext ciphertext_signature
                                      server_sig_public_key) ;;
         if negb is_valid then ret None else
         shared_secret_client <- lift (kem_decap_secret kem_sk ciphertext) ;;
         let aes_key := firstn 32 shared_secret_client in
         ret (Some aes_key)
         end end end end end end)
        (fun _ => ret None).

Definition connect (net : network) (rnd : oqs_entropy) : M client bool :=
      try_except
        (modify (set_client_socket (Some (socket_socket net))) ;;;
         on_client_socket Socket.connect ;;;
         aes_key <- _perform_pqc_key_exchange rnd ;;
         match aes_key with
         | None | Some [] => disconnect ;;; ret false
         | Some aes_key =>
             cipher <- lift (AESGCM aes_key) ;;
             modify (set_aesgcm (Some cipher)) ;;;
             modify (set_connected true) ;;;
             ret true
         end)
        (fun _ => disconnect ;;; ret false).
End WithCrypto.

End PQCClient.

(** ** The post-quantum server *)

Record server : Type := mkServer {
  server_host : string;
  server_port : Z;
  server_socket : option socket;
  running : bool;
  last_received_message : option str;
  message_received_event : option bool   (* the flag of the Event, when one was given *)
}.

Definition set_last_received_message (m : option str) (sv : server) : server :=
  mkServer (server_host sv) (server_port sv) (server_socket sv) (running sv)
           m (message_received_event sv).

(** [self.message_received_event.set()] *)
Definition event_set (sv : server) : server :=
  mkServer (server_host sv) (server_port sv) (server_socket sv) (running sv)
           (last_received_message sv)
           (match message_received_event sv with Some _ => Some true | None => None end).

(** A handler works on the server object and on the accepted socket. *)
Definition on_conn {A : Type} (m : M socket A) : M (server * socket) A := fun st =>
  match m (snd st) with
  | (r, s') => (r, (fst st, s'))
  end.

Definition on_self (f : server -> server) : M (server * socket) unit := fun st =>
  (Ok tt, (f (fst st), snd st)).

Inductive loop_ctl : Type := Continue | Break.

Module PQCServer.

Definition init (h : string) (p : Z) (message_received_event : option bool) : server :=
    mkServer h p None false None message_received_event.

Definition _receive_exact (num_bytes : Z) : M socket (option bytes) :=
    receive_exact Socket.recv num_bytes.

Section WithCrypto.
Context {oqs : OQS} {aead : AEAD} {text : PyText}.

Definition _perform_pqc_key_exchange (rnd : oqs_entropy) : M socket (option bytes) :=
      try_except
        (lift (KeyEncapsulation "Kyber768") ;;;
         lift (Signature "ML-DSA-65") ;;;
         '(server_sig_public_key, sig_sk) <- lift (sig_generate_keypair rnd) ;;
         let sig_key_length := len server_sig_public_key in
         sig_key_length_bytes <- lift (to_bytes4 sig_key_length) ;;
         Socket.sendall sig_key_length_bytes ;;;
         Socket.sendall server_sig_public_key ;;;
         client_sig_key_length_bytes <- _receive_exact 4 ;;
         match client_sig_key_length_bytes with
         | None | Some [] => ret None
         | Some client_sig_key_length_bytes =>
         let client_sig_key_length := from_bytes client_sig_key_length_bytes in
         client_sig_public_key <- _receive_exact client_sig_key_length ;;
         match client_sig_public_key with
         | None | Some [] => ret None
         | Some client_sig_public_key =>
         kem_pk_length_bytes <- _receive_exact 4 ;;
         match kem_pk_length_bytes with
         | None | Some [] => ret None
         | Some kem_pk_length_bytes =>
         let kem_pk_length := from_bytes kem_pk_length_bytes in
         client_kem_public_key <- _receive_exact kem_pk_length ;;
         match client_kem_public_key with
         | None | Some [] => ret None
         | Some client_kem_public_key =>
         signature_length_bytes <- _receive_exact 4 ;;
         match signature_length_bytes with
         | None | Some [] => ret None
         | Some signature_length_bytes =>
         let signature_length := from_bytes signature_length_bytes in
         kem_signature <- _receive_exact signature_length ;;
         match kem_signature with
         | None | Some [] => ret None
         | Some kem_signature =>
         is_valid <- lift (sig_verify client_kem_public_key kem_signature
                                      client_sig_public_key) ;;
         if negb is_valid then ret None else
         '(ciphertext, shared_secret_server) <-
            lift (kem_encap_secret rnd client_kem_public_key) ;;
         ciphertext_signature <- lift (sig_sign rnd sig_sk ciphertext) ;;
         let ciphertext_length := len ciphertext in
         ciphertext_length_bytes <- lift (to_bytes4 ciphertext_length) ;;
         Socket.sendall ciphertext_length_bytes ;;;
         Socket.sendall ciphertext ;;;
         let signature_length := len ciphertext_signature in
         signature_length_out <- lift (to_bytes4 signature_length) ;;
         Socket.sendall signature_length_out ;;;
         Socket.sendall ciphertext_signature ;;;
         let aes_key := firstn 32 shared_secret_server in
         ret (Some aes_key)
         end end end end end end)
        (fun _ => ret None).

Definition _receive_encrypted_message (cipher : bytes) : M socket (option str) :=
      try_except
        (nonce_length_bytes <- _receive_exact 4 ;;
         match nonce_length_bytes with
         | None | Some [] => ret None
         | Some nonce_length_bytes =>
         let nonce_length := from_bytes nonce_length_bytes in
         nonce <- _receive_exact nonce_length ;;
         match nonce with
         | None | Some [] => ret None
         | Some nonce =>
         ciphertext_length_bytes <- _receive_exact 4 ;;
         match ciphertext_length_bytes with
         | None | Some [] => ret None
         | Some ciphertext_length_bytes =>
         let ciphertext_length := from_bytes ciphertext_length_bytes in
         ciphertext <- _receive_exact ciphertext_length ;;
         match ciphertext with
         | None | Some [] => ret None
         | Some ciphertext =>
         plaintext <- lift (aesgcm_decrypt cipher nonce ciphertext None) ;;
         message <- lift (decode_utf8 plaintext) ;;
         ret (Some message)
         end end end end)
        (fun _ => ret None).

    (** One pass through the body of the message reception loop. *)
Definition serve_body (cipher : bytes) : M (server * socket) loop_ctl :=
      try_except
        (message <- on_conn (_receive_encrypted_message cipher) ;;
         match message with
         | None => ret Break
         | Some message =>
             lift (stdout_print message) ;;;
             on_self (set_last_received_message (Some message)) ;;;
             has_event <- gets (fun st => message_received_event (fst st)) ;;
             match has_event with
             | Some _ => on_self event_set
             | None => ret tt
             end ;;;
             if str_eqb (lower message) (str_of_string "exit") then ret Break
             else ret Continue
         end)
        (fun _ => ret Break).

    (** [while self.running: ...] *)
Fixpoint serve_loop (fuel : nat) (cipher : bytes)
      : M (server * socket) (loop_res unit) :=
      is_running <- gets (fun st => running (fst st)) ;;
      if is_running then
        match fuel with
        | O => ret OutOfFuel
        | S fuel' =>
            c <- serve_body cipher ;;
            match c with
            | Break => ret (Done tt)
            | Continue => serve_loop fuel' cipher
            end
        end
      else ret (Done tt).

Definition _handle_client (fuel : nat) (rnd : oqs_entropy)
      : M (server * socket) (loop_res unit) :=
      try_except
        (try_finally  (* with client_socket: *)
           (aes_key <- on_conn (_perform_pqc_key_exchange rnd) ;;
            match aes_key with
            | None | Some [] => ret (Done tt)
            | Some aes_key =>
                cipher <- lift (AESGCM aes_key) ;;
                serve_loop fuel cipher
            end)
           (on_conn Socket.close))
        (fun _ => ret (Done tt)).
End WithCrypto.

End PQCServer.

(** ** The classical server role *)

Module ClassicalServer.

Definition _receive_exact (num_bytes : Z) : M socket (option bytes) :=
    receive_exact Socket.recv num_bytes.

Section WithCrypto.
Context {ecdh : ECDH}.

    (** Modelled from the spec: [server_classical.py], which [benchmark.py] and
        the tests import, is not among the sources.  Section 4.2 gives the
        server role as the linear sequence: generate an ECDH key pair, send
        the serialized public key length-prefixed, receive the peer's
        serialized public key length-prefixed, deserialize it, compute the
        shared secret and derive the 32-byte key with the fixed label; any
        read, deserialize or compute failure yields no key. *)
Definition _perform_key_exchange (rnd : ec_entropy) : M socket (option bytes) :=
      try_except
        (server_private_key <- lift (generate_private_key rnd) ;;
         server_public_bytes <- lift (public_bytes (public_key server_private_key)) ;;
         key_length_bytes <- lift (to_bytes4 (len server_public_bytes)) ;;
         Socket.sendall key_length_bytes ;;;
         Socket.sendall server_public_bytes ;;;
         client_key_length_bytes <- _receive_exact 4 ;;
         match client_key_length_bytes with
         | None | Some [] => ret None
         | Some client_key_length_bytes =>
         client_public_bytes <- _receive_exact (from_bytes client_key_length_bytes) ;;
         match client_public_bytes with
         | None | Some [] => ret None
         | Some client_public_bytes =>
         client_public_key <- lift (load_pem_public_key client_public_bytes) ;;
         shared_secret <- lift (exchange server_private_key client_public_key) ;;
         derived_key <- lift (hkdf_sha256 32 None (bytes_of_string "handshake data")
                                          shared_secret) ;;
         ret (Some derived_key)
         end end)
        (fun _ => ret None).
End WithCrypto.

End ClassicalServer.

(** ** The benchmark harness

    Instants of the wall clock are rationals, in seconds.  The impairment
    model of the code works on binary64 numbers, the [float] of Python:
    [_simulate_network_penalties_f64] follows it operation by operation, and
    what is stated of the impairment is stated of that function.  The same
    formula over the rationals stands next to it, for the timing model of
    this module, where only the timed interval matters.
    [random.random()] is the argument [draw].  A [schedule] gives how long
    each step of one measurement takes on the wall clock. *)

Record schedule : Type := mkSchedule {
  t_server_start : Q;   (* building the server, starting its thread *)
  t_settle : Q;         (* time.sleep(0.1) *)
  t_connect : Q;        (* client.connect(): socket, connect, handshake *)
  t_disconnect : Q;     (* client.disconnect() inside the try block *)
  t_finally : Q         (* the finally block: disconnect, stop, join, sleep *)
}.

Record bench : Type := mkBench {
  clock : Q;
  bench_client : client
}.

Definition tick (d : Q) : M bench unit :=
  modify (fun b => mkBench (clock b + d)%Q (bench_client b)).

(** [time.perf_counter()] *)
Definition perf_counter : M bench Q := gets clock.

Definition on_bench_client {A : Type} (m : M client A) : M bench A := fun b =>
  match m (bench_client b) with
  | (r, c') => (r, mkBench (clock b) c')
  end.

(** A call that takes [d] seconds. *)
Definition taking {A : Type} (d : Q) (m : M bench A) : M bench A := fun b =>
  match m b with
  | (r, b') => (r, mkBench (clock b' + d)%Q (bench_client b'))
  end.

Module Benchmark.

(** [max(a, b)] of Python: [b] when [b > a], else [a]. *)
Definition py_max (a b : Q) : Q := if Qle_bool b a then a else b.

(** [random.uniform(a, b)], which is [a + (b - a) * self.random()]. *)
Definition random_uniform (draw a b : Q) : Q := (a + (b - a) * draw)%Q.

Definition _simulate_network_penalties
  (elapsed_ms latency_ms packet_loss_percent draw : Q) : Q :=
  let adjusted := (elapsed_ms + py_max latency_ms 0)%Q in
  if negb (Qle_bool packet_loss_percent 0) then
    let adjusted := (adjusted * (1 + packet_loss_percent / 100))%Q in
    let jitter := (adjusted * (packet_loss_percent / 500))%Q in
    (adjusted + random_uniform draw 0 jitter)%Q
  else adjusted.

(** The function as the code computes it: over binary64, the [float] of
    Python, operation by operation. *)
Definition py_max_f64 (a b : float) : float :=
  if PrimFloat.ltb a b then b else a.

Definition random_uniform_f64 (draw a b : float) : float :=
  (a + (b - a) * draw)%float.

Definition _simulate_network_penalties_f64
  (elapsed_ms latency_ms packet_loss_percent draw : float) : float :=
  let adjusted := (elapsed_ms + py_max_f64 latency_ms 0)%float in
  if PrimFloat.ltb 0 packet_loss_percent then
    let adjusted := (adjusted * (1 + packet_loss_percent / 100))%float in
    let jitter := (adjusted * (packet_loss_percent / 500))%float in
    (adjusted + random_uniform_f64 draw 0 jitter)%float
  else adjusted.

Section WithCrypto.
Context {ecdh : ECDH} {oqs : OQS}.

(** The [try] block of [measure_classical_handshake]; its value is
    [elapsed_ms]. *)
Definition classical_timed_block (sch : schedule) (net : network) (rnd : ec_entropy)
  : M bench Q :=
  start_time <- perf_counter ;;
  ok <- taking (t_connect sch) (on_bench_client (ClassicalClient.connect net rnd)) ;;
  if negb ok then raise "RuntimeError: Classical handshake failed to connect"%string else
  taking (t_disconnect sch) (on_bench_client ClassicalClient.disconnect) ;;;
  now <- perf_counter ;;
  ret ((now - start_time) * 1000)%Q.

Definition measure_classical_handshake
  (sch : schedule) (net : network) (rnd : ec_entropy) (draw : Q)
  (latency_ms packet_loss_percent : Q) (port : option Z) (free_port : Z)
  : M bench Q :=
  let port := match port with None => free_port | Some p => p end in
  tick (t_server_start sch) ;;;
  tick (t_settle sch) ;;;
  modify (fun b => mkBench (clock b) (ClassicalClient.init "127.0.0.1" port)) ;;;
  elapsed_ms <- try_finally
                  (classical_timed_block sch net rnd)
                  (taking (t_finally sch) (on_bench_client ClassicalClient.disconnect)) ;;
  ret (_simulate_network_penalties elapsed_ms latency_ms packet_loss_percent draw).

(** The [try] block of [measure_pqc_handshake]. *)
Definition pqc_timed_block (sch : schedule) (net : network) (rnd : oqs_entropy)
  : M bench Q :=
  start_time <- perf_counter ;;
  ok <- taking (t_connect sch) (on_bench_client (PQCClient.connect net rnd)) ;;
  if negb ok then raise "RuntimeError: PQC handshake failed to connect"%string else
  taking (t_disconnect sch) (on_bench_client PQCClient.disconnect) ;;;
  now <- perf_counter ;;
  ret ((now - start_time) * 1000)%Q.

Definition measure_pqc_handshake
  (sch : schedule) (net : network) (rnd : oqs_entropy) (draw : Q)
  (latency_ms packet_loss_percent : Q) (port : option Z) (free_port : Z)
  : M bench Q :=
  let port := match port with None => free_port | Some p => p end in
  tick (t_server_start sch) ;;;
  tick (t_settle sch) ;;;
  modify (fun b => mkBench (clock b) (PQCClient.init "127.0.0.1" port)) ;;;
  elapsed_ms <- try_finally
                  (pqc_timed_block sch net rnd)
                  (taking (t_finally sch) (on_bench_client PQCClient.disconnect)) ;;
  ret (_simulate_network_penalties elapsed_ms latency_ms packet_loss_percent draw).

End WithCrypto.

End Benchmark.

(** ** Wire-level notions used by the statements *)

(** A frame of the wire protocol: [length:uint32-big-endian | payload]. *)
Definition frame (payload : bytes) : bytes := be32 (len payload) ++ payload.

(** The bytes a socket will deliver before its stream closes or fails. *)
Fixpoint available (q : list rx_event) : bytes :=
  match q with
  | Chunk (b :: c) :: q' => (b :: c) ++ available q'
  | _ => []
  end.

(** The stream ends by a close of the peer (end of script or empty chunk),
    not by a socket error. *)
Fixpoint ends_by_close (q : list rx_event) : bool :=
  match q with
  | [] => true
  | Chunk [] :: _ => true
  | Chunk (_ :: _) :: q' => ends_by_close q'
  | Fault _ :: _ => false
  end.

(** [parsed input payloads rest]: [input] is a sequence of length-prefixed,
    non-empty [payloads] followed by [rest]. *)
Inductive parsed : bytes -> list bytes -> bytes -> Prop :=
| parsed_nil (rest : bytes) : parsed rest [] rest
| parsed_cons (l p r : bytes) (ps : list bytes) (rest : bytes) :
    len l = 4 -> len p = from_bytes l -> p <> [] ->
    parsed r ps rest ->
    parsed (l ++ p ++ r) (p :: ps) rest.

(** The socket after a successful [sendall data]. *)
Definition sent (data : bytes) (s : socket) : socket :=
  mkSocket (rx s) (tx s ++ data)
           (match tx_credit s with Some k => Some (Nat.pred k) | None => None end)
           (refuses s) (close_fails s) false.

(** The client object once torn down: no socket, no cipher, not connected. *)
Definition cleared (c : client) : client :=
  mkClient (host c) (port c) None None false.

(** The server object after a message has been stored and signalled. *)
Definition delivered (msg : str) (sv : server) : server :=
  match message_received_event sv with
  | Some _ => event_set (set_last_received_message (Some msg) sv)
  | None => set_last_received_message (Some msg) sv
  end.

(** ** Toy primitives for the concrete runs

    Small stand-ins with the shape of the real libraries: Diffie-Hellman in
    the multiplicative group modulo 251, a masking KEM with 32-byte secrets,
    a checksum signature, a checksum AEAD and ASCII text. *)

Definition sum_bytes (b : bytes) : Z :=
  fold_right (fun x acc => byte_to_Z x + acc) 0 b.

Fixpoint bytes_eqb (a b : bytes) : bool :=
  match a, b with
  | [], [] => true
  | x :: a', y :: b' => Byte.eqb x y && bytes_eqb a' b'
  | _, _ => false
  end.

Module Toy.

#[export] Instance toy_ecdh : ECDH := {|
  ec_entropy := Z;
  ec_private_key := Z;
  ec_public_key := Z;
  generate_private_key r := Ok r;
  public_key sk := (6 ^ sk) mod 251;
  public_bytes pk := Ok [byte_of_Z pk];
  load_pem_public_key b :=
    match b with
    | [x] => if byte_to_Z x =? 0 then Exc "ValueError: invalid key"%string
             else Ok (byte_to_Z x)
    | _ => Exc "ValueError: Unable to load PEM file"%string
    end;
  exchange sk pk := Ok [byte_of_Z ((pk ^ sk) mod 251)];
  hkdf_sha256 n salt info km :=
    if n <=? 8160 then
      Ok (map (fun i => byte_of_Z (sum_bytes km + sum_bytes info + 3 * Z.of_nat i))
              (seq 0 (Z.to_nat n)))
    else Exc "ValueError: Cannot derive keys larger than 8160 octets"%string
|}.

#[export] Instance toy_oqs : OQS := {|
  oqs_entropy := Z;
  kem_secret_key := Z;
  sig_secret_key := Z;
  KeyEncapsulation name :=
    if String.eqb name "Kyber768" then Ok tt
    else Exc "MechanismNotSupportedError"%string;
  Signature name :=
    if String.eqb name "ML-DSA-65" then Ok tt
    else Exc "MechanismNotSupportedError"%string;
  kem_generate_keypair r := Ok ([byte_of_Z r; byte_of_Z (r + 1)], r);
  kem_encap_secret r pk :=
    match pk with
    | [] => Exc "ValueError: invalid public key"%string
    | k :: _ =>
        let ss := map (fun i => byte_of_Z (r + 5 * Z.of_nat i)) (seq 0 32) in
        Ok (map (fun x => byte_of_Z (byte_to_Z x + byte_to_Z k)) ss, ss)
    end;
  kem_decap_secret sk ct := Ok (map (fun x => byte_of_Z (byte_to_Z x - sk)) ct);
  sig_generate_keypair r := Ok ([byte_of_Z (r + 7)], (r + 7) mod 256);
  sig_sign r sk msg := Ok [byte_of_Z (sum_bytes msg + sk)];
  sig_verify msg sg pk := Ok (bytes_eqb sg [byte_of_Z (sum_bytes msg + sum_bytes pk)])
|}.

#[export] Instance toy_aead : AEAD := {|
  aesgcm_encrypt key nonce pt aad :=
    Ok (pt ++ [byte_of_Z (sum_bytes key + sum_bytes nonce + sum_bytes pt)]);
  aesgcm_decrypt key nonce ct aad :=
    let pt := removelast ct in
    if bytes_eqb ct (pt ++ [byte_of_Z (sum_bytes key + sum_bytes nonce + sum_bytes pt)])
    then Ok pt else Exc "InvalidTag"%string
|}.

#[export] Instance toy_text : PyText := {|
  decode_utf8 b :=
    if forallb (fun x => byte_to_Z x <? 128) b then Ok (map byte_to_Z b)
    else Exc "UnicodeDecodeError"%string;
  lower s := map (fun c => if (65 <=? c) && (c <=? 90) then c + 32 else c) s;
  stdout_print _ := Ok tt
|}.



End Toy.

(** ** Concrete runs with the toy primitives

    Each peer is run on a socket that delivers, in one chunk, the bytes the
    other peer has sent. *)

Module Demo.
Import Toy.

Definition socket_with (incoming : bytes) : socket :=
  mkSocket [Chunk incoming] [] None false false false.

Definition client_with (incoming : bytes) : client :=
  mkClient "127.0.0.1" 12346 (Some (socket_with incoming)) None false.

Definition sent_by (c : client) : bytes :=
  match client_socket c with
  | Some s => tx s
  | None => []
  end.

(** Post-quantum handshake, client entropy 3 and server entropy 11.  The
    client's three frames do not depend on what it reads. *)
Definition pqc_client_bytes : bytes :=
  sent_by (snd (PQCClient._perform_pqc_key_exchange 3
                  (client_with (frame [byte_of_Z 18])))).

Definition pqc_server_run : res (option bytes) * socket :=
  PQCServer._perform_pqc_key_exchange 11 (socket_with pqc_client_bytes).

Definition pqc_server_bytes : bytes := tx (snd pqc_server_run).

Definition pqc_client_run : res (option bytes) * client :=
  PQCClient._perform_pqc_key_exchange 3 (client_with pqc_server_bytes).

(** Classical handshake, client entropy 5 and server entropy 9.  The
    server's frame does not depend on what it reads. *)
Definition classical_server_bytes : bytes :=
  tx (snd (ClassicalServer._perform_key_exchange 9 (socket_with []))).

Definition classical_client_run : res (option bytes) * client :=
  ClassicalClient._perform_key_exchange 5 (client_with classical_server_bytes).

Definition classical_client_bytes : bytes := sent_by (snd classical_client_run).

Definition classical_server_run : res (option bytes) * socket :=
  ClassicalServer._perform_key_exchange 9 (socket_with classical_client_bytes).

(** A served connection: the ciphertext frame of one message under the
    toy cipher with key [[x01]] and nonce [[x02]]. *)
Definition message_frame_under (key : bytes) (text : string) : bytes :=
  match aesgcm_encrypt key [x02] (bytes_of_string text) None with
  | Ok ct => frame [x02] ++ frame ct
  | Exc _ => []
  end.

Definition message_frame (text : string) : bytes := message_frame_under [x01] text.


Definition listening_server : server :=
  mkServer "localhost" 12346 None true None (Some false).

(** The network as the classical client of the demo sees it. *)
Definition classical_net : network :=
  mkNetwork false [Chunk classical_server_bytes] None false.

Definition pqc_net : network :=
  mkNetwork false [Chunk pqc_server_bytes] None false.

(** One measurement: the connect takes 5 ms, the disconnect inside the
    timed block 1 ms. *)
Definition schedule_5_1 : schedule :=
  mkSchedule (2 # 1000) (100 # 1000) (5 # 1000) (1 # 1000) (60 # 1000).

Definition bench_start : bench :=
  mkBench 0 (ClassicalClient.init "" 0).

Definition key_of (r : res (option bytes)) : bytes :=
  match r with
  | Ok (Some k) => k
  | _ => []
  end.

End Demo.

(** ** The message layer of the clients *)

(** [str.encode("utf-8")] *)
Class PyEncode : Type := {
  encode_utf8 : str -> res bytes
}.

(** [os.urandom(n)], the bytes drawn from the entropy of the call. *)
Class OSRandom : Type := {
  os_entropy : Type;
  urandom : os_entropy -> Z -> res bytes
}.

Module ClassicalClientMessages.
Section WithCrypto.
Context {aead : AEAD} {enc : PyEncode} {rand : OSRandom}.

(** [ClassicalClient.send_message] *)
Definition send_message (message : str) (rnd : os_entropy) : M client bool :=
  is_connected <- gets connected ;;
  cipher <- gets aesgcm ;;
  match is_connected, cipher with
  | true, Some cipher =>
      try_except
        (nonce <- lift (urandom rnd 12) ;;
         plaintext <- lift (encode_utf8 message) ;;
         ciphertext <- lift (aesgcm_encrypt cipher nonce plaintext None) ;;
         let nonce_length := len nonce in
         nonce_length_bytes <- lift (to_bytes4 nonce_length) ;;
         on_client_socket (Socket.sendall nonce_length_bytes) ;;;
         on_client_socket (Socket.sendall nonce) ;;;
         let ciphertext_length := len ciphertext in
         ciphertext_length_bytes <- lift (to_bytes4 ciphertext_length) ;;
         on_client_socket (Socket.sendall ciphertext_length_bytes) ;;;
         on_client_socket (Socket.sendall ciphertext) ;;;
         ret true)
        (fun _ => ret false)
  | _, _ => ret false
  end.
End WithCrypto.
End ClassicalClientMessages.

Module PQCClientMessages.
Section WithCrypto.
Context {aead : AEAD} {enc : PyEncode} {rand : OSRandom}.

(** [PQCClient.send_message] *)
Definition send_message (message : str) (rnd : os_entropy) : M client bool :=
  is_connected <- gets connected ;;
  cipher <- gets aesgcm ;;
  match is_connected, cipher with
  | true, Some cipher =>
      try_except
        (nonce <- lift (urandom rnd 12) ;;
         plaintext <- lift (encode_utf8 message) ;;
         ciphertext <- lift (aesgcm_encrypt cipher nonce plaintext None) ;;
         let nonce_length := len nonce in
         nonce_length_bytes <- lift (to_bytes4 nonce_length) ;;
         on_client_socket (Socket.sendall nonce_length_bytes) ;;;
         on_client_socket (Socket.sendall nonce) ;;;
         let ciphertext_length := len ciphertext in
         ciphertext_length_bytes <- lift (to_bytes4 ciphertext_length) ;;
         on_client_socket (Socket.sendall ciphertext_length_bytes) ;;;
         on_client_socket (Socket.sendall ciphertext) ;;;
         ret true)
        (fun _ => ret false)
  | _, _ => ret false
  end.
End WithCrypto.
End PQCClientMessages.

(** ** Starting and stopping the post-quantum server *)

Definition set_running (b : bool) (sv : server) : server :=
  mkServer (server_host sv) (server_port sv) (server_socket sv) b
           (last_received_message sv) (message_received_event sv).

Definition set_server_socket (o : option socket) (sv : server) : server :=
  mkServer (server_host sv) (server_port sv) o (running sv)
           (last_received_message sv) (message_received_event sv).

(** A method call on [self.server_socket]. *)
Definition on_server_socket {A : Type} (m : M socket A) : M server A := fun sv =>
  match server_socket sv with
  | None => (Exc "AttributeError: 'NoneType' object has no attribute"%string, sv)
  | Some s => match m s with
              | (r, s') => (r, set_server_socket (Some s') sv)
              end
  end.

(** What [accept] on the listening socket meets, call after call: a client
    (its socket, and the entropy of the handshake with it), the one-second
    timeout, an error, or a [stop()] issued by another thread while the call
    waits.  Past the end of the script every call times out. *)
Inductive accept_event (E : Type) : Type :=
| Accepted (conn : socket) (rnd : E)
| TimedOut
| AcceptFailed (e : exn)
| StopRequested.
Arguments Accepted {E} conn rnd.
Arguments TimedOut {E}.
Arguments AcceptFailed {E} e.
Arguments StopRequested {E}.

(** What can go wrong before the accept loop. *)
Inductive listen_failure : Type :=
| CreateFails (e : exn)   (* socket.socket(...) raises: no socket is assigned *)
| SetupFails (e : exn).   (* setsockopt, bind, listen or settimeout raises *)

(** The outcome of creating, binding and configuring the listening socket. *)
Record listen_env : Type := mkListenEnv {
  listen_error : option listen_failure;
  listen_close_fails : bool
}.

Module PQCServerLifecycle.

(** [PQCServer.stop] *)
Definition stop : M server unit :=
  modify (set_running false) ;;;
  sock <- gets server_socket ;;
  match sock with
  | Some _ => try_except (on_server_socket Socket.close) (fun _ => ret tt)
  | None => ret tt
  end.

(** [PQCServer._cleanup] *)
Definition _cleanup : M server unit :=
  sock <- gets server_socket ;;
  match sock with
  | Some _ => try_except (on_server_socket Socket.close) (fun _ => ret tt)
  | None => ret tt
  end.

Section WithCrypto.
Context {oqs : OQS} {aead : AEAD} {text : PyText}.

Definition on_listening_server {A : Type} (m : M server A)
  : M (server * list (accept_event oqs_entropy)) A := fun st =>
  match m (fst st) with
  | (r, sv') => (r, (sv', snd st))
  end.

(** [client_socket, address = self.server_socket.accept()] followed by
    [self._handle_client(client_socket)]. *)
Definition accept_and_handle (handler_fuel : nat)
  : M (server * list (accept_event oqs_entropy)) (loop_res unit) := fun st =>
  let sv := fst st in
  match server_socket sv with
  | None => (Exc "AttributeError: 'NoneType' object has no attribute"%string, st)
  | Some listener =>
      if closed listener then (Exc "OSError: Bad file descriptor"%string, st)
      else match snd st with
           | [] => (Exc "timeout: timed out"%string, st)
           | TimedOut :: script => (Exc "timeout: timed out"%string, (sv, script))
           | AcceptFailed e :: script => (Exc e, (sv, script))
           | StopRequested :: script =>
               (Exc "OSError: Bad file descriptor"%string, (snd (stop sv), script))
           | Accepted conn rnd :: script =>
               match PQCServer._handle_client handler_fuel rnd (sv, conn) with
               | (r, (sv', _)) => (r, (sv', script))
               end
           end
  end.

(** [while self.running: try: ... except socket.timeout: continue
    except Exception: ...] *)
Fixpoint accept_loop (fuel handler_fuel : nat)
  : M (server * list (accept_event oqs_entropy)) (loop_res unit) :=
  is_running <- gets (fun st => running (fst st)) ;;
  if is_running then
    match fuel with
    | O => ret OutOfFuel
    | S fuel' =>
        r <- try_except (accept_and_handle handler_fuel) (fun _ => ret (Done tt)) ;;
        match r with
        | OutOfFuel => ret OutOfFuel
        | Done _ => accept_loop fuel' handler_fuel
        end
    end
  else ret (Done tt).

(** [PQCServer.start] *)
Definition start (fuel handler_fuel : nat) (env : listen_env)
  : M (server * list (accept_event oqs_entropy)) (loop_res unit) :=
  on_listening_server (modify (set_running true)) ;;;
  try_finally
    (try_except
       (match listen_error env with
        | Some (CreateFails e) => raise e
        | _ =>
            on_listening_server
              (modify (set_server_socket
                         (Some (mkSocket [] [] None false (listen_close_fails env)
                                         false))))
        end ;;;
        match listen_error env with
        | Some (SetupFails e) => raise e
        | _ => ret tt
        end ;;;
        accept_loop fuel handler_fuel)
       (fun _ => ret (Done tt)))
    (on_listening_server _cleanup).
End WithCrypto.

End PQCServerLifecycle.

(** ** More of the benchmark *)

(** What one measurement meets: the durations of its steps, the network of
    its connection, the entropy of its handshake, the value of
    [random.random()] for the jitter and the free port the system hands
    out. *)
Record trial (E : Type) : Type := mkTrial {
  trial_schedule : schedule;
  trial_network : network;
  trial_entropy : E;
  trial_draw : float;
  trial_free_port : Z
}.

(** The measurements with the arithmetic of the code: the readings of
    [time.perf_counter()], the elapsed time and the impairment are binary64
    numbers.  [reading t] is the float the counter returns at the instant
    [t] of the wall clock. *)
Module BenchmarkModes.
Section WithCrypto.
Context {ecdh : ECDH} {oqs : OQS}.
Variable reading : Q -> float.

(** [time.perf_counter()] *)
Definition perf_counter : M bench float := gets (fun b => reading (clock b)).

(** The [try] block of [measure_classical_handshake]; its value is
    [elapsed_ms]. *)
Definition classical_timed_block (sch : schedule) (net : network) (rnd : ec_entropy)
  : M bench float :=
  start_time <- perf_counter ;;
  ok <- taking (t_connect sch) (on_bench_client (ClassicalClient.connect net rnd)) ;;
  if negb ok then raise "RuntimeError: Classical handshake failed to connect"%string else
  taking (t_disconnect sch) (on_bench_client ClassicalClient.disconnect) ;;;
  now <- perf_counter ;;
  ret ((now - start_time) * 1000)%float.

(** [measure_classical_handshake], called without a port. *)
Definition measure_classical_handshake
  (tc : trial ec_entropy) (latency_ms packet_loss_percent : float) : M bench float :=
  let sch := trial_schedule tc in
  tick (t_server_start sch) ;;;
  tick (t_settle sch) ;;;
  modify (fun b => mkBench (clock b)
                     (ClassicalClient.init "127.0.0.1" (trial_free_port tc))) ;;;
  elapsed_ms <- try_finally
                  (classical_timed_block sch (trial_network tc) (trial_entropy tc))
                  (taking (t_finally sch) (on_bench_client ClassicalClient.disconnect)) ;;
  ret (Benchmark._simulate_network_penalties_f64 elapsed_ms latency_ms
         packet_loss_percent (trial_draw tc)).

(** The [try] block of [measure_pqc_handshake]. *)
Definition pqc_timed_block (sch : schedule) (net : network) (rnd : oqs_entropy)
  : M bench float :=
  start_time <- perf_counter ;;
  ok <- taking (t_connect sch) (on_bench_client (PQCClient.connect net rnd)) ;;
  if negb ok then raise "RuntimeError: PQC handshake failed to connect"%string else
  taking (t_disconnect sch) (on_bench_client PQCClient.disconnect) ;;;
  now <- perf_counter ;;
  ret ((now - start_time) * 1000)%float.

(** [measure_pqc_handshake], called without a port. *)
Definition measure_pqc_handshake
  (tp : trial oqs_entropy) (latency_ms packet_loss_percent : float) : M bench float :=
  let sch := trial_schedule tp in
  tick (t_server_start sch) ;;;
  tick (t_settle sch) ;;;
  modify (fun b => mkBench (clock b)
                     (PQCClient.init "127.0.0.1" (trial_free_port tp))) ;;;
  elapsed_ms <- try_finally
                  (pqc_timed_block sch (trial_network tp) (trial_entropy tp))
                  (taking (t_finally sch) (on_bench_client PQCClient.disconnect)) ;;
  ret (Benchmark._simulate_network_penalties_f64 elapsed_ms latency_ms
         packet_loss_percent (trial_draw tp)).

(** [measure_hybrid_handshake] *)
Definition measure_hybrid_handshake
  (tc : trial ec_entropy) (tp : trial oqs_entropy)
  (latency_ms packet_loss_percent : float) : M bench float :=
  classical_time <- measure_classical_handshake tc latency_ms packet_loss_percent ;;
  pqc_time <- measure_pqc_handshake tp latency_ms packet_loss_percent ;;
  ret (classical_time + pqc_time)%float.

(** [get_classical_key_size] *)
Definition get_classical_key_size (rnd : ec_entropy) : res Z :=
  match generate_private_key rnd with
  | Exc e => Exc e
  | Ok private_key =>
      match public_bytes (public_key private_key) with
      | Exc e => Exc e
      | Ok public_bytes => Ok (len public_bytes)
      end
  end.

(** [get_pqc_key_sizes]: the values under ["kem_public_key_bytes"] and
    ["signature_bytes"]. *)
Definition get_pqc_key_sizes (rnd : oqs_entropy) : res (Z * Z) :=
  match KeyEncapsulation "Kyber768" with
  | Exc e => Exc e
  | Ok _ =>
  match Signature "ML-DSA-65" with
  | Exc e => Exc e
  | Ok _ =>
  match kem_generate_keypair rnd with
  | Exc e => Exc e
  | Ok (kem_public_key, _) =>
  match sig_generate_keypair rnd with
  | Exc e => Exc e
  | Ok (_, sig_sk) =>
  match sig_sign rnd sig_sk (bytes_of_string "benchmark") with
  | Exc e => Exc e
  | Ok signature => Ok (len kem_public_key, len signature)
  end end end end end.
End WithCrypto.
End BenchmarkModes.

(** ** The interactive entry points of the clients *)

(** What [input("> ")] meets, call after call: a typed line, together with
    the entropy at hand when the line is sent, or an interrupt from the
    keyboard.  Past the end of the script standard input is at its end. *)
Inductive console_event (E : Type) : Type :=
| Typed (line : str) (rnd : E)
| CtrlC.
Arguments Typed {E} line rnd.
Arguments CtrlC {E}.

Definition KeyboardInterrupt : exn := "KeyboardInterrupt"%string.

(** [try: m except KeyboardInterrupt: h] *)
Definition try_except_interrupt {S A : Type} (m : M S A) (h : M S A) : M S A :=
  fun s => match m s with
           | (Ok a, s') => (Ok a, s')
           | (Exc e, s') => if String.eqb e KeyboardInterrupt then h s' else (Exc e, s')
           end.

Module ClassicalClientMain.
Section WithCrypto.
Context {ecdh : ECDH} {aead : AEAD} {text : PyText} {enc : PyEncode} {rand : OSRandom}.

(** The [while True] loop of [main]; each pass reads one line. *)
Fixpoint chat (script : list (console_event os_entropy)) : M client unit :=
  match script with
  | [] => raise "EOFError: EOF when reading a line"%string
  | CtrlC :: _ => raise KeyboardInterrupt
  | Typed message rnd :: script' =>
      match message with
      | [] => chat script'
      | _ :: _ =>
          sent <- ClassicalClientMessages.send_message message rnd ;;
          if negb sent then ret tt
          else if str_eqb (lower message) (str_of_string "exit") then ret tt
          else chat script'
      end
  end.

(** [main] of [client_classical.py], on the client it creates. *)
Definition main (net : network) (rnd : ec_entropy)
           (script : list (console_event os_entropy)) : res unit * client :=
  try_finally
    (try_except_interrupt
       (ok <- ClassicalClient.connect net rnd ;;
        if negb ok then ret tt else chat script)
       (ret tt))
    ClassicalClient.disconnect
    (ClassicalClient.init "localhost" 12345).
End WithCrypto.
End ClassicalClientMain.

Module PQCClientMain.
Section WithCrypto.
Context {oqs : OQS} {aead : AEAD} {text : PyText} {enc : PyEncode} {rand : OSRandom}.

Fixpoint chat (script : list (console_event os_entropy)) : M client unit :=
  match script with
  | [] => raise "EOFError: EOF when reading a line"%string
  | CtrlC :: _ => raise KeyboardInterrupt
  | Typed message rnd :: script' =>
      match message with
      | [] => chat script'
      | _ :: _ =>
          sent <- PQCClientMessages.send_message message rnd ;;
          if negb sent then ret tt
          else if str_eqb (lower message) (str_of_string "exit") then ret tt
          else chat script'
      end
  end.

(** [main] of [client_pqc.py], on the client it creates. *)
Definition main (net : network) (rnd : oqs_entropy)
           (script : list (console_event os_entropy)) : res unit * client :=
  try_finally
    (try_except_interrupt
       (ok <- PQCClient.connect net rnd ;;
        if negb ok then ret tt else chat script)
       (ret tt))
    PQCClient.disconnect
    (PQCClient.init "localhost" 12346).
End WithCrypto.
End PQCClientMain.

(** ** Toy text encoding and randomness *)

Module ToyIO.

#[export] Instance toy_encode : PyEncode := {|
  encode_utf8 s :=
    if forallb (fun c => (0 <=? c) && (c <? 128)) s then Ok (map byte_of_Z s)
    else Exc "UnicodeEncodeError"%string
|}.

#[export] Instance toy_random : OSRandom := {|
  os_entropy := Z;
  urandom r n := Ok (map (fun i => byte_of_Z (r + 7 * Z.of_nat i)) (seq 0 (Z.to_nat n)))
|}.

(** A performance counter: the instant, a non-negative fraction of small
    integers once reduced, divided out in binary64. *)
Definition toy_reading (t : Q) : float :=
  (PrimFloat.of_uint63 (Uint63.of_Z (Qnum (Qred t)))
   / PrimFloat.of_uint63 (Uint63.of_Z (Zpos (Qden (Qred t)))))%float.

End ToyIO.

(** ** A stream of messages *)

(** The wire image of a sequence of messages, each given by its nonce, its
    ciphertext and its text. *)
Definition message_wire (msgs : list (bytes * bytes * str)) : bytes :=
  concat (map (fun m => frame (fst (fst m)) ++ frame (snd (fst m))) msgs).

Section Served.
Context {text : PyText}.

Definition is_sentinel (message : str) : bool :=
  str_eqb (lower message) (str_of_string "exit").

(** The messages up to the first sentinel, the sentinel included. *)
Fixpoint served (texts : list str) : list str :=
  match texts with
  | [] => []
  | m :: ms => if is_sentinel m then [m] else m :: served ms
  end.

(** The server object after the serve loop has delivered [texts]. *)
Definition after_serving (texts : list str) (sv : server) : server :=
  fold_left (fun sv m => delivered m sv) (served texts) sv.

(** The messages left on the stream once the loop has stopped at the first
    sentinel. *)
Fixpoint unserved (msgs : list (bytes * bytes * str)) : list (bytes * bytes * str) :=
  match msgs with
  | [] => []
  | m :: ms => if is_sentinel (snd m) then ms else unserved ms
  end.

(** A message of the stream: well-formed frames that decrypt and decode to
    its text, which standard output can print. *)
Definition readable {aead : AEAD} (cipher : bytes) (m : bytes * bytes * str) : Prop :=
  fst (fst m) <> [] /\ snd (fst m) <> []
  /\ len (fst (fst m)) < 4294967296 /\ len (snd (fst m)) < 4294967296
  /\ exists plaintext,
       aesgcm_decrypt cipher (fst (fst m)) (snd (fst m)) None = Ok plaintext
       /\ decode_utf8 plaintext = Ok (snd m)
       /\ stdout_print (snd m) = Ok tt.
End Served.

(** ** A concrete conversation *)

Module DemoIO.
Import Toy ToyIO.

Definition socket_of (c : client) : socket :=
  match client_socket c with
  | Some s => s
  | None => Demo.socket_with []
  end.

(** The classical client of the demo once connected, and after it has sent
    ["hello"] with entropy 1. *)
Definition connected_client : client :=
  snd (ClassicalClient.connect Demo.classical_net 5
         (ClassicalClient.init "127.0.0.1" 12345)).

Definition session_key : bytes :=
  match aesgcm connected_client with
  | Some k => k
  | None => []
  end.

Definition after_hello : client :=
  snd (ClassicalClientMessages.send_message (str_of_string "hello") 1 connected_client).

Definition hello_wire : bytes :=
  skipn (length (tx (socket_of connected_client))) (tx (socket_of after_hello)).

(** A message under the key [[x01]] with nonce [[x02]]. *)
Definition toy_message (text : string) : bytes * bytes * str :=
  ([x02],
   match aesgcm_encrypt [x01] [x02] (bytes_of_string text) None with
   | Ok ct => ct
   | Exc _ => []
   end,
   str_of_string text).

End DemoIO.

(** ** A concrete post-quantum session

    The client of the demo connects, sends ["hello"] and then ["exit"]; the
    server is run on the bytes this client has written. *)

Module DemoSession.
Import Toy ToyIO.

Definition pqc_connected : client :=
  snd (PQCClient.connect Demo.pqc_net 3 (PQCClient.init "127.0.0.1" 12346)).

Definition pqc_after_session : client :=
  snd (PQCClientMessages.send_message (str_of_string "exit") 2
         (snd (PQCClientMessages.send_message (str_of_string "hello") 1
                 pqc_connected))).

Definition pqc_session_wire : bytes := tx (DemoIO.socket_of pqc_after_session).

Definition pqc_session_key : bytes :=
  match aesgcm pqc_connected with
  | Some k => k
  | None => []
  end.

(** The message the client builds from entropy [rnd] for [text]. *)
Definition session_message (rnd : Z) (text : string) : bytes * bytes * str :=
  match urandom rnd 12 with
  | Ok nonce =>
      (nonce,
       match aesgcm_encrypt pqc_session_key nonce (bytes_of_string text) None with
       | Ok ct => ct
       | Exc _ => []
       end,
       str_of_string text)
  | Exc _ => ([], [], str_of_string text)
  end.

End DemoSession.

(** ** What a chat session sends *)

Section Typed.
Context {text : PyText}.

(** The lines of a console script that the chat loop sends: the non-empty
    ones, up to and including the first that lowercases to ["exit"], and
    none once the keyboard interrupts. *)
Fixpoint typed_until_exit {E : Type} (script : list (console_event E)) : list (str * E) :=
  match script with
  | [] => []
  | CtrlC :: _ => []
  | Typed [] _ :: script' => typed_until_exit script'
  | Typed message rnd :: script' =>
      if is_sentinel message then [(message, rnd)]
      else (message, rnd) :: typed_until_exit script'
  end.

(** How the chat loop ends when every message gets sent. *)
Fixpoint chat_outcome {E : Type} (script : list (console_event E)) : res unit :=
  match script with
  | [] => Exc "EOFError: EOF when reading a line"%string
  | CtrlC :: _ => Exc KeyboardInterrupt
  | Typed [] _ :: script' => chat_outcome script'
  | Typed message _ :: script' =>
      if is_sentinel message then Ok tt else chat_outcome script'
  end.
End Typed.

(** The message [m] (nonce, ciphertext, text) is what [send_message] builds
    under [key] for the typed [line] and its entropy. *)
Definition encrypts {aead : AEAD} {enc : PyEncode} {rand : OSRandom}
           (key : bytes) (line : str * os_entropy) (m : bytes * bytes * str) : Prop :=
  snd m = fst line
  /\ urandom (snd line) 12 = Ok (fst (fst m))
  /\ len (fst (fst m)) < 4294967296 /\ len (snd (fst m)) < 4294967296
  /\ exists plaintext,
       encode_utf8 (fst line) = Ok plaintext
       /\ aesgcm_encrypt key (fst (fst m)) plaintext None = Ok (snd (fst m)).

(** ** What a handler leaves alone *)

(** A computation on a socket that only consumes its incoming stream: it
    writes nothing, and does not close the socket. *)
Definition reads_only {A : Type} (m : M socket A) : Prop :=
  forall (s : socket) (r : res A) (s' : socket),
    m s = (r, s') -> s' = set_rx (rx s') s.

(** Two states of the server object with the same listening side. *)
Definition same_listener (sv sv' : server) : Prop :=
  server_host sv' = server_host sv
  /\ server_port sv' = server_port sv
  /\ server_socket sv' = server_socket sv
  /\ running sv' = running sv.

(** An event of the accept script that one pass of the accept loop gets
    through: not a stop, and a client whose stream the handler can read to
    its end with [handler_fuel]. *)
Definition handled_within {E : Type} (handler_fuel : nat) (ev : accept_event E) : Prop :=
  match ev with
  | Accepted conn _ => len (available (rx conn)) < Z.of_nat handler_fuel
  | StopRequested => False
  | TimedOut | AcceptFailed _ => True
  end.

(** ** Rounding in binary64

    The standard library specifies the operations on [float] by functions
    on [spec_float]; these are the notions used to follow their rounding. *)

(** The record after [n] right shifts of a non-negative [m]: quotient, and
    where the remainder lies with respect to the half. *)
Definition shifted (n : nat) (m : Z) (mrs : shr_record) : Prop :=
  exists rem,
    m = shr_m mrs * 2 ^ Z.of_nat n + rem
    /\ 0 <= rem < 2 ^ Z.of_nat n
    /\ 0 <= shr_m mrs
    /\ (shr_r mrs = true <-> 2 ^ Z.of_nat n <= 2 * rem)
    /\ (shr_s mrs = false <-> rem = 0 \/ 2 * rem = 2 ^ Z.of_nat n).

(** The second half of [binary_round_aux]: what it does with the mantissa
    rounded to nearest-even. *)
Definition round_finish (sx : bool) (m' e' : Z) : spec_float :=
  let '(mrs'', e'') := shr_fexp prec emax m' e' loc_Exact in
  match shr_m mrs'' with
  | Z0 => S754_zero sx
  | Zpos m => if Z.leb e'' (emax - prec) then S754_finite sx m e'' else S754_infinity sx
  | Zneg _ => S754_nan
  end.

(** At raw 100, latency 30 and loss 2: the value after the multiplication by
    [1 + loss/100], and the bound of the jitter, as the code computes them;
    and the float one. *)
Definition sf_multiplied : spec_float := S754_finite false 4665447738979123 (-45).
Definition sf_jitter_bound : spec_float := S754_finite false 4777418484714622 (-53).
Definition sf_one : spec_float := S754_finite false 4503599627370496 (-52).

(** * Properties *)

(** ** Bytes and frames *)

Lemma byte_to_of_Z (z : Z) : byte_to_Z (byte_of_Z z) = z mod 256.
Proof.
  unfold byte_to_Z, byte_of_Z.
  assert (Hr : 0 <= z mod 256 < 256) by (apply Z.mod_pos_bound; lia).
  destruct (Byte.of_N (Z.to_N (z mod 256))) as [b|] eqn:Hb.
  - apply Byte.to_of_N in Hb. rewrite Hb. lia.
  - apply Byte.of_N_None_iff in Hb. lia.
Qed.

Lemma from_bytes_be32 (n : Z) : 0 <= n < 4294967296 -> from_bytes (be32 n) = n.
Proof.
  intros Hn. unfold from_bytes, be32. cbn [fold_left].
  rewrite !byte_to_of_Z.
  replace (n / 65536) with (n / 256 / 256) by (rewrite Z.div_div by lia; reflexivity).
  replace (n / 16777216) with (n / 256 / 256 / 256) by (rewrite !Z.div_div by lia; reflexivity).
  pose proof (Z.div_mod n 256 ltac:(lia)) as H0.
  pose proof (Z.div_mod (n / 256) 256 ltac:(lia)) as H1.
  pose proof (Z.div_mod (n / 256 / 256) 256 ltac:(lia)) as H2.
  pose proof (Z.div_mod (n / 256 / 256 / 256) 256 ltac:(lia)) as H3.
  pose proof (Z.mod_pos_bound n 256 ltac:(lia)).
  pose proof (Z.mod_pos_bound (n / 256) 256 ltac:(lia)).
  pose proof (Z.mod_pos_bound (n / 256 / 256) 256 ltac:(lia)).
  pose proof (Z.mod_pos_bound (n / 256 / 256 / 256) 256 ltac:(lia)).
  set (q1 := n / 256) in *. set (q2 := q1 / 256) in *. set (q3 := q2 / 256) in *.
  assert (q3 / 256 = 0) by (apply Z.div_small; lia).
  lia.
Qed.

Lemma len_be32 (n : Z) : len (be32 n) = 4.
Proof. reflexivity. Qed.

Lemma len_app {A : Type} (a b : list A) : len (a ++ b) = len a + len b.
Proof. unfold len. rewrite length_app. lia. Qed.

Lemma len_nonneg {A : Type} (a : list A) : 0 <= len a.
Proof. unfold len. lia. Qed.

(** Linear arithmetic over lengths. *)
Ltac llia :=
  unfold len in *; repeat rewrite length_app in *; cbn [length] in *; lia.

Lemma app_eq_len {A : Type} (a b c d : list A) :
  a ++ b = c ++ d -> len a = len c -> a = c /\ b = d.
Proof.
  unfold len. intros H Hl.
  revert c H Hl. induction a as [|x a IH]; intros [|y c] H Hl; simpl in *;
    try lia; auto.
  injection H as -> H. destruct (IH c H ltac:(lia)) as [-> ->]. auto.
Qed.

Lemma from_bytes_nonneg (b : bytes) : 0 <= from_bytes b.
Proof.
  unfold from_bytes.
  assert (G : forall acc, 0 <= acc ->
                0 <= fold_left (fun acc x => acc * 256 + byte_to_Z x) b acc).
  { induction b as [|x b IH]; intros acc Hacc; simpl; [assumption|].
    apply IH. unfold byte_to_Z. lia. }
  apply G. lia.
Qed.

Lemma frame_split (a b : bytes) (r1 r2 : bytes) (l : bytes) :
  len l = 4 -> len a = from_bytes l -> len b < 4294967296 ->
  l ++ a ++ r1 = frame b ++ r2 -> a = b /\ r1 = r2.
Proof.
  intros Hl Ha Hb H. unfold frame in H. rewrite <- app_assoc in H.
  apply app_eq_len in H; [|rewrite len_be32; exact Hl].
  destruct H as [-> H].
  rewrite from_bytes_be32 in Ha by (pose proof (len_nonneg b); lia).
  apply app_eq_len in H; assumption.
Qed.

(** ** The exact-read loop *)

Section ExactReadFacts.
Variable S : Type.
Variable recv : Z -> M S bytes.

(** The loop bound is never reached: each pass that continues adds a byte. *)
Lemma receive_exact_loop_fuel (fuel : nat) (n : Z) (data : bytes) (s : S) :
  (Z.to_nat (n - len data) <= fuel)%nat ->
  fst (receive_exact_loop recv fuel n data s) <> OutOfFuel.
Proof.
  revert data s. induction fuel as [|fuel IH]; intros data s Hf; simpl.
  - destruct (len data <? n) eqn:Hlt; [apply Z.ltb_lt in Hlt; lia | discriminate].
  - destruct (len data <? n) eqn:Hlt; [|discriminate].
    apply Z.ltb_lt in Hlt.
    destruct (recv (n - len data) s) as [[[|b chunk]|e] s1]; try discriminate.
    apply IH. rewrite len_app. unfold len at 2. simpl length. lia.
Qed.

Lemma receive_exact_done (n : Z) (s : S) :
  exists r s', receive_exact_loop recv (Z.to_nat n) n [] s = (Done r, s')
               /\ receive_exact recv n s = (r, s').
Proof.
  unfold receive_exact.
  pose proof (@receive_exact_loop_fuel (Z.to_nat n) n [] s) as Hf.
  destruct (receive_exact_loop recv (Z.to_nat n) n [] s) as [[r|] s'].
  - eauto.
  - exfalso. apply Hf; [|reflexivity]. unfold len. simpl. lia.
Qed.
End ExactReadFacts.

Lemma available_app_chunk (c : bytes) (q : list rx_event) :
  c <> [] -> available (Chunk c :: q) = c ++ available q.
Proof. destruct c; [congruence | reflexivity]. Qed.

(** What a successful pass of the loop on a socket has consumed. *)
Lemma socket_loop_inv (fuel : nat) (n : Z) (data d : bytes) (s s' : socket) :
  receive_exact_loop Socket.recv fuel n data s = (Done (Ok (Some d)), s') ->
  len data <= n ->
  exists d', d = data ++ d' /\ len d = n
             /\ available (rx s) = d' ++ available (rx s')
             /\ s' = set_rx (rx s') s.
Proof.
  revert data s. induction fuel as [|fuel IH]; intros data s H Hle; simpl in H.
  - destruct (len data <? n) eqn:Hlt; [discriminate|].
    apply Z.ltb_ge in Hlt. injection H as <- <-.
    exists []. rewrite app_nil_r. repeat split; try lia. destruct s; reflexivity.
  - destruct (len data <? n) eqn:Hlt.
    + apply Z.ltb_lt in Hlt. unfold Socket.recv in H.
      destruct (closed s) eqn:Hc; [discriminate|].
      destruct (n - len data <? 0) eqn:Hneg; [discriminate|].
      destruct (rx s) as [|[c|e] q] eqn:Hrx; try discriminate.
      set (k := Z.to_nat (n - len data)) in *.
      destruct (firstn k c) as [|b chunk] eqn:Hfirst; [discriminate|].
      apply IH in H.
      * destruct H as (d' & -> & Hlen & Hav & Hs').
        exists ((b :: chunk) ++ d'). rewrite app_assoc.
        split; [reflexivity|]. split; [assumption|]. split.
        -- rewrite <- app_assoc, <- Hav. simpl rx.
           assert (Hc0 : c <> []) by (destruct c; [destruct k; discriminate | congruence]).
           rewrite (available_app_chunk q Hc0).
           rewrite <- (firstn_skipn k c) at 1. rewrite Hfirst, <- app_assoc. f_equal.
           destruct (length c <=? k)%nat eqn:Hck.
           ++ apply Nat.leb_le in Hck. rewrite skipn_all2 by assumption. reflexivity.
           ++ apply Nat.leb_gt in Hck. rewrite available_app_chunk; [reflexivity|].
              intros Hnil. apply (f_equal (@length byte)) in Hnil.
              rewrite length_skipn in Hnil. change (length (@nil byte)) with 0%nat in Hnil. lia.
        -- rewrite Hs'. destruct s; reflexivity.
      * rewrite len_app. rewrite <- Hfirst. unfold len at 2.
        pose proof (firstn_le_length k c). 
        assert (length (firstn k c) <= k)%nat
          by (rewrite length_firstn; apply Nat.le_min_l).
        unfold k in *. lia.
    + apply Z.ltb_ge in Hlt. injection H as <- <-.
      exists []. rewrite app_nil_r. repeat split; try lia. destruct s; reflexivity.
Qed.

Lemma socket_receive_exact_inv (n : Z) (d : bytes) (s s' : socket) :
  receive_exact Socket.recv n s = (Ok (Some d), s') ->
  0 <= n ->
  len d = n /\ available (rx s) = d ++ available (rx s') /\ s' = set_rx (rx s') s.
Proof.
  intros H Hn.
  destruct (receive_exact_done Socket.recv n s) as (r & s1 & Hl & Hr).
  rewrite Hr in H. injection H as -> ->.
  apply socket_loop_inv in Hl; [|unfold len; simpl; lia].
  destruct Hl as (d' & -> & ? & ? & ?). simpl. auto.
Qed.

Lemma set_rx_set_rx (q q' : list rx_event) (s : socket) :
  set_rx q (set_rx q' s) = set_rx q s.
Proof. reflexivity. Qed.

(** One [recv] on an open socket whose next event is a non-empty chunk. *)
Lemma socket_recv_chunk (k : Z) (s : socket) (b : byte) (c : bytes) (q : list rx_event) :
  closed s = false -> 0 < k -> rx s = Chunk (b :: c) :: q ->
  exists chunk q',
    Socket.recv k s = (Ok chunk, set_rx q' s)
    /\ chunk <> []
    /\ (length chunk <= Z.to_nat k)%nat
    /\ available (rx s) = chunk ++ available q'
    /\ ends_by_close q' = ends_by_close (rx s)
    /\ (length chunk < Z.to_nat k -> chunk = b :: c /\ q' = q)%nat.
Proof.
  intros Hc Hk Hrx. unfold Socket.recv. rewrite Hc, Hrx.
  destruct (k <? 0) eqn:Hneg; [apply Z.ltb_lt in Hneg; lia|].
  set (n := Z.to_nat k). assert (Hn : (0 < n)%nat) by (unfold n; lia).
  exists (firstn n (b :: c)).
  exists (if (length (b :: c) <=? n)%nat then q else Chunk (skipn n (b :: c)) :: q).
  split; [reflexivity|].
  split; [destruct n; [lia | simpl; discriminate]|].
  split; [rewrite length_firstn; apply Nat.le_min_l|].
  destruct (length (b :: c) <=? n)%nat eqn:Hle.
  - apply Nat.leb_le in Hle. rewrite firstn_all2 by assumption.
    repeat split; reflexivity.
  - apply Nat.leb_gt in Hle.
    assert (Hsk : skipn n (b :: c) <> []).
    { intros Hnil. apply (f_equal (@length byte)) in Hnil.
      rewrite length_skipn in Hnil. change (length (@nil byte)) with 0%nat in Hnil. lia. }
    split; [|split].
    + rewrite (available_app_chunk q Hsk), app_assoc, firstn_skipn. reflexivity.
    + destruct (skipn n (b :: c)); [congruence | reflexivity].
    + rewrite length_firstn. intros Hlt. lia.
Qed.

(** Enough bytes before the stream ends: the loop returns exactly the first
    [n] of them, whatever the chunking. *)
Lemma socket_loop_fwd (fuel : nat) (n : Z) (data : bytes) (s : socket) :
  closed s = false -> len data <= n ->
  (Z.to_nat (n - len data) <= fuel)%nat ->
  n - len data <= len (available (rx s)) ->
  exists q',
    receive_exact_loop Socket.recv fuel n data s =
      (Done (Ok (Some (data ++ firstn (Z.to_nat (n - len data)) (available (rx s))))),
       set_rx q' s)
    /\ available q' = skipn (Z.to_nat (n - len data)) (available (rx s)).
Proof.
  revert data s. induction fuel as [|fuel IH]; intros data s Hc Hle Hf Hav.
  - simpl. destruct (len data <? n) eqn:Hlt; [apply Z.ltb_lt in Hlt; lia|].
    apply Z.ltb_ge in Hlt. replace (n - len data) with 0 by lia. simpl.
    exists (rx s). rewrite app_nil_r. split; [destruct s; reflexivity | reflexivity].
  - simpl. destruct (len data <? n) eqn:Hlt.
    + apply Z.ltb_lt in Hlt.
      destruct (rx s) as [|[[|b c]|e] q] eqn:Hrx;
        try (simpl in Hav; change (len (@nil byte)) with 0 in Hav; lia).
      destruct (@socket_recv_chunk (n - len data) s b c q Hc ltac:(lia) Hrx)
        as (chunk & q1 & Hrecv & Hne & Hlen & Havs & _ & _).
      rewrite Hrecv. destruct chunk as [|b0 chunk]; [congruence|].
      rewrite Hrx in Havs.
      assert (Hl1 : len (data ++ b0 :: chunk) = len data + len (b0 :: chunk))
        by apply len_app.
      assert (Hl2 : len (b0 :: chunk) <= n - len data) by (unfold len in *; lia).
      destruct (IH (data ++ b0 :: chunk) (set_rx q1 s)) as (q' & Hloop & Hq');
        try (simpl; assumption); try llia.
      { simpl rx. rewrite Havs in Hav. llia. }
      exists q'. rewrite Hloop, set_rx_set_rx. simpl rx in *.
      replace (Z.to_nat (n - len data))
        with (length (b0 :: chunk) + Z.to_nat (n - len (data ++ b0 :: chunk)))%nat
        by (unfold len in *; lia).
      rewrite Havs, firstn_app_2, <- app_assoc. split; [reflexivity|].
      rewrite Hq', skipn_app, Nat.add_comm, Nat.add_sub.
      rewrite (skipn_all2 (b0 :: chunk)) by lia. reflexivity.
    + apply Z.ltb_ge in Hlt. replace (n - len data) with 0 by lia. simpl.
      exists (rx s). rewrite app_nil_r. split; [destruct s; reflexivity | reflexivity].
Qed.

(** The peer closes before [n] bytes have arrived: a clean [None]. *)
Lemma socket_loop_closed (fuel : nat) (n : Z) (data : bytes) (s : socket) :
  closed s = false ->
  (Z.to_nat (n - len data) <= fuel)%nat ->
  ends_by_close (rx s) = true ->
  len (available (rx s)) < n - len data ->
  exists s', receive_exact_loop Socket.recv fuel n data s = (Done (Ok None), s').
Proof.
  revert data s. induction fuel as [|fuel IH]; intros data s Hc Hf Hend Hav.
  - pose proof (len_nonneg (available (rx s))). lia.
  - simpl. pose proof (len_nonneg (available (rx s))).
    destruct (len data <? n) eqn:Hlt; [|apply Z.ltb_ge in Hlt; lia].
    destruct (rx s) as [|[[|b c]|e] q] eqn:Hrx; try discriminate.
    + unfold Socket.recv. rewrite Hc, Hrx.
      destruct (n - len data <? 0) eqn:Hneg; [apply Z.ltb_lt in Hneg; lia|]. eauto.
    + unfold Socket.recv. rewrite Hc, Hrx.
      destruct (n - len data <? 0) eqn:Hneg; [apply Z.ltb_lt in Hneg; lia|].
      rewrite firstn_nil. eauto.
    + destruct (@socket_recv_chunk (n - len data) s b c q Hc ltac:(lia) Hrx)
        as (chunk & q1 & Hrecv & Hne & Hlen & Havs & Hends & Hall).
      rewrite Hrecv. destruct chunk as [|b0 chunk]; [congruence|].
      rewrite Hrx in Havs, Hends.
      assert (Hl1 : len (data ++ b0 :: chunk) = len data + len (b0 :: chunk))
        by apply len_app.
      rewrite Havs, len_app in Hav.
      pose proof (len_nonneg (available q1)).
      apply IH; simpl rx; simpl closed; try assumption; try llia.
      rewrite Hends. exact Hend.
Qed.

(** The clients call [recv] on [self.client_socket]; with a socket in place
    their loop is the loop on that socket. *)
Lemma client_loop_socket (fuel : nat) (n : Z) (data : bytes) (c : client) (s : socket) :
  client_socket c = Some s ->
  receive_exact_loop (fun k => on_client_socket (Socket.recv k)) fuel n data c =
  match receive_exact_loop Socket.recv fuel n data s with
  | (r, s') => (r, set_client_socket (Some s') c)
  end.
Proof.
  revert data c s. induction fuel as [|fuel IH]; intros data c s Hs; simpl.
  - destruct (len data <? n); destruct c; simpl in *; subst; reflexivity.
  - destruct (len data <? n); [|destruct c; simpl in *; subst; reflexivity].
    unfold on_client_socket at 1. rewrite Hs.
    destruct (Socket.recv (n - len data) s) as [[[|b chunk]|e] s1]; try reflexivity.
    rewrite (IH _ _ s1) by reflexivity.
    destruct (receive_exact_loop Socket.recv fuel n (data ++ b :: chunk) s1).
    reflexivity.
Qed.

Lemma client_receive_exact_socket (n : Z) (c : client) (s : socket) :
  client_socket c = Some s ->
  receive_exact (fun k => on_client_socket (Socket.recv k)) n c =
  match receive_exact Socket.recv n s with
  | (r, s') => (r, set_client_socket (Some s') c)
  end.
Proof.
  intros Hs. unfold receive_exact. rewrite (client_loop_socket _ _ _ _ Hs).
  destruct (receive_exact_loop Socket.recv (Z.to_nat n) n [] s) as [[r|] s'];
    reflexivity.
Qed.

(** A socket on which three partial reads are needed for four bytes. *)
Example receive_exact_partial_reads :
  PQCServer._receive_exact 4
    (mkSocket [Chunk [x01]; Chunk [x02; x03]; Chunk [x04; x05; x06]] [] None
              false false false)
  = (Ok (Some [x01; x02; x03; x04]),
     mkSocket [Chunk [x05; x06]] [] None false false false).
Proof. reflexivity. Qed.

(** The peer closes in the middle of a four-byte length field. *)
Example receive_exact_closed_mid_length :
  PQCServer._receive_exact 4
    (mkSocket [Chunk [x00; x00]] [] None false false false)
  = (Ok None, mkSocket [] [] None false false false).
Proof. reflexivity. Qed.

(** C4. For every byte count [n], on an open socket, [_receive_exact]
    returns exactly the first [n] bytes the stream delivers whenever it
    delivers at least [n] before ending, however the bytes are split into
    chunks; and it returns [None], not an exception, when the peer closes
    before [n] bytes have arrived.  The server's and the client's copies of
    the function agree. *)
Theorem receive_exact_exact_or_none (n : Z) (s : socket) :
  0 <= n -> closed s = false ->
  (n <= len (available (rx s)) ->
   exists q',
     let data := firstn (Z.to_nat n) (available (rx s)) in
     PQCServer._receive_exact n s = (Ok (Some data), set_rx q' s)
     /\ len data = n
     /\ available q' = skipn (Z.to_nat n) (available (rx s))
     /\ forall c, client_socket c = Some s ->
          ClassicalClient._receive_exact n c
            = (Ok (Some data), set_client_socket (Some (set_rx q' s)) c)
          /\ PQCClient._receive_exact n c
            = (Ok (Some data), set_client_socket (Some (set_rx q' s)) c))
  /\ (len (available (rx s)) < n -> ends_by_close (rx s) = true ->
      exists s',
        PQCServer._receive_exact n s = (Ok None, s')
        /\ forall c, client_socket c = Some s ->
             ClassicalClient._receive_exact n c
               = (Ok None, set_client_socket (Some s') c)
             /\ PQCClient._receive_exact n c
               = (Ok None, set_client_socket (Some s') c)).
Proof.
  intros Hn Hc. split.
  - intros Hav.
    destruct (@socket_loop_fwd (Z.to_nat n) n [] s Hc) as (q' & Hloop & Hq');
      try (unfold len in *; simpl; lia).
    change (len (@nil byte)) with 0 in *. rewrite Z.sub_0_r in *. simpl in Hloop.
    exists q'. cbv zeta.
    assert (Hs : PQCServer._receive_exact n s
                 = (Ok (Some (firstn (Z.to_nat n) (available (rx s)))), set_rx q' s)).
    { unfold PQCServer._receive_exact, receive_exact. rewrite Hloop. reflexivity. }
    split; [exact Hs|]. split.
    + unfold len in *. rewrite length_firstn. lia.
    + split; [exact Hq'|]. intros c Hcs.
      unfold ClassicalClient._receive_exact, PQCClient._receive_exact.
      rewrite (client_receive_exact_socket _ _ Hcs).
      unfold PQCServer._receive_exact in Hs. rewrite Hs. split; reflexivity.
  - intros Hav Hend.
    destruct (@socket_loop_closed (Z.to_nat n) n [] s Hc) as (s' & Hloop);
      try assumption; try (unfold len in *; simpl; lia).
    exists s'.
    assert (Hs : PQCServer._receive_exact n s = (Ok None, s')).
    { unfold PQCServer._receive_exact, receive_exact. rewrite Hloop. reflexivity. }
    split; [exact Hs|]. intros c Hcs.
    unfold ClassicalClient._receive_exact, PQCClient._receive_exact.
    rewrite (client_receive_exact_socket _ _ Hcs).
    unfold PQCServer._receive_exact in Hs. rewrite Hs. split; reflexivity.
Qed.

Lemma receive_exact_exact_or_none_witness :
  exists s',
    PQCServer._receive_exact 4
      (mkSocket [Chunk [x01]; Chunk [x02; x03]; Chunk [x04; x05; x06]] [] None
                false false false)
    = (Ok (Some [x01; x02; x03; x04]), s').
Proof.
  destruct (@receive_exact_exact_or_none 4
              (mkSocket [Chunk [x01]; Chunk [x02; x03]; Chunk [x04; x05; x06]] [] None
                        false false false) ltac:(lia) eq_refl) as [H _].
  destruct (H ltac:(vm_compute; discriminate)) as (q' & Hr & _).
  eexists. exact Hr.
Defined.

(** ** Stepping through a method *)

Lemma bind_ok_inv {S A B : Type} (m : M S A) (k : A -> M S B) (s s' : S) (b : B) :
  bind m k s = (Ok b, s') ->
  exists a s1, m s = (Ok a, s1) /\ k a s1 = (Ok b, s').
Proof.
  unfold bind. destruct (m s) as [[a|e] s1]; [eauto | discriminate].
Qed.

Lemma lift_ok_inv {S A : Type} (r : res A) (s s' : S) (a : A) :
  lift r s = (Ok a, s') -> r = Ok a /\ s' = s.
Proof. unfold lift. intros H. injection H as -> ->. auto. Qed.

Lemma try_except_none_inv {S A : Type} (m : M S (option A)) (s s' : S) (a : A) :
  try_except m (fun _ => ret None) s = (Ok (Some a), s') ->
  m s = (Ok (Some a), s').
Proof.
  unfold try_except, ret. destruct (m s) as [[r|e] s1]; [auto | discriminate].
Qed.

Lemma try_except_ret_total {S A : Type} (m : M S A) (a : A) (s : S) :
  exists r s', try_except m (fun _ => ret a) s = (Ok r, s').
Proof.
  unfold try_except, ret. destruct (m s) as [[r|e] s1]; eauto.
Qed.

Lemma to_bytes4_inv (n : Z) (b : bytes) :
  to_bytes4 n = Ok b -> b = be32 n /\ 0 <= n < 4294967296.
Proof.
  unfold to_bytes4. destruct (0 <=? n) eqn:H0; destruct (n <? 4294967296) eqn:H1;
    simpl; try discriminate.
  intros H. injection H as <-. apply Z.leb_le in H0. apply Z.ltb_lt in H1. auto.
Qed.

Lemma sendall_inv (data : bytes) (s s' : socket) (u : unit) :
  Socket.sendall data s = (Ok u, s') -> s' = sent data s.
Proof.
  unfold Socket.sendall, sent. destruct (closed s); [discriminate|].
  destruct (tx_credit s) as [[|k]|]; try discriminate;
    intros H; injection H as _ <-; reflexivity.
Qed.

Lemma socket_receive_exact_some (n : Z) (d : bytes) (s s' : socket) :
  receive_exact Socket.recv n s = (Ok (Some d), s') ->
  0 <= n ->
  exists q, s' = set_rx q s /\ len d = n /\ available (rx s) = d ++ available q.
Proof.
  intros H Hn. apply socket_receive_exact_inv in H; [|assumption].
  destruct H as (Hl & Hav & Hs). exists (rx s'). auto.
Qed.

Lemma on_client_socket_inv {A : Type} (m : M socket A) (c c' : client) (r : res A)
      (s : socket) :
  client_socket c = Some s ->
  on_client_socket m c = (r, c') ->
  exists s', m s = (r, s') /\ c' = set_client_socket (Some s') c.
Proof.
  unfold on_client_socket. intros ->. destruct (m s) as [r1 s1].
  intros H. injection H as <- <-. eauto.
Qed.

Lemma client_receive_exact_some (n : Z) (d : bytes) (c c' : client) (s : socket) :
  client_socket c = Some s ->
  receive_exact (fun k => on_client_socket (Socket.recv k)) n c = (Ok (Some d), c') ->
  0 <= n ->
  exists q, c' = set_client_socket (Some (set_rx q s)) c
            /\ len d = n /\ available (rx s) = d ++ available q.
Proof.
  intros Hs H Hn. rewrite (client_receive_exact_socket _ _ Hs) in H.
  destruct (receive_exact Socket.recv n s) as [r s1] eqn:Hr.
  injection H as -> <-.
  apply socket_receive_exact_some in Hr; [|assumption].
  destruct Hr as (q & -> & ? & ?). eauto.
Qed.

Lemma client_sendall_inv (data : bytes) (c c' : client) (s : socket) (u : unit) :
  client_socket c = Some s ->
  on_client_socket (Socket.sendall data) c = (Ok u, c') ->
  c' = set_client_socket (Some (sent data s)) c.
Proof.
  intros Hs H. destruct (on_client_socket_inv _ _ Hs H) as (s' & Hm & ->).
  apply sendall_inv in Hm. subst. reflexivity.
Qed.

(** Frames on the wire determine the payloads a reader extracts. *)
Lemma parsed_frame (a : bytes) (x : bytes) (p : bytes) (ps : list bytes) (rest : bytes) :
  len a < 4294967296 ->
  parsed (frame a ++ x) (p :: ps) rest -> p = a /\ parsed x ps rest.
Proof.
  intros Ha H. remember (frame a ++ x) as w eqn:Hw.
  remember (p :: ps) as pl eqn:Hpl.
  destruct H as [|l p' r ps' rest' Hl Hp Hne Hps]; [discriminate|].
  injection Hpl as -> ->.
  apply frame_split in Hw; try assumption.
  destruct Hw as [-> ->]. auto.
Qed.

(** A zero length field, or the end of the stream, yields no payload. *)
Lemma parsed_no_payload (x : bytes) (p : bytes) (ps : list bytes) (rest : bytes) :
  parsed x (p :: ps) rest -> x <> [] /\ forall y, x <> be32 0 ++ y.
Proof.
  intros H. remember (p :: ps) as pl eqn:Hpl.
  destruct H as [|l p' r ps' rest' Hl Hp Hne Hps]; [discriminate|].
  injection Hpl as -> ->. split.
  - destruct l; [discriminate Hl | discriminate].
  - intros y Heq. apply app_eq_len in Heq; [|rewrite len_be32; exact Hl].
    destruct Heq as [-> _]. change (from_bytes (be32 0)) with 0 in Hp.
    destruct p; [congruence | discriminate Hp].
Qed.

(** One step of a successful run held in hypothesis [H]. *)
Ltac step_bind H :=
  let a := fresh "a" in
  let s1 := fresh "s" in
  let Hs := fresh "Hstep" in
  apply bind_ok_inv in H; destruct H as (a & s1 & Hs & H); cbv beta in H.

Ltac step_socket :=
  match goal with
  | H : lift _ _ = (Ok _, _) |- _ =>
      apply lift_ok_inv in H; let E := fresh "E" in destruct H as [E ->]
  | H : to_bytes4 _ = Ok _ |- _ =>
      apply to_bytes4_inv in H; destruct H as [-> ?]
  | H : Socket.sendall _ _ = (Ok _, _) |- _ =>
      apply sendall_inv in H; subst
  | H : PQCServer._receive_exact _ _ = (Ok (Some _), _) |- _ =>
      apply socket_receive_exact_some in H;
      [ let q := fresh "q" in
        destruct H as (q & -> & ? & ?) | try apply from_bytes_nonneg; try lia ]
  | H : ClassicalServer._receive_exact _ _ = (Ok (Some _), _) |- _ =>
      apply socket_receive_exact_some in H;
      [ let q := fresh "q" in
        destruct H as (q & -> & ? & ?) | try apply from_bytes_nonneg; try lia ]
  | H : ret _ _ = (Ok _, _) |- _ =>
      cbv [ret] in H; first [discriminate H | injection H; intros; subst; clear H]
  | H : bind _ _ _ = (Ok _, _) |- _ => step_bind H
  | H : (match ?x with (_, _) => _ end) _ = (Ok _, _) |- _ => destruct x
  | H : (match ?x with Some _ => _ | None => _ end) _ = (Ok _, _) |- _ =>
      destruct x as [[|? ?]|]
  | H : (if negb ?b then _ else _) _ = (Ok _, _) |- _ => destruct b; cbn [negb] in H
  end.

(** Assemble [parsed] from the equations the reads have left. *)
Ltac solve_parsed :=
  repeat match goal with
         | H : available ?x = _ |- context [available ?x] => rewrite H; clear H
         end;
  repeat (apply parsed_cons; [assumption | assumption | discriminate |]);
  apply parsed_nil.

Section ServerHandshakeFacts.
Context {oqs : OQS}.

(** Everything a successful server-side key exchange has done. *)
Lemma server_pqc_key_exchange_inv (rnd : oqs_entropy) (s s' : socket) (k : bytes) :
  PQCServer._perform_pqc_key_exchange rnd s = (Ok (Some k), s') ->
  exists pkS skS pkC kpk sg ct ss csig,
    sig_generate_keypair rnd = Ok (pkS, skS)
    /\ parsed (available (rx s)) [pkC; kpk; sg] (available (rx s'))
    /\ sig_verify kpk sg pkC = Ok true
    /\ kem_encap_secret rnd kpk = Ok (ct, ss)
    /\ sig_sign rnd skS ct = Ok csig
    /\ tx s' = tx s ++ frame pkS ++ frame ct ++ frame csig
    /\ len pkS < 4294967296 /\ len ct < 4294967296 /\ len csig < 4294967296
    /\ k = firstn 32 ss.
Proof.
  unfold PQCServer._perform_pqc_key_exchange. intros H.
  apply try_except_none_inv in H.
  repeat step_socket. cbn [rx tx sent set_rx] in *.
  do 8 eexists. split; [eassumption|]. split; [solve_parsed|].
  split; [eassumption|]. split; [eassumption|]. split; [eassumption|].
  split; [unfold frame; rewrite <- !app_assoc; reflexivity|].
  repeat split; lia.
Qed.
End ServerHandshakeFacts.

(** Find the socket of client [c] and pass it, with the proof, to [tac]. *)
Ltac with_socket c tac :=
  match goal with
  | Hs : client_socket c = Some ?s |- _ => tac s Hs
  | _ => let so := eval cbn [client_socket set_client_socket] in (client_socket c) in
         match so with
         | Some ?s => tac s (@eq_refl (option socket) (Some s))
         end
  end.

Ltac step_recv_client H c :=
  with_socket c ltac:(fun s Hs =>
    apply (@client_receive_exact_some _ _ c _ s Hs) in H;
    [ let q := fresh "q" in destruct H as (q & -> & ? & ?)
    | try apply from_bytes_nonneg; try lia ]).

Ltac step_client :=
  match goal with
  | H : lift _ _ = (Ok _, _) |- _ =>
      apply lift_ok_inv in H; let E := fresh "E" in destruct H as [E ->]
  | H : to_bytes4 _ = Ok _ |- _ =>
      apply to_bytes4_inv in H; destruct H as [-> ?]
  | H : on_client_socket (Socket.sendall _) ?c = (Ok _, _) |- _ =>
      with_socket c ltac:(fun s Hs =>
        apply (@client_sendall_inv _ c _ s _ Hs) in H; subst)
  | H : ClassicalClient._receive_exact _ ?c = (Ok (Some _), _) |- _ =>
      step_recv_client H c
  | H : PQCClient._receive_exact _ ?c = (Ok (Some _), _) |- _ =>
      step_recv_client H c
  | H : ret _ _ = (Ok _, _) |- _ =>
      cbv [ret] in H; first [discriminate H | injection H; intros; subst; clear H]
  | H : bind _ _ _ = (Ok _, _) |- _ => step_bind H
  | H : (match ?x with (_, _) => _ end) _ = (Ok _, _) |- _ => destruct x
  | H : (match ?x with Some _ => _ | None => _ end) _ = (Ok _, _) |- _ =>
      destruct x as [[|? ?]|]
  | H : (if negb ?b then _ else _) _ = (Ok _, _) |- _ => destruct b; cbn [negb] in H
  end.

Ltac simpl_states :=
  cbn [rx tx sent set_rx client_socket set_client_socket set_aesgcm set_connected
       host port aesgcm connected] in *.

Section ClassicalHandshakeFacts.
Context {ecdh : ECDH}.

(** Everything a successful classical client key exchange has done. *)
Lemma classical_client_key_exchange_inv
      (rnd : ec_entropy) (c c' : client) (s : socket) (k : bytes) :
  client_socket c = Some s ->
  ClassicalClient._perform_key_exchange rnd c = (Ok (Some k), c') ->
  exists s' pubS pk sk pubC ss,
    c' = set_client_socket (Some s') c
    /\ parsed (available (rx s)) [pubS] (available (rx s'))
    /\ load_pem_public_key pubS = Ok pk
    /\ generate_private_key rnd = Ok sk
    /\ public_bytes (public_key sk) = Ok pubC
    /\ len pubC < 4294967296
    /\ tx s' = tx s ++ frame pubC
    /\ exchange sk pk = Ok ss
    /\ hkdf_sha256 32 None (bytes_of_string "handshake data") ss = Ok k.
Proof.
  unfold ClassicalClient._perform_key_exchange. intros Hs H.
  apply try_except_none_inv in H.
  repeat step_client. simpl_states.
  eexists. do 5 eexists. split; [reflexivity|]. simpl_states.
  split; [solve_parsed|].
  repeat (split; [eassumption|]).
  split; [lia|].
  split; [unfold frame; rewrite <- !app_assoc; reflexivity|].
  split; eassumption.
Qed.

(** The server role of section 4.2 of the specification, likewise. *)
Lemma classical_server_key_exchange_inv
      (rnd : ec_entropy) (s s' : socket) (k : bytes) :
  ClassicalServer._perform_key_exchange rnd s = (Ok (Some k), s') ->
  exists sk pubS pubC pk ss,
    generate_private_key rnd = Ok sk
    /\ public_bytes (public_key sk) = Ok pubS
    /\ len pubS < 4294967296
    /\ tx s' = tx s ++ frame pubS
    /\ parsed (available (rx s)) [pubC] (available (rx s'))
    /\ load_pem_public_key pubC = Ok pk
    /\ exchange sk pk = Ok ss
    /\ hkdf_sha256 32 None (bytes_of_string "handshake data") ss = Ok k.
Proof.
  unfold ClassicalServer._perform_key_exchange. intros H.
  apply try_except_none_inv in H.
  repeat step_socket. simpl_states.
  do 5 eexists.
  repeat (split; [eassumption|]).
  split; [lia|].
  split; [unfold frame; rewrite <- !app_assoc; reflexivity|].
  split; [solve_parsed|].
  repeat (split; [eassumption|]). eassumption.
Qed.
End ClassicalHandshakeFacts.

Section ClientHandshakeFacts.
Context {oqs : OQS}.

(** Everything a successful post-quantum client key exchange has done. *)
Lemma client_pqc_key_exchange_inv
      (rnd : oqs_entropy) (c c' : client) (s : socket) (k : bytes) :
  client_socket c = Some s ->
  PQCClient._perform_pqc_key_exchange rnd c = (Ok (Some k), c') ->
  exists s' pkC skC pkS kpk kemsk ksig ct csig ss,
    c' = set_client_socket (Some s') c
    /\ sig_generate_keypair rnd = Ok (pkC, skC)
    /\ kem_generate_keypair rnd = Ok (kpk, kemsk)
    /\ sig_sign rnd skC kpk = Ok ksig
    /\ parsed (available (rx s)) [pkS; ct; csig] (available (rx s'))
    /\ tx s' = tx s ++ frame pkC ++ frame kpk ++ frame ksig
    /\ len pkC < 4294967296 /\ len kpk < 4294967296 /\ len ksig < 4294967296
    /\ sig_verify ct csig pkS = Ok true
    /\ kem_decap_secret kemsk ct = Ok ss
    /\ k = firstn 32 ss.
Proof.
  unfold PQCClient._perform_pqc_key_exchange. intros Hs H.
  apply try_except_none_inv in H.
  repeat step_client. simpl_states.
  eexists. do 9 eexists. split; [reflexivity|]. simpl_states.
  repeat (split; [eassumption|]).
  split; [solve_parsed|].
  split; [unfold frame; rewrite <- !app_assoc; reflexivity|].
  repeat (split; [lia|]).
  repeat (split; [eassumption|]). reflexivity.
Qed.
End ClientHandshakeFacts.

Lemma len_firstn_32 (ss : bytes) : len ss = 32 -> len (firstn 32 ss) = 32.
Proof. unfold len. intros H. rewrite length_firstn. lia. Qed.

Section KeyAgreement.
Context {ecdh : ECDH} {oqs : OQS}.

(** C1. In a handshake that both peers complete, each receiving exactly the
    bytes the other has sent on a fresh connection, the key derived by the
    client is the key derived by the server, and it is 32 bytes long: in the
    classical mode when both sides of the ECDH exchange compute the same
    shared secret and HKDF returns the length asked for, in the post-quantum
    mode when decapsulation returns the encapsulated 32-byte secret. *)
Theorem handshake_keys_agree :
  (forall (rc rs : ec_entropy) (c c' : client) (sc sc' ss ss' : socket) (kc ks : bytes),
      client_socket c = Some sc -> client_socket c' = Some sc' ->
      tx sc = [] -> tx ss = [] ->
      ClassicalClient._perform_key_exchange rc c = (Ok (Some kc), c') ->
      ClassicalServer._perform_key_exchange rs ss = (Ok (Some ks), ss') ->
      available (rx sc) = tx ss' ->
      available (rx ss) = tx sc' ->
      (forall skc sks bS bC pS pC,
          generate_private_key rc = Ok skc -> generate_private_key rs = Ok sks ->
          public_bytes (public_key sks) = Ok bS -> load_pem_public_key bS = Ok pS ->
          public_bytes (public_key skc) = Ok bC -> load_pem_public_key bC = Ok pC ->
          exchange skc pS = exchange sks pC) ->
      (forall salt info km out,
          hkdf_sha256 32 salt info km = Ok out -> len out = 32) ->
      kc = ks /\ len kc = 32)
  /\
  (forall (rc rs : oqs_entropy) (c c' : client) (sc sc' ss ss' : socket) (kc ks : bytes),
      client_socket c = Some sc -> client_socket c' = Some sc' ->
      tx sc = [] -> tx ss = [] ->
      PQCClient._perform_pqc_key_exchange rc c = (Ok (Some kc), c') ->
      PQCServer._perform_pqc_key_exchange rs ss = (Ok (Some ks), ss') ->
      available (rx sc) = tx ss' ->
      available (rx ss) = tx sc' ->
      (forall pk sk ct secret,
          kem_generate_keypair rc = Ok (pk, sk) ->
          kem_encap_secret rs pk = Ok (ct, secret) ->
          kem_decap_secret sk ct = Ok secret /\ len secret = 32) ->
      kc = ks /\ len kc = 32).
Proof.
  split.
  - intros rc rs c c' sc sc' ss ss' kc ks Hsc Hsc' Htc Hts Hc Hs Hrc Hrs Hdh Hkdf.
    destruct (classical_client_key_exchange_inv _ _ Hsc Hc)
      as (s1 & pubS & pk & sk & pubC & secC & -> & Hpc & Hload & Hgen & Hpub & Hlen
          & Htx & Hex & Hk).
    cbn [client_socket set_client_socket] in Hsc'. injection Hsc' as ->.
    destruct (classical_server_key_exchange_inv _ _ Hs)
      as (skS & pubS' & pubC' & pkC & secS & HgenS & HpubS & HlenS & HtxS & HpS
          & HloadS & HexS & HkS).
    rewrite Hrc, HtxS, Hts in Hpc. rewrite Hrs, Htx, Htc in HpS. cbn [app] in Hpc, HpS.
    rewrite <- (app_nil_r (frame pubS')) in Hpc.
    rewrite <- (app_nil_r (frame pubC)) in HpS.
    apply parsed_frame in Hpc; [|assumption]. destruct Hpc as [-> _].
    apply parsed_frame in HpS; [|assumption]. destruct HpS as [-> _].
    pose proof (Hdh _ _ _ _ _ _ Hgen HgenS HpubS Hload Hpub HloadS) as Heq.
    rewrite Hex, HexS in Heq. injection Heq as ->.
    rewrite Hk in HkS. injection HkS as ->.
    split; [reflexivity | eapply Hkdf; eassumption].
  - intros rc rs c c' sc sc' ss ss' kc ks Hsc Hsc' Htc Hts Hc Hs Hrc Hrs Hkem.
    destruct (client_pqc_key_exchange_inv _ _ Hsc Hc)
      as (s1 & pkC & skC & pkS & kpk & kemsk & ksig & ct & csig & secC & -> & HsigC
          & HkemC & HsignC & Hpc & Htx & HlC & Hlk & Hls & Hver & Hdec & ->).
    cbn [client_socket set_client_socket] in Hsc'. injection Hsc' as ->.
    destruct (server_pqc_key_exchange_inv _ _ Hs)
      as (pkS' & skS & pkC' & kpk' & sg & ct' & secS & csig' & HsigS & HpS & HverS
          & Henc & HsignS & HtxS & HlS & Hlct & Hlcs & ->).
    rewrite Hrc, HtxS, Hts in Hpc. rewrite Hrs, Htx, Htc in HpS. cbn [app] in Hpc, HpS.
    apply parsed_frame in HpS; [|assumption]. destruct HpS as [-> HpS].
    apply parsed_frame in HpS; [|assumption]. destruct HpS as [-> _].
    apply parsed_frame in Hpc; [|assumption]. destruct Hpc as [-> Hpc].
    apply parsed_frame in Hpc; [|assumption]. destruct Hpc as [-> _].
    destruct (Hkem _ _ _ _ HkemC Henc) as [Hd Hl32].
    rewrite Hdec in Hd. injection Hd as ->.
    split; [reflexivity | apply len_firstn_32; assumption].
Qed.
End KeyAgreement.

Lemma handshake_keys_agree_witness :
  (Demo.key_of (fst Demo.classical_client_run)
   = Demo.key_of (fst Demo.classical_server_run)
   /\ len (Demo.key_of (fst Demo.classical_client_run)) = 32)
  /\ (Demo.key_of (fst Demo.pqc_client_run) = Demo.key_of (fst Demo.pqc_server_run)
      /\ len (Demo.key_of (fst Demo.pqc_client_run)) = 32).
Proof.
  split.
  - apply (proj1 (@handshake_keys_agree Toy.toy_ecdh Toy.toy_oqs) 5 9
             (Demo.client_with Demo.classical_server_bytes)
             (snd Demo.classical_client_run)
             (Demo.socket_with Demo.classical_server_bytes)
             (match client_socket (snd Demo.classical_client_run) with
              | Some s => s
              | None => Demo.socket_with []
              end)
             (Demo.socket_with Demo.classical_client_bytes)
             (snd Demo.classical_server_run)).
    + reflexivity.
    + vm_compute. reflexivity.
    + reflexivity.
    + reflexivity.
    + vm_compute. reflexivity.
    + vm_compute. reflexivity.
    + vm_compute. reflexivity.
    + vm_compute. reflexivity.
    + intros skc sks bS bC pS pC H1 H2 H3 H4 H5 H6.
      cbn in H1, H2. injection H1 as <-. injection H2 as <-.
      vm_compute in H3. injection H3 as <-.
      vm_compute in H5. injection H5 as <-.
      vm_compute in H4. injection H4 as <-.
      vm_compute in H6. injection H6 as <-.
      vm_compute. reflexivity.
    + intros salt info km out H. cbn in H. injection H as <-. reflexivity.
  - apply (proj2 (@handshake_keys_agree Toy.toy_ecdh Toy.toy_oqs) 3 11
             (Demo.client_with Demo.pqc_server_bytes)
             (snd Demo.pqc_client_run)
             (Demo.socket_with Demo.pqc_server_bytes)
             (match client_socket (snd Demo.pqc_client_run) with
              | Some s => s
              | None => Demo.socket_with []
              end)
             (Demo.socket_with Demo.pqc_client_bytes)
             (snd Demo.pqc_server_run)).
    + reflexivity.
    + vm_compute. reflexivity.
    + reflexivity.
    + reflexivity.
    + vm_compute. reflexivity.
    + vm_compute. reflexivity.
    + vm_compute. reflexivity.
    + vm_compute. reflexivity.
    + intros pk sk ct secret H1 H2.
      cbn in H1. injection H1 as <- <-.
      vm_compute in H2. injection H2 as <- <-.
      vm_compute. split; reflexivity.
Defined.

(** ** Teardown and connect *)

Lemma classical_disconnect_cleared (c : client) :
  ClassicalClient.disconnect c = (Ok tt, cleared c).
Proof.
  unfold ClassicalClient.disconnect, bind, modify, gets, try_except, ret,
    on_client_socket, Socket.close, cleared.
  destruct c as [h p [s|] a b]; cbn; [|reflexivity].
  destruct (closed s); [reflexivity|]. destruct (close_fails s); reflexivity.
Qed.

Lemma pqc_disconnect_cleared (c : client) :
  PQCClient.disconnect c = (Ok tt, cleared c).
Proof.
  unfold PQCClient.disconnect, bind, modify, gets, try_except, ret,
    on_client_socket, Socket.close, cleared.
  destruct c as [h p [s|] a b]; cbn; [|reflexivity].
  destruct (closed s); [reflexivity|]. destruct (close_fails s); reflexivity.
Qed.

(** A client whose socket refuses to close. *)
Example disconnect_swallows_close_error :
  ClassicalClient.disconnect
    (mkClient "localhost" 12345
              (Some (mkSocket [] [] None false true false)) (Some [x2a]) true)
  = (Ok tt, mkClient "localhost" 12345 None None false).
Proof. reflexivity. Qed.

(** C9. [disconnect] never raises, also when closing the socket raises, and
    always leaves [connected = False], [client_socket = None] and
    [aesgcm = None]; a second call, or a call on an object that was never
    connected, returns normally with the same state.  Both client classes. *)
Theorem disconnect_total_idempotent (c : client) (h : string) (p : Z) :
  (ClassicalClient.disconnect c = (Ok tt, cleared c)
   /\ ClassicalClient.disconnect (cleared c) = (Ok tt, cleared c)
   /\ ClassicalClient.disconnect (ClassicalClient.init h p)
      = (Ok tt, ClassicalClient.init h p))
  /\ (PQCClient.disconnect c = (Ok tt, cleared c)
      /\ PQCClient.disconnect (cleared c) = (Ok tt, cleared c)
      /\ PQCClient.disconnect (PQCClient.init h p) = (Ok tt, PQCClient.init h p))
  /\ connected (cleared c) = false
  /\ client_socket (cleared c) = None
  /\ aesgcm (cleared c) = None.
Proof.
  repeat split; try reflexivity.
  - apply classical_disconnect_cleared.
  - apply pqc_disconnect_cleared.
Qed.

Section ConnectFacts.
Context {ecdh : ECDH} {oqs : OQS}.

(** [connect] in terms of the key exchange it runs. *)
Lemma classical_connect_cases (net : network) (rnd : ec_entropy) (c : client) :
  ClassicalClient.connect net rnd c =
  if net_refuses net then (Ok false, cleared c)
  else match ClassicalClient._perform_key_exchange rnd
               (set_client_socket (Some (socket_socket net)) c) with
       | (Ok (Some (b :: k)), c2) =>
           match AESGCM (b :: k) with
           | Ok cipher => (Ok true, set_connected true (set_aesgcm (Some cipher) c2))
           | Exc _ => (Ok false, cleared c2)
           end
       | (_, c2) => (Ok false, cleared c2)
       end.
Proof.
  unfold ClassicalClient.connect, try_except.
  unfold bind at 1. unfold modify at 1.
  unfold bind at 1. unfold on_client_socket at 1, Socket.connect.
  cbn [client_socket set_client_socket socket_socket refuses].
  destruct (net_refuses net).
  - unfold bind. rewrite classical_disconnect_cleared. reflexivity.
  - replace (set_client_socket (Some (socket_socket net))
               (set_client_socket (Some (socket_socket net)) c))
      with (set_client_socket (Some (socket_socket net)) c) by reflexivity.
    unfold bind at 1.
    destruct (ClassicalClient._perform_key_exchange rnd
                (set_client_socket (Some (socket_socket net)) c))
      as [[[[|b k]|]|e] c2];
      try (unfold bind; rewrite classical_disconnect_cleared; reflexivity).
    unfold bind at 1, lift.
    destruct (AESGCM (b :: k)) as [cipher|e].
    + reflexivity.
    + unfold bind. rewrite classical_disconnect_cleared. reflexivity.
Qed.

Lemma pqc_connect_cases (net : network) (rnd : oqs_entropy) (c : client) :
  PQCClient.connect net rnd c =
  if net_refuses net then (Ok false, cleared c)
  else match PQCClient._perform_pqc_key_exchange rnd
               (set_client_socket (Some (socket_socket net)) c) with
       | (Ok (Some (b :: k)), c2) =>
           match AESGCM (b :: k) with
           | Ok cipher => (Ok true, set_connected true (set_aesgcm (Some cipher) c2))
           | Exc _ => (Ok false, cleared c2)
           end
       | (_, c2) => (Ok false, cleared c2)
       end.
Proof.
  unfold PQCClient.connect, try_except.
  unfold bind at 1. unfold modify at 1.
  unfold bind at 1. unfold on_client_socket at 1, Socket.connect.
  cbn [client_socket set_client_socket socket_socket refuses].
  destruct (net_refuses net).
  - unfold bind. rewrite pqc_disconnect_cleared. reflexivity.
  - replace (set_client_socket (Some (socket_socket net))
               (set_client_socket (Some (socket_socket net)) c))
      with (set_client_socket (Some (socket_socket net)) c) by reflexivity.
    unfold bind at 1.
    destruct (PQCClient._perform_pqc_key_exchange rnd
                (set_client_socket (Some (socket_socket net)) c))
      as [[[[|b k]|]|e] c2];
      try (unfold bind; rewrite pqc_disconnect_cleared; reflexivity).
    unfold bind at 1, lift.
    destruct (AESGCM (b :: k)) as [cipher|e].
    + reflexivity.
    + unfold bind. rewrite pqc_disconnect_cleared. reflexivity.
Qed.
End ConnectFacts.

Section FailClosed.
Context {ecdh : ECDH} {oqs : OQS}.

Lemma server_pqc_key_exchange_total (rnd : oqs_entropy) (s : socket) :
  exists r s', PQCServer._perform_pqc_key_exchange rnd s = (Ok r, s').
Proof. apply try_except_ret_total. Qed.

Lemma client_pqc_key_exchange_total (rnd : oqs_entropy) (c : client) :
  exists r c', PQCClient._perform_pqc_key_exchange rnd c = (Ok r, c').
Proof. apply try_except_ret_total. Qed.

Lemma classical_client_key_exchange_total (rnd : ec_entropy) (c : client) :
  exists r c', ClassicalClient._perform_key_exchange rnd c = (Ok r, c').
Proof. apply try_except_ret_total. Qed.

(** No key without a verified signature, server side. *)
Lemma server_unverified_no_key
      (rs : oqs_entropy) (s : socket) (pkC kpk sg rest : bytes) :
  len pkC < 4294967296 -> len kpk < 4294967296 -> len sg < 4294967296 ->
  available (rx s) = frame pkC ++ frame kpk ++ frame sg ++ rest ->
  sig_verify kpk sg pkC <> Ok true ->
  fst (PQCServer._perform_pqc_key_exchange rs s) = Ok None.
Proof.
  intros H1 H2 H3 Hav Hver.
  destruct (server_pqc_key_exchange_total rs s) as ([k|] & s' & Hrun);
    rewrite Hrun; [exfalso | reflexivity].
  destruct (server_pqc_key_exchange_inv _ _ Hrun)
    as (pkS & skS & pkC' & kpk' & sg' & ct & secret & csig & _ & Hp & Hv & _).
  rewrite Hav in Hp.
  apply parsed_frame in Hp; [|assumption]. destruct Hp as [-> Hp].
  apply parsed_frame in Hp; [|assumption]. destruct Hp as [-> Hp].
  apply parsed_frame in Hp; [|assumption]. destruct Hp as [-> Hp].
  contradiction.
Qed.

(** No key without a verified signature, client side. *)
Lemma client_unverified_no_key
      (rc : oqs_entropy) (c : client) (s : socket) (pkS ct csig rest : bytes) :
  client_socket c = Some s ->
  len pkS < 4294967296 -> len ct < 4294967296 -> len csig < 4294967296 ->
  available (rx s) = frame pkS ++ frame ct ++ frame csig ++ rest ->
  sig_verify ct csig pkS <> Ok true ->
  fst (PQCClient._perform_pqc_key_exchange rc c) = Ok None.
Proof.
  intros Hs H1 H2 H3 Hav Hver.
  destruct (client_pqc_key_exchange_total rc c) as ([k|] & c' & Hrun);
    rewrite Hrun; [exfalso | reflexivity].
  destruct (client_pqc_key_exchange_inv _ _ Hs Hrun)
    as (s' & pkC & skC & pkS' & kpk & kemsk & ksig & ct' & csig' & secret & _ & _ & _
        & _ & Hp & _ & _ & _ & _ & Hv & _).
  rewrite Hav in Hp.
  apply parsed_frame in Hp; [|assumption]. destruct Hp as [-> Hp].
  apply parsed_frame in Hp; [|assumption]. destruct Hp as [-> Hp].
  apply parsed_frame in Hp; [|assumption]. destruct Hp as [-> Hp].
  contradiction.
Qed.

(** C2. In the post-quantum handshake a signature that does not verify
    yields no key and no channel.  Server: when the stream delivers the
    client's signing key, KEM public key and signature and [verify] does not
    return True on them, [_perform_pqc_key_exchange] returns [None].
    Client: when the stream delivers the server's signing key, ciphertext and
    signature and [verify] does not return True on them,
    [_perform_pqc_key_exchange] returns [None], [connect] returns [False] and
    the client is left with [connected = False] and no cipher. *)
Theorem signature_failure_aborts :
  (forall (rs : oqs_entropy) (s : socket) (pkC kpk sg rest : bytes),
      len pkC < 4294967296 -> len kpk < 4294967296 -> len sg < 4294967296 ->
      available (rx s) = frame pkC ++ frame kpk ++ frame sg ++ rest ->
      sig_verify kpk sg pkC <> Ok true ->
      fst (PQCServer._perform_pqc_key_exchange rs s) = Ok None)
  /\
  (forall (rc : oqs_entropy) (net : network) (c : client) (pkS ct csig rest : bytes),
      len pkS < 4294967296 -> len ct < 4294967296 -> len csig < 4294967296 ->
      available (net_incoming net) = frame pkS ++ frame ct ++ frame csig ++ rest ->
      sig_verify ct csig pkS <> Ok true ->
      fst (PQCClient._perform_pqc_key_exchange rc
             (set_client_socket (Some (socket_socket net)) c)) = Ok None
      /\ exists c',
           PQCClient.connect net rc c = (Ok false, c')
           /\ connected c' = false /\ aesgcm c' = None).
Proof.
  split.
  - intros rs s pkC kpk sg rest H1 H2 H3 Hav Hver.
    exact (server_unverified_no_key rs s H1 H2 H3 Hav Hver).
  - intros rc net c pkS ct csig rest H1 H2 H3 Hav Hver.
    assert (Hkex : fst (PQCClient._perform_pqc_key_exchange rc
                          (set_client_socket (Some (socket_socket net)) c)) = Ok None).
    { exact (client_unverified_no_key rc
               (set_client_socket (Some (socket_socket net)) c)
               (s := socket_socket net) eq_refl H1 H2 H3 Hav Hver). }
    split; [exact Hkex|].
    rewrite pqc_connect_cases.
    destruct (net_refuses net); [exists (cleared c); auto|].
    destruct (PQCClient._perform_pqc_key_exchange rc
                (set_client_socket (Some (socket_socket net)) c)) as [r c2].
    cbn [fst] in Hkex. subst r. exists (cleared c2). auto.
Qed.
End FailClosed.

Lemma signature_failure_aborts_witness :
  fst (PQCServer._perform_pqc_key_exchange (oqs := Toy.toy_oqs) 11
         (Demo.socket_with (frame [x0a] ++ frame [x03; x04] ++ frame [x00] ++ [])))
  = Ok None
  /\ fst (PQCClient._perform_pqc_key_exchange (oqs := Toy.toy_oqs) 3
            (set_client_socket
               (Some (socket_socket
                        (mkNetwork false
                           [Chunk (frame [x12] ++ frame [x01; x02] ++ frame [x00] ++ [])]
                           None false)))
               (PQCClient.init "127.0.0.1" 12346)))
     = Ok None.
Proof.
  split.
  - apply (proj1 (@signature_failure_aborts Toy.toy_oqs) 11
             (Demo.socket_with (frame [x0a] ++ frame [x03; x04] ++ frame [x00] ++ []))
             [x0a] [x03; x04] [x00] []).
    + reflexivity.
    + reflexivity.
    + reflexivity.
    + reflexivity.
    + vm_compute. discriminate.
  - apply (proj2 (@signature_failure_aborts Toy.toy_oqs) 3
             (mkNetwork false
                [Chunk (frame [x12] ++ frame [x01; x02] ++ frame [x00] ++ [])]
                None false)
             (PQCClient.init "127.0.0.1" 12346)
             [x12] [x01; x02] [x00] []).
    + reflexivity.
    + reflexivity.
    + reflexivity.
    + reflexivity.
    + vm_compute. discriminate.
Defined.

Section ConnectFailure.
Context {ecdh : ECDH} {oqs : OQS}.

(** A port without listener. *)
Lemma classical_connect_refused (net : network) (rnd : ec_entropy) (c : client) :
  net_refuses net = true ->
  ClassicalClient.connect net rnd c = (Ok false, cleared c).
Proof. intros H. rewrite classical_connect_cases, H. reflexivity. Qed.

Lemma pqc_connect_refused (net : network) (rnd : oqs_entropy) (c : client) :
  net_refuses net = true ->
  PQCClient.connect net rnd c = (Ok false, cleared c).
Proof. intros H. rewrite pqc_connect_cases, H. reflexivity. Qed.

Lemma AESGCM_ok (k cipher : bytes) : AESGCM k = Ok cipher -> cipher = k.
Proof.
  unfold AESGCM.
  destruct ((len k =? 16) || (len k =? 24) || (len k =? 32)); [|discriminate].
  intros H. injection H as <-. reflexivity.
Qed.

(** C7. [connect] never raises.  When it returns [False] the client is left
    with [connected = False], [aesgcm = None] and no socket.  It returns
    [True] only when every stage has succeeded: the connection was accepted,
    the frames were read in full, the peer's key was deserialized (classical)
    or its signature verified (post-quantum) and the shared secret was
    computed; so a failure at any stage makes it return [False].  Both client
    classes. *)
Theorem connect_failure_leaves_no_channel
        (net : network) (rcl : ec_entropy) (rpq : oqs_entropy) (c : client) :
  (exists b c',
      ClassicalClient.connect net rcl c = (Ok b, c')
      /\ (net_refuses net = true -> b = false)
      /\ (b = false ->
          connected c' = false /\ aesgcm c' = None /\ client_socket c' = None)
      /\ (b = true ->
          net_refuses net = false
          /\ exists pubS pk sk secret key rest,
               parsed (available (net_incoming net)) [pubS] rest
               /\ load_pem_public_key pubS = Ok pk
               /\ generate_private_key rcl = Ok sk
               /\ exchange sk pk = Ok secret
               /\ hkdf_sha256 32 None (bytes_of_string "handshake data") secret = Ok key
               /\ aesgcm c' = Some key /\ connected c' = true))
  /\
  (exists b c',
      PQCClient.connect net rpq c = (Ok b, c')
      /\ (net_refuses net = true -> b = false)
      /\ (b = false ->
          connected c' = false /\ aesgcm c' = None /\ client_socket c' = None)
      /\ (b = true ->
          net_refuses net = false
          /\ exists pkS ct csig kpk kemsk secret rest,
               parsed (available (net_incoming net)) [pkS; ct; csig] rest
               /\ sig_verify ct csig pkS = Ok true
               /\ kem_generate_keypair rpq = Ok (kpk, kemsk)
               /\ kem_decap_secret kemsk ct = Ok secret
               /\ aesgcm c' = Some (firstn 32 secret) /\ connected c' = true)).
Proof.
  split.
  - rewrite classical_connect_cases.
    destruct (net_refuses net) eqn:Href.
    { exists false, (cleared c). repeat split; try reflexivity; discriminate. }
    destruct (ClassicalClient._perform_key_exchange rcl
                (set_client_socket (Some (socket_socket net)) c))
      as [[[[|b k]|]|e] c2] eqn:Hrun;
      try (exists false, (cleared c2); repeat split; try reflexivity; discriminate).
    destruct (AESGCM (b :: k)) as [cipher|e] eqn:Hc;
      [|exists false, (cleared c2); repeat split; try reflexivity; discriminate].
    apply AESGCM_ok in Hc. subst cipher.
    exists true, (set_connected true (set_aesgcm (Some (b :: k)) c2)).
    split; [reflexivity|]. split; [discriminate|]. split; [discriminate|].
    intros _. split; [reflexivity|].
    assert (Hs : client_socket (set_client_socket (Some (socket_socket net)) c)
                 = Some (socket_socket net)) by reflexivity.
    destruct (classical_client_key_exchange_inv _ _ Hs Hrun)
      as (s' & pubS & pk & sk & pubC & secret & -> & Hp & Hload & Hgen & _ & _ & _
          & Hex & Hk).
    exists pubS, pk, sk, secret, (b :: k), (available (rx s')).
    repeat split; assumption || reflexivity.
  - rewrite pqc_connect_cases.
    destruct (net_refuses net) eqn:Href.
    { exists false, (cleared c). repeat split; try reflexivity; discriminate. }
    destruct (PQCClient._perform_pqc_key_exchange rpq
                (set_client_socket (Some (socket_socket net)) c))
      as [[[[|b k]|]|e] c2] eqn:Hrun;
      try (exists false, (cleared c2); repeat split; try reflexivity; discriminate).
    destruct (AESGCM (b :: k)) as [cipher|e] eqn:Hc;
      [|exists false, (cleared c2); repeat split; try reflexivity; discriminate].
    apply AESGCM_ok in Hc. subst cipher.
    exists true, (set_connected true (set_aesgcm (Some (b :: k)) c2)).
    split; [reflexivity|]. split; [discriminate|]. split; [discriminate|].
    intros _. split; [reflexivity|].
    assert (Hs : client_socket (set_client_socket (Some (socket_socket net)) c)
                 = Some (socket_socket net)) by reflexivity.
    destruct (client_pqc_key_exchange_inv _ _ Hs Hrun)
      as (s' & pkC & skC & pkS & kpk & kemsk & ksig & ct & csig & secret & -> & _
          & Hkem & _ & Hp & _ & _ & _ & _ & Hver & Hdec & Hk).
    exists pkS, ct, csig, kpk, kemsk, secret, (available (rx s')).
    cbn [aesgcm connected set_connected set_aesgcm set_client_socket]. rewrite Hk.
    repeat split; assumption || reflexivity.
Qed.
End ConnectFailure.

(** ** Zero-length fields *)

Lemma parsed_skip_frames (ps : list bytes) :
  forall (x : bytes) (qs : list bytes) (rest : bytes),
    Forall (fun p => len p < 4294967296) ps ->
    parsed (concat (map frame ps) ++ x) qs rest ->
    (length ps < length qs)%nat ->
    exists q qs', parsed x (q :: qs') rest.
Proof.
  induction ps as [|p ps IH]; intros x qs rest Hsmall Hp Hlen.
  - destruct qs as [|q qs']; [simpl in Hlen; lia|]. eauto.
  - destruct qs as [|q qs']; [simpl in Hlen; lia|].
    inversion Hsmall as [|? ? Hp0 Hps]; subst.
    cbn [map concat] in Hp. rewrite <- app_assoc in Hp.
    apply parsed_frame in Hp; [|assumption]. destruct Hp as [_ Hp].
    apply (IH _ _ _ Hps Hp). simpl in Hlen. lia.
Qed.

(** After [ps], neither the end of the stream nor a zero length field can
    start a payload. *)
Lemma parsed_stops (ps qs : list bytes) (tail rest : bytes) :
  Forall (fun p => len p < 4294967296) ps ->
  (length ps < length qs)%nat ->
  tail = [] \/ (exists y, tail = be32 0 ++ y) ->
  ~ parsed (concat (map frame ps) ++ tail) qs rest.
Proof.
  intros Hsmall Hlen Htail Hp.
  destruct (@parsed_skip_frames ps tail qs rest Hsmall Hp Hlen) as (q & qs' & Hq).
  apply parsed_no_payload in Hq. destruct Hq as [Hne Hz].
  destruct Htail as [->|[y ->]]; [congruence | exact (Hz y eq_refl)].
Qed.

Section ZeroLength.
Context {ecdh : ECDH} {oqs : OQS} {aead : AEAD} {text : PyText}.

Lemma server_receive_message_inv (cipher : bytes) (s s' : socket) (msg : str) :
  PQCServer._receive_encrypted_message cipher s = (Ok (Some msg), s') ->
  exists nonce ct pt,
    parsed (available (rx s)) [nonce; ct] (available (rx s'))
    /\ aesgcm_decrypt cipher nonce ct None = Ok pt
    /\ decode_utf8 pt = Ok msg
    /\ tx s' = tx s.
Proof.
  unfold PQCServer._receive_encrypted_message. intros H.
  apply try_except_none_inv in H.
  repeat step_socket. simpl_states.
  do 3 eexists. split; [solve_parsed|]. repeat split; eassumption || reflexivity.
Qed.

Lemma server_receive_message_total (cipher : bytes) (s : socket) :
  exists r s', PQCServer._receive_encrypted_message cipher s = (Ok r, s').
Proof. apply try_except_ret_total. Qed.

(** C10. [_receive_exact] asked for zero bytes returns the empty byte string
    without reading.  Hence every receiver treats a zero length field like a
    closed stream: after any shorter sequence of well-formed frames, a
    length field of zero and the end of the stream both make the key
    exchange, or the message reception, return [None]; no empty payload is
    ever delivered. *)
Theorem zero_length_field_is_closed_stream :
  (forall s, PQCServer._receive_exact 0 s = (Ok (Some []), s))
  /\ (forall c, ClassicalClient._receive_exact 0 c = (Ok (Some []), c)
                /\ PQCClient._receive_exact 0 c = (Ok (Some []), c))
  /\ (forall (ps : list bytes) (tail : bytes),
         Forall (fun p => len p < 4294967296) ps ->
         tail = [] \/ (exists y, tail = be32 0 ++ y) ->
         (forall rs s,
             (length ps < 3)%nat ->
             available (rx s) = concat (map frame ps) ++ tail ->
             fst (PQCServer._perform_pqc_key_exchange rs s) = Ok None)
         /\ (forall cipher s,
                (length ps < 2)%nat ->
                available (rx s) = concat (map frame ps) ++ tail ->
                fst (PQCServer._receive_encrypted_message cipher s) = Ok None)
         /\ (forall rc c s,
                (length ps < 1)%nat ->
                client_socket c = Some s ->
                available (rx s) = concat (map frame ps) ++ tail ->
                fst (ClassicalClient._perform_key_exchange rc c) = Ok None)
         /\ (forall rc c s,
                (length ps < 3)%nat ->
                client_socket c = Some s ->
                available (rx s) = concat (map frame ps) ++ tail ->
                fst (PQCClient._perform_pqc_key_exchange rc c) = Ok None)).
Proof.
  split; [reflexivity|]. split; [intros c; split; reflexivity|].
  intros ps tail Hsmall Htail. repeat split.
  - intros rs s Hlen Hav.
    destruct (server_pqc_key_exchange_total rs s) as ([k|] & s' & Hrun);
      rewrite Hrun; [exfalso | reflexivity].
    destruct (server_pqc_key_exchange_inv _ _ Hrun)
      as (? & ? & ? & ? & ? & ? & ? & ? & _ & Hp & _).
    rewrite Hav in Hp. refine (@parsed_stops ps _ tail _ Hsmall _ Htail Hp); exact Hlen.
  - intros cipher s Hlen Hav.
    destruct (server_receive_message_total cipher s) as ([m|] & s' & Hrun);
      rewrite Hrun; [exfalso | reflexivity].
    destruct (server_receive_message_inv _ _ Hrun) as (? & ? & ? & Hp & _).
    rewrite Hav in Hp. refine (@parsed_stops ps _ tail _ Hsmall _ Htail Hp); exact Hlen.
  - intros rc c s Hlen Hs Hav.
    destruct (classical_client_key_exchange_total rc c) as ([k|] & c' & Hrun);
      rewrite Hrun; [exfalso | reflexivity].
    destruct (classical_client_key_exchange_inv _ _ Hs Hrun)
      as (? & ? & ? & ? & ? & ? & _ & Hp & _).
    rewrite Hav in Hp. refine (@parsed_stops ps _ tail _ Hsmall _ Htail Hp); exact Hlen.
  - intros rc c s Hlen Hs Hav.
    destruct (client_pqc_key_exchange_total rc c) as ([k|] & c' & Hrun);
      rewrite Hrun; [exfalso | reflexivity].
    destruct (client_pqc_key_exchange_inv _ _ Hs Hrun)
      as (? & ? & ? & ? & ? & ? & ? & ? & ? & ? & _ & _ & _ & _ & Hp & _).
    rewrite Hav in Hp. refine (@parsed_stops ps _ tail _ Hsmall _ Htail Hp); exact Hlen.
Qed.
End ZeroLength.

Lemma zero_length_field_is_closed_stream_witness :
  fst (PQCServer._receive_encrypted_message (aead := Toy.toy_aead) (text := Toy.toy_text)
         [x01] (Demo.socket_with (frame [x02] ++ be32 0 ++ [x09])))
  = Ok None.
Proof.
  destruct (@zero_length_field_is_closed_stream
              Toy.toy_ecdh Toy.toy_oqs Toy.toy_aead Toy.toy_text) as (_ & _ & H).
  destruct (H [[x02]] (be32 0 ++ [x09])) as (_ & Hm & _).
  - constructor; [reflexivity | constructor].
  - right. exists [x09]. reflexivity.
  - apply Hm; [simpl; lia | reflexivity].
Defined.

(** ** The serve loop *)


Section ServeLoop.
Context {oqs : OQS} {aead : AEAD} {text : PyText}.

Lemma serve_body_message (cipher : bytes) (sv : server) (s s' : socket) (msg : str) :
  PQCServer._receive_encrypted_message cipher s = (Ok (Some msg), s') ->
  stdout_print msg = Ok tt ->
  PQCServer.serve_body cipher (sv, s) =
  (Ok (if str_eqb (lower msg) (str_of_string "exit") then Break else Continue),
   (delivered msg sv, s')).
Proof.
  intros Hrecv Hprint. unfold PQCServer.serve_body, try_except, delivered.
  unfold bind at 1. unfold on_conn at 1. cbn [fst snd]. rewrite Hrecv.
  unfold bind at 1, lift at 1. rewrite Hprint.
  unfold bind, on_self, gets, ret. cbn [fst snd set_last_received_message
                                          message_received_event].
  destruct (message_received_event sv);
    destruct (str_eqb (lower msg) (str_of_string "exit")); reflexivity.
Qed.

(** The print of the decrypted text comes first: when it raises, the pass
    ends the loop with nothing stored. *)
Lemma serve_body_unprintable (cipher : bytes) (sv : server) (s s' : socket)
      (msg : str) (e : exn) :
  PQCServer._receive_encrypted_message cipher s = (Ok (Some msg), s') ->
  stdout_print msg = Exc e ->
  PQCServer.serve_body cipher (sv, s) = (Ok Break, (sv, s')).
Proof.
  intros Hrecv Hprint. unfold PQCServer.serve_body, try_except.
  unfold bind at 1. unfold on_conn at 1. cbn [fst snd]. rewrite Hrecv.
  unfold bind at 1, lift at 1. rewrite Hprint. reflexivity.
Qed.

End ServeLoop.



(** A message other than the sentinel leaves the loop running: with one
    pass of fuel left the bound is reached. *)
Example serve_loop_continues_after_hello :
  fst (PQCServer.serve_loop (aead := Toy.toy_aead) (text := Toy.toy_text) 1 [x01]
         (Demo.listening_server, Demo.socket_with (Demo.message_frame "hello")))
  = Ok OutOfFuel
  /\ fst (PQCServer.serve_loop (aead := Toy.toy_aead) (text := Toy.toy_text) 2 [x01]
            (Demo.listening_server, Demo.socket_with (Demo.message_frame "hello")))
     = Ok (Done tt).
Proof. split; vm_compute; reflexivity. Qed.

(** ** From shared secret to AEAD key *)

Section KeyDerivation.
Context {ecdh : ECDH} {oqs : OQS}.

Lemma classical_connect_key (net : network) (rnd : ec_entropy) (c c' : client) :
  ClassicalClient.connect net rnd c = (Ok true, c') ->
  exists s' pubS pk sk pubC secret key,
    client_socket c' = Some s'
    /\ parsed (available (net_incoming net)) [pubS] (available (rx s'))
    /\ load_pem_public_key pubS = Ok pk
    /\ generate_private_key rnd = Ok sk
    /\ public_bytes (public_key sk) = Ok pubC
    /\ tx s' = frame pubC
    /\ exchange sk pk = Ok secret
    /\ hkdf_sha256 32 None (bytes_of_string "handshake data") secret = Ok key
    /\ aesgcm c' = Some key.
Proof.
  rewrite classical_connect_cases.
  destruct (net_refuses net); [discriminate|].
  destruct (ClassicalClient._perform_key_exchange rnd
              (set_client_socket (Some (socket_socket net)) c))
    as [[[[|b k]|]|e] c2] eqn:Hrun; try discriminate.
  destruct (AESGCM (b :: k)) as [cipher|e] eqn:Hc; [|discriminate].
  apply AESGCM_ok in Hc. subst cipher. intros H. injection H as <-.
  assert (Hs : client_socket (set_client_socket (Some (socket_socket net)) c)
               = Some (socket_socket net)) by reflexivity.
  destruct (classical_client_key_exchange_inv _ _ Hs Hrun)
    as (s' & pubS & pk & sk & pubC & secret & -> & Hp & Hload & Hgen & Hpub & _ & Htx
        & Hex & Hk).
  exists s', pubS, pk, sk, pubC, secret, (b :: k).
  repeat split; assumption || reflexivity.
Qed.

Lemma pqc_connect_key (net : network) (rnd : oqs_entropy) (c c' : client) :
  PQCClient.connect net rnd c = (Ok true, c') ->
  exists s' pkS ct csig kpk kemsk secret,
    client_socket c' = Some s'
    /\ kem_generate_keypair rnd = Ok (kpk, kemsk)
    /\ parsed (available (net_incoming net)) [pkS; ct; csig] (available (rx s'))
    /\ sig_verify ct csig pkS = Ok true
    /\ kem_decap_secret kemsk ct = Ok secret
    /\ aesgcm c' = Some (firstn 32 secret).
Proof.
  rewrite pqc_connect_cases.
  destruct (net_refuses net); [discriminate|].
  destruct (PQCClient._perform_pqc_key_exchange rnd
              (set_client_socket (Some (socket_socket net)) c))
    as [[[[|b k]|]|e] c2] eqn:Hrun; try discriminate.
  destruct (AESGCM (b :: k)) as [cipher|e] eqn:Hc; [|discriminate].
  apply AESGCM_ok in Hc. subst cipher. intros H. injection H as <-.
  assert (Hs : client_socket (set_client_socket (Some (socket_socket net)) c)
               = Some (socket_socket net)) by reflexivity.
  destruct (client_pqc_key_exchange_inv _ _ Hs Hrun)
    as (s' & pkC & skC & pkS & kpk & kemsk & ksig & ct & csig & secret & -> & _
        & Hkem & _ & Hp & _ & _ & _ & _ & Hver & Hdec & Hk).
  exists s', pkS, ct, csig, kpk, kemsk, secret.
  cbn [aesgcm client_socket set_connected set_aesgcm set_client_socket]. rewrite Hk.
  repeat split; assumption || reflexivity.
Qed.

(** C3, as the code has it.  Classical mode: the client loads the public
    key it received in the first frame of the connection, computes the ECDH
    shared secret of its own fresh private key with it, and passes that
    secret through HKDF-SHA256 with the fixed label ["handshake data"], asked
    for 32 bytes; the output is the AES-GCM key (32 bytes when HKDF returns
    the length asked for).  Post-quantum mode: no key-derivation step and no
    label.  The client decapsulates the ciphertext it received in the second
    frame with the secret key of the KEM pair it generated, the server
    encapsulates to the KEM public key it received in the second frame and
    sends that ciphertext; the AES-GCM key of each is the first 32 bytes of
    its KEM shared secret, which is the secret itself, and 32 bytes long,
    when the secret has 32 bytes. *)
Theorem key_from_shared_secret :
  (forall net rnd c c',
      ClassicalClient.connect net rnd c = (Ok true, c') ->
      exists s' pubS pk sk secret key,
        client_socket c' = Some s'
        /\ parsed (available (net_incoming net)) [pubS] (available (rx s'))
        /\ load_pem_public_key pubS = Ok pk
        /\ generate_private_key rnd = Ok sk
        /\ exchange sk pk = Ok secret
        /\ hkdf_sha256 32 None (bytes_of_string "handshake data") secret = Ok key
        /\ aesgcm c' = Some key
        /\ ((forall salt info km out,
                hkdf_sha256 32 salt info km = Ok out -> len out = 32) ->
            len key = 32))
  /\ (forall net rnd c c',
         PQCClient.connect net rnd c = (Ok true, c') ->
         exists s' pkS ct csig kpk kemsk secret,
           client_socket c' = Some s'
           /\ kem_generate_keypair rnd = Ok (kpk, kemsk)
           /\ parsed (available (net_incoming net)) [pkS; ct; csig] (available (rx s'))
           /\ kem_decap_secret kemsk ct = Ok secret
           /\ aesgcm c' = Some (firstn 32 secret)
           /\ (len secret = 32 -> firstn 32 secret = secret))
  /\ (forall rnd s s' key,
         PQCServer._perform_pqc_key_exchange rnd s = (Ok (Some key), s') ->
         exists pkS pkC kpk ksig ct csig secret,
           parsed (available (rx s)) [pkC; kpk; ksig] (available (rx s'))
           /\ kem_encap_secret rnd kpk = Ok (ct, secret)
           /\ tx s' = tx s ++ frame pkS ++ frame ct ++ frame csig
           /\ key = firstn 32 secret
           /\ (len secret = 32 -> key = secret)).
Proof.
  split; [|split].
  - intros net rnd c c' H.
    destruct (classical_connect_key _ _ _ H)
      as (s' & pubS & pk & sk & pubC & secret & key & Hs & Hp & Hload & Hgen & _ & _
          & He & Hk & Ha).
    exists s', pubS, pk, sk, secret, key. repeat split; try assumption.
    intros Hlaw. eapply Hlaw; eassumption.
  - intros net rnd c c' H.
    destruct (pqc_connect_key _ _ _ H)
      as (s' & pkS & ct & csig & kpk & kemsk & secret & Hs & Hkem & Hp & _ & Hd & Ha).
    exists s', pkS, ct, csig, kpk, kemsk, secret. repeat split; try assumption.
    intros Hl. apply firstn_all2. unfold len in Hl. lia.
  - intros rnd s s' key H.
    destruct (server_pqc_key_exchange_inv _ _ H)
      as (pkS & skS & pkC & kpk & sg & ct & secret & csig & _ & Hp & _ & Henc & _ & Htx
          & _ & _ & _ & Hk).
    exists pkS, pkC, kpk, sg, ct, csig, secret. repeat split; try assumption.
    intros Hl. rewrite Hk. apply firstn_all2. unfold len in Hl. lia.
Qed.
End KeyDerivation.

Lemma key_from_shared_secret_witness :
  exists c' key,
    ClassicalClient.connect (ecdh := Toy.toy_ecdh) Demo.classical_net 5
      (ClassicalClient.init "127.0.0.1" 12345) = (Ok true, c')
    /\ aesgcm c' = Some key /\ len key = 32.
Proof.
  destruct (proj1 (@key_from_shared_secret Toy.toy_ecdh Toy.toy_oqs)
              Demo.classical_net 5 (ClassicalClient.init "127.0.0.1" 12345)
              (snd (ClassicalClient.connect (ecdh := Toy.toy_ecdh) Demo.classical_net 5
                      (ClassicalClient.init "127.0.0.1" 12345))))
    as (s' & pubS & pk & sk & secret & key & _ & _ & _ & _ & _ & _ & Ha & Hlen).
  - vm_compute. reflexivity.
  - eexists. exists key. split; [vm_compute; reflexivity|]. split.
    + exact Ha.
    + apply Hlen. intros salt info km out H. cbn in H. injection H as <-. reflexivity.
Defined.

(** The claim as stated fails in the post-quantum mode: in the demo run the
    client's key is the raw KEM secret, and HKDF with no label whatever maps
    that secret to it. *)
Lemma pqc_key_is_not_derived :
  exists c' secret,
    PQCClient.connect (oqs := Toy.toy_oqs) Demo.pqc_net 3
      (PQCClient.init "127.0.0.1" 12346) = (Ok true, c')
    /\ kem_decap_secret (OQS := Toy.toy_oqs) 3
         (firstn 32 (skipn 9 Demo.pqc_server_bytes)) = Ok secret
    /\ aesgcm c' = Some secret
    /\ forall label,
         hkdf_sha256 (ECDH := Toy.toy_ecdh) 32 None label secret <> Ok secret.
Proof.
  eexists. eexists. split; [vm_compute; reflexivity|].
  split; [vm_compute; reflexivity|]. split; [reflexivity|].
  intros label H.
  change (hkdf_sha256 (ECDH := Toy.toy_ecdh) 32 None label ?km)
    with (Ok (map (fun i => byte_of_Z (sum_bytes km + sum_bytes label + 3 * Z.of_nat i))
                  (seq 0 32))) in H.
  match type of H with
  | context [sum_bytes ?k + sum_bytes label] =>
      remember (sum_bytes k + sum_bytes label) as total eqn:Ht; clear Ht
  end.
  apply (f_equal (fun r => match r with Ok l => firstn 2 l | Exc _ => [] end)) in H.
  cbn [seq map firstn] in H.
  assert (H0 : byte_to_Z (byte_of_Z (total + 3 * Z.of_nat 0)) = 11)
    by (apply (f_equal (fun l => byte_to_Z (nth 0 l x00))) in H; exact H).
  assert (H1 : byte_to_Z (byte_of_Z (total + 3 * Z.of_nat 1)) = 16)
    by (apply (f_equal (fun l => byte_to_Z (nth 1 l x00))) in H; exact H).
  rewrite byte_to_of_Z in H0, H1.
  change (Z.of_nat 0) with 0 in H0. change (Z.of_nat 1) with 1 in H1.
  clear H. Z.div_mod_to_equations. lia.
Qed.

(** ** Rounding in binary64 *)

Unset Implicit Arguments.

Lemma digits2_pos_bounds (p : positive) :
  2 ^ (Zpos (digits2_pos p) - 1) <= Zpos p < 2 ^ Zpos (digits2_pos p).
Proof.
  induction p as [p IH|p IH|]; cbn [digits2_pos].
  - rewrite Pos2Z.inj_succ. replace (Z.succ (Zpos (digits2_pos p)) - 1)
      with (Z.succ (Zpos (digits2_pos p) - 1)) by lia.
    rewrite !Z.pow_succ_r by lia. lia.
  - rewrite Pos2Z.inj_succ. replace (Z.succ (Zpos (digits2_pos p)) - 1)
      with (Z.succ (Zpos (digits2_pos p) - 1)) by lia.
    rewrite !Z.pow_succ_r by lia. lia.
  - cbn. lia.
Qed.

Lemma digits2_pos_unique (p : positive) (k : Z) :
  2 ^ (k - 1) <= Zpos p < 2 ^ k -> Zpos (digits2_pos p) = k.
Proof.
  intros [Hlo Hhi]. pose proof (digits2_pos_bounds p) as [Hl Hh].
  assert (Hk : 0 < k).
  { destruct (Z_lt_le_dec 0 k) as [H|H]; [exact H|].
    exfalso. destruct (Z.eq_dec k 0) as [->|Hn]; [cbn in Hhi; lia|].
    rewrite Z.pow_neg_r in Hhi by lia. lia. }
  set (d := Zpos (digits2_pos p)) in *.
  assert (Hd : 0 < d) by (unfold d; lia).
  destruct (Z_lt_le_dec d k) as [H1|H1].
  - exfalso. assert (2 ^ d <= 2 ^ (k - 1)) by (apply Z.pow_le_mono_r; lia). lia.
  - destruct (Z_lt_le_dec k d) as [H2|H2]; [|lia].
    exfalso. assert (2 ^ k <= 2 ^ (d - 1)) by (apply Z.pow_le_mono_r; lia). lia.
Qed.

Lemma iter_pos_nat (A : Type) (f : A -> A) (p : positive) (x : A) :
  iter_pos f p x = Nat.iter (Pos.to_nat p) f x.
Proof.
  revert x. induction p as [p IH|p IH|]; intros x; cbn [iter_pos].
  - rewrite !IH.
    replace (Pos.to_nat p~1) with (Pos.to_nat p + S (Pos.to_nat p))%nat by lia.
    rewrite Nat.iter_add, Nat.iter_succ_r. reflexivity.
  - rewrite !IH.
    replace (Pos.to_nat p~0) with (Pos.to_nat p + Pos.to_nat p)%nat by lia.
    rewrite Nat.iter_add. reflexivity.
  - reflexivity.
Qed.

Lemma shr_1_shifted (n : nat) (m : Z) (mrs : shr_record) :
  shifted n m mrs -> shifted (S n) m (shr_1 mrs).
Proof.
  intros (rem & Hm & Hrem & Hq & Hr & Hs).
  destruct mrs as [q r s]. cbn [shr_m shr_r shr_s] in *.
  unfold shifted.
  assert (HS : 2 ^ Z.of_nat (S n) = 2 * 2 ^ Z.of_nat n)
    by (rewrite Nat2Z.inj_succ, Z.pow_succ_r by lia; reflexivity).
  rewrite HS. clear HS.
  set (P := 2 ^ Z.of_nat n) in *.
  assert (HP : 0 < P) by (unfold P; apply Z.pow_pos_nonneg; lia).
  assert (Hrs : orb r s = false <-> rem = 0).
  { destruct r, s; cbn; split; intros H; try discriminate; lia. }
  assert (Hrs' : orb r s = true <-> rem <> 0).
  { destruct (orb r s); split; intros H; try reflexivity; try discriminate.
    - intros H0. apply Hrs in H0. discriminate.
    - exfalso. apply H. apply Hrs. reflexivity. }
  destruct q as [|[q|q|]|q]; cbn [shr_1 shr_m shr_r shr_s]; try lia;
    [exists rem | exists (rem + P) | exists rem | exists (rem + P)];
    (split; [lia|]); (split; [lia|]); (split; [lia|]);
    (split; [split; intros H; try discriminate; try reflexivity; lia|]);
    destruct (orb r s); split; intros H; try discriminate; try reflexivity;
      try lia; exfalso;
      destruct Hrs as [Hrs1 Hrs2]; destruct Hrs' as [Hrs3 Hrs4];
      try specialize (Hrs3 eq_refl); try specialize (Hrs1 eq_refl); lia.
Qed.

Lemma iter_shr_1_shifted (n : nat) (m : Z) :
  0 <= m ->
  shifted n m (Nat.iter n shr_1 (Build_shr_record m false false)).
Proof.
  intros Hm. induction n as [|n IH].
  - exists 0. cbn. repeat split; try lia; try discriminate; intros; auto.
  - cbn [Nat.iter]. apply shr_1_shifted. exact IH.
Qed.

Lemma fexp64 (e : Z) : fexp prec emax e = Z.max (e - 53) (-1074).
Proof. reflexivity. Qed.

Lemma round_shifted (n : nat) (m : Z) (mrs : shr_record) :
  shifted n m mrs ->
  let q := shr_m mrs in
  let m' := round_nearest_even q (loc_of_shr_record mrs) in
  m = q * 2 ^ Z.of_nat n + (m - q * 2 ^ Z.of_nat n)
  /\ 0 <= m - q * 2 ^ Z.of_nat n < 2 ^ Z.of_nat n
  /\ 0 <= q <= m' /\ m' <= q + 1
  /\ (2 * (m - q * 2 ^ Z.of_nat n) < 2 ^ Z.of_nat n -> m' = q)
  /\ (m - q * 2 ^ Z.of_nat n = 0 -> m' = q).
Proof.
  intros (rem & Hm & Hrem & Hq & Hr & Hs). cbv zeta.
  destruct mrs as [q r s]. cbn [shr_m shr_r shr_s loc_of_shr_record] in *.
  replace (m - q * 2 ^ Z.of_nat n) with rem by lia.
  split; [lia|]. split; [lia|].
  destruct r, s; cbn [round_nearest_even]; try destruct (Z.even q);
    repeat split; try lia; intros H; exfalso;
    destruct Hr as [Hr1 Hr2]; try specialize (Hr1 eq_refl); lia.
Qed.

(** A positive mantissa shifted by [fexp]: the first half. *)
Lemma binary_round_aux_pos (M : positive) (e : Z) (d : positive) :
  fexp prec emax (Zpos (digits2_pos M) + e) - e = Zpos d ->
  exists q m',
    binary_round_aux prec emax false (Zpos M) e loc_Exact
    = round_finish false m' (e + Zpos d)
    /\ 0 <= Zpos M - q * 2 ^ Zpos d < 2 ^ Zpos d
    /\ 0 <= q <= m' /\ m' <= q + 1
    /\ (2 * (Zpos M - q * 2 ^ Zpos d) < 2 ^ Zpos d -> m' = q)
    /\ (Zpos M - q * 2 ^ Zpos d = 0 -> m' = q).
Proof.
  intros Hn.
  pose proof (iter_shr_1_shifted (Pos.to_nat d) (Zpos M) ltac:(lia)) as Hsh.
  rewrite <- iter_pos_nat in Hsh.
  apply round_shifted in Hsh. cbv zeta in Hsh.
  rewrite positive_nat_Z in Hsh.
  set (mrs := iter_pos shr_1 d (Build_shr_record (Zpos M) false false)) in *.
  exists (shr_m mrs), (round_nearest_even (shr_m mrs) (loc_of_shr_record mrs)).
  split.
  - unfold binary_round_aux, round_finish, shr_fexp at 1.
    cbn [Zdigits2 shr_record_of_loc]. rewrite Hn. cbn [shr]. fold mrs. reflexivity.
  - destruct Hsh as (_ & H1 & H2 & H3 & H4 & H5). repeat split; try lia; assumption.
Qed.

(** The second half keeps a canonical mantissa. *)
Lemma round_finish_canonical (m : positive) (e : Z) :
  fexp prec emax (Zpos (digits2_pos m) + e) = e -> e <= 971 ->
  round_finish false (Zpos m) e = S754_finite false m e.
Proof.
  intros Hc He. unfold round_finish, shr_fexp. cbn [Zdigits2 shr_record_of_loc].
  rewrite Hc, Z.sub_diag. cbn [shr shr_m].
  replace (e <=? emax - prec) with true; [reflexivity|].
  symmetry. apply Z.leb_le. cbn. lia.
Qed.

(** ** Facts on canonical floats *)

Lemma valid_finite_facts (s : bool) (m : positive) (e : Z) :
  valid_binary (S754_finite s m e) = true ->
  Z.max (Zpos (digits2_pos m) + e - 53) (-1074) = e /\ e <= 971.
Proof.
  unfold valid_binary, SpecFloat.valid_binary, bounded, canonical_mantissa. intros H.
  apply andb_true_iff in H. destruct H as [Hc He].
  apply Z.eqb_eq in Hc. apply Z.leb_le in He. rewrite fexp64 in Hc.
  split; [exact Hc|]. cbn in He. exact He.
Qed.

Lemma digits2_pos_le (p : positive) (k : Z) :
  0 <= k -> Zpos p < 2 ^ k -> Zpos (digits2_pos p) <= k.
Proof.
  intros Hk Hp. pose proof (digits2_pos_bounds p) as [Hl _].
  assert (H : 2 ^ (Zpos (digits2_pos p) - 1) < 2 ^ k) by lia.
  apply Z.pow_lt_mono_r_iff in H; lia.
Qed.

Lemma digits2_pos_gt (p : positive) (k : Z) :
  0 <= k -> 2 ^ k <= Zpos p -> k < Zpos (digits2_pos p).
Proof.
  intros Hk Hp. pose proof (digits2_pos_bounds p) as [_ Hh].
  assert (H : 2 ^ k < 2 ^ Zpos (digits2_pos p)) by lia.
  apply Z.pow_lt_mono_r_iff in H; lia.
Qed.

Lemma finite_leb_cases (m1 m2 : positive) (e1 e2 : Z) :
  SFleb (S754_finite false m1 e1) (S754_finite false m2 e2) = true
  <-> e1 < e2 \/ (e1 = e2 /\ Zpos m1 <= Zpos m2).
Proof.
  unfold SFleb, SFcompare.
  destruct (Z.compare_spec e1 e2) as [He|He|He].
  - change (Pos.compare_cont Eq m1 m2) with (Pos.compare m1 m2).
    destruct (Pos.compare_spec m1 m2) as [Hm|Hm|Hm]; split; intros H;
      try discriminate; try reflexivity; try lia.
  - split; intros H; [lia|reflexivity].
  - split; intros H; [discriminate|lia].
Qed.

(** ** The jitter at raw 100, latency 30, loss 2 *)

Lemma round_finish_zero (e1 : Z) :
  -1074 <= e1 -> round_finish false 0 e1 = S754_zero false.
Proof.
  intros He. unfold round_finish, shr_fexp. cbn [Zdigits2 shr_record_of_loc].
  rewrite fexp64.
  destruct (Z.max (0 + e1 - 53) (-1074) - e1) as [|p|p] eqn:Hn; try lia; reflexivity.
Qed.

Lemma round_finish_le (m' e1 : Z) :
  0 <= m' <= 2 ^ 53 -> -1074 <= e1 <= -53 ->
  m' <= 4777418484714622 * 2 ^ (-53 - e1) ->
  round_finish false m' e1 = S754_zero false
  \/ exists p e, round_finish false m' e1 = S754_finite false p e
                 /\ SFleb (S754_finite false p e) sf_jitter_bound = true.
Proof.
  intros Hm He Hb. destruct m' as [|pm|pm]; [| |lia].
  - left. apply round_finish_zero. lia.
  - right.
    assert (Hd : Zpos (digits2_pos pm) <= 54).
    { apply digits2_pos_le; [lia|]. change (2 ^ 54) with (2 * 2 ^ 53). lia. }
    destruct (Z_le_gt_dec (Zpos (digits2_pos pm)) 53) as [Hd53|Hd54].
    + exists pm, e1. split.
      * unfold round_finish, shr_fexp. cbn [Zdigits2 shr_record_of_loc].
        rewrite fexp64.
        destruct (Z.max (Zpos (digits2_pos pm) + e1 - 53) (-1074) - e1) as [|p|p] eqn:Hn;
          try lia; cbn [shr shr_m];
          (replace (e1 <=? emax - prec) with true;
           [reflexivity | symmetry; apply Z.leb_le; cbn; lia]).
      * apply finite_leb_cases.
        destruct (Z.eq_dec e1 (-53)) as [->|Hne]; [right|left; lia].
        split; [reflexivity|]. change (2 ^ (-53 - -53)) with 1 in Hb. lia.
    + assert (Hpm : Zpos pm = 2 ^ 53).
      { pose proof (digits2_pos_bounds pm) as [Hl _].
        assert (Zpos (digits2_pos pm) = 54) by lia.
        replace (Zpos (digits2_pos pm) - 1) with 53 in Hl by lia. lia. }
      assert (He1 : e1 <= -54).
      { destruct (Z.eq_dec e1 (-53)) as [->|Hne]; [|lia].
        exfalso. change (2 ^ (-53 - -53)) with 1 in Hb. rewrite Hpm in Hb.
        change (2 ^ 53) with 9007199254740992 in Hb. lia. }
      exists 4503599627370496%positive, (e1 + 1). split.
      * assert (Hpm' : pm = 9007199254740992%positive)
          by (change (2 ^ 53) with (Zpos 9007199254740992) in Hpm; congruence).
        subst pm.
        unfold round_finish, shr_fexp. cbn [Zdigits2 shr_record_of_loc].
        rewrite fexp64.
        change (Zpos (digits2_pos 9007199254740992)) with 54.
        replace (Z.max (54 + e1 - 53) (-1074) - e1) with 1 by lia.
        cbn [shr iter_pos shr_1 shr_m shr_record_of_loc].
        replace (e1 + 1 <=? emax - prec) with true;
          [reflexivity | symmetry; apply Z.leb_le; cbn; lia].
      * apply finite_leb_cases.
        destruct (Z.eq_dec e1 (-54)) as [->|Hne]; [right|left; lia].
        split; [reflexivity|]. lia.
Qed.

(** The jitter bound times a draw of at most one is at most the bound. *)
Lemma mul_j_small (Md : positive) (ed : Z) :
  valid_binary (S754_finite false Md ed) = true ->
  SFleb (S754_finite false Md ed) sf_one = true ->
  SFmul prec emax sf_jitter_bound (S754_finite false Md ed) = S754_zero false
  \/ exists p e, SFmul prec emax sf_jitter_bound (S754_finite false Md ed) = S754_finite false p e
                 /\ SFleb (S754_finite false p e) sf_jitter_bound = true.
Proof.
  intros Hv Hle. apply valid_finite_facts in Hv. destruct Hv as [Hc Hed].
  apply finite_leb_cases in Hle.
  pose proof (digits2_pos_bounds Md) as [Hdl Hdh].
  set (dd := Zpos (digits2_pos Md)) in *.
  assert (Hdd : 1 <= dd <= 53) by (unfold dd; lia).
  assert (Hed52 : ed <= -52) by lia.
  (* the draw is at most one *)
  assert (HMd : Zpos Md <= 2 ^ (- ed)).
  { destruct Hle as [Hlt | [-> Hm]].
    - assert (2 ^ dd <= 2 ^ (- ed)) by (apply Z.pow_le_mono_r; lia). lia.
    - exact Hm. }
  unfold sf_jitter_bound. cbn [SFmul xorb].
  set (Mj := 4777418484714622%positive).
  set (P := (Mj * Md)%positive).
  assert (HP : Zpos P = 4777418484714622 * Zpos Md) by (unfold P, Mj; lia).
  pose proof (digits2_pos_bounds P) as [HPl HPh].
  set (dP := Zpos (digits2_pos P)) in *.
  assert (Hpow_ed : 0 < 2 ^ (- ed)) by (apply Z.pow_pos_nonneg; lia).
  assert (HdP_hi : dP + (-53 + ed) <= 0).
  { assert (H : 2 ^ (dP - 1) < 2 ^ (53 - ed)).
    { replace (53 - ed) with (53 + - ed) by lia. rewrite Z.pow_add_r by lia.
      change (2 ^ 53) with 9007199254740992. nia. }
    apply Z.pow_lt_mono_r_iff in H; lia. }
  assert (HdP_lo : 52 + dd <= dP).
  { assert (H : 51 + dd < dP).
    { unfold dP. apply digits2_pos_gt; [lia|].
      replace (51 + dd) with (52 + (dd - 1)) by lia. rewrite Z.pow_add_r by lia.
      change (2 ^ 52) with 4503599627370496. nia. }
    lia. }
  set (e := -53 + ed) in *.
  set (e1 := Z.max (dP + e - 53) (-1074)).
  assert (He1 : -1074 <= e1 <= -53) by (unfold e1; lia).
  assert (Hn : 1 <= e1 - e).
  { unfold e1, e. destruct (Z.eq_dec dd 1) as [Hd1|Hd1]; lia. }
  destruct (e1 - e) as [|d|d] eqn:Hnd; try lia.
  destruct (binary_round_aux_pos P e d) as (q & m' & Heq & Hrem & Hq & Hm' & _ & Hexact).
  { rewrite fexp64. fold dP. fold e1. exact Hnd. }
  rewrite Heq. replace (e + Zpos d) with e1 by lia.
  assert (Hpd : 0 < 2 ^ Zpos d) by (apply Z.pow_pos_nonneg; lia).
  assert (Hsplit : 2 ^ (- ed) = 2 ^ (-53 - e1) * 2 ^ Zpos d).
  { rewrite <- Z.pow_add_r by lia. f_equal. unfold e in *. lia. }
  assert (HB : 0 < 2 ^ (-53 - e1)) by (apply Z.pow_pos_nonneg; lia).
  apply round_finish_le; [|exact He1|].
  - split; [lia|].
    assert (HdPn : 2 ^ dP <= 2 ^ 53 * 2 ^ Zpos d).
    { rewrite <- Z.pow_add_r by lia. apply Z.pow_le_mono_r; [lia|]. unfold e1 in Hnd. lia. }
    change (2 ^ 53) with 9007199254740992 in *. nia.
  - destruct (Z.eq_dec (Zpos P - q * 2 ^ Zpos d) 0) as [Hz|Hnz].
    + rewrite (Hexact Hz). nia.
    + assert (q < 4777418484714622 * 2 ^ (-53 - e1)) by nia. lia.
Qed.

Lemma pos_iter_xO (p d : positive) :
  Zpos (Pos.iter xO p d) = Zpos p * 2 ^ Zpos d.
Proof.
  induction d as [|d IH] using Pos.peano_ind.
  - cbn. lia.
  - rewrite Pos.iter_succ, Pos2Z.inj_succ, Z.pow_succ_r by lia.
    rewrite Pos2Z.inj_xO, IH. lia.
Qed.

(** Adding a jitter of at most the bound to the multiplied value. *)
Lemma add_m_small (My : positive) (ey : Z) :
  valid_binary (S754_finite false My ey) = true ->
  SFleb (S754_finite false My ey) sf_jitter_bound = true ->
  exists p, SFadd prec emax sf_multiplied (S754_finite false My ey) = S754_finite false p (-45)
            /\ 4665447738979123 <= Zpos p <= 4684109529935039.
Proof.
  intros Hv Hle. apply valid_finite_facts in Hv. destruct Hv as [Hc Hey].
  apply finite_leb_cases in Hle.
  pose proof (digits2_pos_bounds My) as [Hdl Hdh].
  set (dy := Zpos (digits2_pos My)) in *.
  assert (Hdy : 1 <= dy <= 53) by (unfold dy; lia).
  assert (Hey53 : -1074 <= ey <= -53) by lia.
  assert (HMy53 : Zpos My < 2 ^ 53).
  { assert (2 ^ dy <= 2 ^ 53) by (apply Z.pow_le_mono_r; lia). lia. }
  destruct (ey - -45) as [|d|d] eqn:Hd; try lia.
  assert (Hn : Zpos d = -45 - ey) by lia.
  assert (H8 : 8 <= Zpos d) by lia.
  set (T := 2 ^ (Zpos d - 8)).
  assert (HT : 0 < T) by (apply Z.pow_pos_nonneg; lia).
  assert (H2n : 2 ^ Zpos d = 256 * T).
  { unfold T. change 256 with (2 ^ 8). rewrite <- Z.pow_add_r by lia. f_equal. lia. }
  assert (HMy : Zpos My <= 4777418484714622 * T).
  { destruct Hle as [Hlt | [-> Hm]].
    - assert (2 <= T).
      { unfold T. change 2 with (2 ^ 1) at 1. apply Z.pow_le_mono_r; lia. }
      change (2 ^ 53) with 9007199254740992 in HMy53. lia.
    - assert (Zpos d = 8) by lia. unfold T. replace (Zpos d - 8) with 0 by lia.
      change (2 ^ 0) with 1. unfold sf_jitter_bound in Hm. lia. }
  set (M := (Pos.iter xO 4665447738979123 d + My)%positive).
  assert (HM : Zpos M = 4665447738979123 * (256 * T) + Zpos My).
  { unfold M. rewrite Pos2Z.inj_add, pos_iter_xO, H2n. reflexivity. }
  assert (HdM : Zpos (digits2_pos M) = 53 + Zpos d).
  { apply digits2_pos_unique.
    replace (53 + Zpos d - 1) with (60 + (Zpos d - 8)) by lia.
    replace (53 + Zpos d) with (61 + (Zpos d - 8)) by lia.
    rewrite !Z.pow_add_r by lia. fold T.
    change (2 ^ 60) with 1152921504606846976.
    change (2 ^ 61) with 2305843009213693952. lia. }
  assert (Hadd : SFadd prec emax sf_multiplied (S754_finite false My ey)
                 = binary_round_aux prec emax false (Zpos M) ey loc_Exact).
  { unfold sf_multiplied. cbn [SFadd]. cbv zeta.
    replace (Z.min (-45) ey) with ey by lia.
    unfold shl_align at 1 2. rewrite Hd, Z.sub_diag. cbn [fst cond_Zopp].
    change (Zpos (Pos.iter xO 4665447738979123%positive d) + Zpos My) with (Zpos M).
    cbn [binary_normalize]. unfold binary_round.
    rewrite HdM, fexp64.
    replace (Z.max (53 + Zpos d + ey - 53) (-1074)) with (-45) by lia.
    unfold shl_align. destruct (-45 - ey) as [|k|k] eqn:Hk; try lia; reflexivity. }
  rewrite Hadd.
  destruct (binary_round_aux_pos M ey d) as (q & m' & Heq & Hrem & Hq & Hm' & Hdown & _).
  { rewrite HdM, fexp64. lia. }
  rewrite Heq. replace (ey + Zpos d) with (-45) by lia.
  rewrite H2n, HM in Hrem, Hdown.
  assert (Hqlo : 4665447738979123 <= q) by nia.
  assert (Hqhi : q <= 4684109529935039) by nia.
  assert (Hm'hi : m' <= 4684109529935039).
  { destruct (Z.eq_dec q 4684109529935039) as [Hqe|Hqn]; [|lia].
    rewrite Hdown; [lia|]. subst q. lia. }
  destruct m' as [|p|p]; try lia.
  exists p. split; [|lia].
  apply round_finish_canonical; [|lia].
  rewrite fexp64.
  replace (Zpos (digits2_pos p)) with 53; [reflexivity|].
  symmetry. apply digits2_pos_unique.
  change (2 ^ (53 - 1)) with 4503599627370496.
  change (2 ^ 53) with 9007199254740992. lia.
Qed.

(** The interval at raw 100, latency 30, loss 2, for every draw of [0, 1]. *)
Lemma penalties_100_30_2_interval (draw : float) :
  PrimFloat.leb 0 draw = true -> PrimFloat.leb draw 1 = true ->
  let r := Benchmark._simulate_network_penalties_f64 100 30 2 draw in
  PrimFloat.leb (130 * 1.02) r = true
  /\ PrimFloat.leb r (130 * 1.02 + 130 * 1.02 * 0.004) = true.
Proof.
  intros H0 H1. cbv zeta.
  change (Benchmark._simulate_network_penalties_f64 100 30 2 draw)
    with ((100 + 30) * (1 + 2 / 100)
          + (0 + ((100 + 30) * (1 + 2 / 100) * (2 / 500) - 0) * draw))%float.
  rewrite FloatAxioms.leb_spec in H0, H1. rewrite !FloatAxioms.leb_spec.
  assert (Hm : Prim2SF ((100 + 30) * (1 + 2 / 100)) = sf_multiplied) by (vm_compute; reflexivity).
  assert (Hj : Prim2SF ((100 + 30) * (1 + 2 / 100) * (2 / 500) - 0) = sf_jitter_bound)
    by (vm_compute; reflexivity).
  assert (Hlo : Prim2SF (130 * 1.02) = sf_multiplied) by (vm_compute; reflexivity).
  assert (Hhi : Prim2SF (130 * 1.02 + 130 * 1.02 * 0.004)
                = S754_finite false 4684109529935039 (-45)) by (vm_compute; reflexivity).
  assert (Hzero : Prim2SF 0 = S754_zero false) by (vm_compute; reflexivity).
  assert (Hone : Prim2SF 1 = sf_one) by (vm_compute; reflexivity).
  pose proof (FloatAxioms.Prim2SF_valid draw) as Hvd.
  pose proof (FloatAxioms.Prim2SF_valid
                (((100 + 30) * (1 + 2 / 100) * (2 / 500) - 0) * draw)) as Hvx.
  rewrite FloatAxioms.mul_spec in Hvx.
  rewrite Hlo, Hhi.
  rewrite !FloatAxioms.add_spec. rewrite Hm.
  rewrite (FloatAxioms.mul_spec ((100 + 30) * (1 + 2 / 100) * (2 / 500) - 0) draw).
  rewrite Hj in *. rewrite Hzero in *. rewrite Hone in H1.
  unfold SF64mul, SF64add in *.
  assert (Hends : SFleb sf_multiplied sf_multiplied = true
                  /\ SFleb sf_multiplied (S754_finite false 4684109529935039 (-45)) = true)
    by (split; reflexivity).
  destruct (Prim2SF draw) as [s|s| |s Md ed].
  - destruct s; exact Hends.
  - destruct s; discriminate.
  - discriminate.
  - destruct s; [discriminate|].
    destruct (mul_j_small Md ed Hvd H1) as [Hx | (p & e & Hx & Hle)];
      rewrite Hx in *; [exact Hends|].
    change (SFadd prec emax (S754_zero false) (S754_finite false p e))
      with (S754_finite false p e).
    destruct (add_m_small p e Hvx Hle) as (p' & Hadd & Hp').
    rewrite Hadd. unfold sf_multiplied.
    split; apply finite_leb_cases; right; (split; [reflexivity|lia]).
Qed.

Set Implicit Arguments.

(** ** The network impairment model *)

(** C5.  In the binary64 arithmetic of the code, for every input:
    [max(latency, 0.0)] is [0.0] when the latency is below zero and the
    latency otherwise; without packet loss (the test [loss > 0.0] fails) the
    result is [raw + max(latency, 0.0)]; with packet loss that sum is first
    multiplied by [1 + loss/100], and the jitter
    [0.0 + (bound - 0.0) * random()] is added, the bound being the
    multiplied value times [loss/500].  For raw 100, latency 30: loss 0
    gives the float 130 whatever the draw, and loss 2 gives a float between
    [130*1.02] and [130*1.02 + 130*1.02*0.004], both evaluated in binary64,
    for every value of [random()] from 0 to 1. *)
Theorem simulate_network_penalties_model (raw latency loss draw : float) :
  let adjusted := (raw + Benchmark.py_max_f64 latency 0)%float in
  let m := (adjusted * (1 + loss / 100))%float in
  let bound := (m * (loss / 500))%float in
  (PrimFloat.ltb latency 0 = true -> Benchmark.py_max_f64 latency 0 = 0%float)
  /\ (PrimFloat.ltb latency 0 = false -> Benchmark.py_max_f64 latency 0 = latency)
  /\ (PrimFloat.ltb 0 loss = false ->
      Benchmark._simulate_network_penalties_f64 raw latency loss draw = adjusted)
  /\ (PrimFloat.ltb 0 loss = true ->
      Benchmark._simulate_network_penalties_f64 raw latency loss draw
      = (m + (0 + (bound - 0) * draw))%float)
  /\ Benchmark._simulate_network_penalties_f64 100 30 0 draw = 130%float
  /\ (PrimFloat.leb 0 draw = true -> PrimFloat.leb draw 1 = true ->
      let r := Benchmark._simulate_network_penalties_f64 100 30 2 draw in
      PrimFloat.leb (130 * 1.02) r = true
      /\ PrimFloat.leb r (130 * 1.02 + 130 * 1.02 * 0.004) = true).
Proof.
  cbv zeta.
  unfold Benchmark._simulate_network_penalties_f64, Benchmark.random_uniform_f64,
    Benchmark.py_max_f64.
  split; [intros ->; reflexivity|].
  split; [intros ->; reflexivity|].
  split; [intros ->; reflexivity|].
  split; [intros ->; reflexivity|].
  split; [reflexivity|].
  intros H0 H1. exact (penalties_100_30_2_interval draw H0 H1).
Qed.

Lemma simulate_network_penalties_model_witness :
  Benchmark._simulate_network_penalties_f64 100 (-30) 2 0.5
  = (100 * (1 + 2 / 100) + (0 + (100 * (1 + 2 / 100) * (2 / 500) - 0) * 0.5))%float
  /\ PrimFloat.leb (130 * 1.02) (Benchmark._simulate_network_penalties_f64 100 30 2 0.5)
     = true
  /\ PrimFloat.leb (Benchmark._simulate_network_penalties_f64 100 30 2 0.5)
                   (130 * 1.02 + 130 * 1.02 * 0.004) = true.
Proof.
  destruct (simulate_network_penalties_model 100 (-30) 2 0.5)
    as (Hneg & _ & _ & Hloss & _ & Hnamed).
  split; [|exact (Hnamed eq_refl eq_refl)].
  rewrite (Hloss eq_refl), (Hneg eq_refl). vm_compute. reflexivity.
Defined.

(** ** What the benchmark times *)

Section TimedInterval.
Context {ecdh : ECDH} {oqs : OQS}.

Lemma classical_timed_block_cases (sch : schedule) (net : network) (rnd : ec_entropy)
      (b : bench) :
  Benchmark.classical_timed_block sch net rnd b =
  match ClassicalClient.connect net rnd (bench_client b) with
  | (Ok true, c') =>
      (Ok ((clock b + t_connect sch + t_disconnect sch - clock b) * 1000)%Q,
       mkBench (clock b + t_connect sch + t_disconnect sch)%Q (cleared c'))
  | (Ok false, c') =>
      (Exc "RuntimeError: Classical handshake failed to connect"%string,
       mkBench (clock b + t_connect sch)%Q c')
  | (Exc e, c') => (Exc e, mkBench (clock b + t_connect sch)%Q c')
  end.
Proof.
  unfold Benchmark.classical_timed_block, bind, perf_counter, gets, taking,
    on_bench_client, raise, ret.
  destruct (ClassicalClient.connect net rnd (bench_client b)) as [[[|]|e] c'];
    cbn [negb clock bench_client]; try reflexivity.
  rewrite classical_disconnect_cleared. reflexivity.
Qed.

Lemma pqc_timed_block_cases (sch : schedule) (net : network) (rnd : oqs_entropy)
      (b : bench) :
  Benchmark.pqc_timed_block sch net rnd b =
  match PQCClient.connect net rnd (bench_client b) with
  | (Ok true, c') =>
      (Ok ((clock b + t_connect sch + t_disconnect sch - clock b) * 1000)%Q,
       mkBench (clock b + t_connect sch + t_disconnect sch)%Q (cleared c'))
  | (Ok false, c') =>
      (Exc "RuntimeError: PQC handshake failed to connect"%string,
       mkBench (clock b + t_connect sch)%Q c')
  | (Exc e, c') => (Exc e, mkBench (clock b + t_connect sch)%Q c')
  end.
Proof.
  unfold Benchmark.pqc_timed_block, bind, perf_counter, gets, taking,
    on_bench_client, raise, ret.
  destruct (PQCClient.connect net rnd (bench_client b)) as [[[|]|e] c'];
    cbn [negb clock bench_client]; try reflexivity.
  rewrite pqc_disconnect_cleared. reflexivity.
Qed.

(** C6, as the code has it.  In both modes the raw elapsed time of an
    iteration whose handshake succeeds is the time of [client.connect()]
    plus the time of the [client.disconnect()] that follows it inside the
    [try] block, in milliseconds, and this is the value handed to the
    impairment model; server start-up, the settle delay and the [finally]
    block are outside the interval.  When [connect] returns [False] the
    measurement raises. *)
Theorem timed_interval_is_connect_plus_disconnect
        (sch : schedule) (net : network) (draw latency_ms packet_loss_percent : Q)
        (port : option Z) (free_port : Z) (b : bench) :
  (forall rnd c',
      ClassicalClient.connect net rnd
        (ClassicalClient.init "127.0.0.1"
           (match port with None => free_port | Some p => p end)) = (Ok true, c') ->
      exists elapsed_ms,
        (elapsed_ms == (t_connect sch + t_disconnect sch) * 1000)%Q
        /\ fst (Benchmark.measure_classical_handshake sch net rnd draw latency_ms
                  packet_loss_percent port free_port b)
           = Ok (Benchmark._simulate_network_penalties elapsed_ms latency_ms
                   packet_loss_percent draw))
  /\ (forall rnd c',
         ClassicalClient.connect net rnd
           (ClassicalClient.init "127.0.0.1"
              (match port with None => free_port | Some p => p end)) = (Ok false, c') ->
         fst (Benchmark.measure_classical_handshake sch net rnd draw latency_ms
                packet_loss_percent port free_port b)
         = Exc "RuntimeError: Classical handshake failed to connect"%string)
  /\ (forall rnd c',
         PQCClient.connect net rnd
           (PQCClient.init "127.0.0.1"
              (match port with None => free_port | Some p => p end)) = (Ok true, c') ->
         exists elapsed_ms,
           (elapsed_ms == (t_connect sch + t_disconnect sch) * 1000)%Q
           /\ fst (Benchmark.measure_pqc_handshake sch net rnd draw latency_ms
                     packet_loss_percent port free_port b)
              = Ok (Benchmark._simulate_network_penalties elapsed_ms latency_ms
                      packet_loss_percent draw))
  /\ (forall rnd c',
         PQCClient.connect net rnd
           (PQCClient.init "127.0.0.1"
              (match port with None => free_port | Some p => p end)) = (Ok false, c') ->
         fst (Benchmark.measure_pqc_handshake sch net rnd draw latency_ms
                packet_loss_percent port free_port b)
         = Exc "RuntimeError: PQC handshake failed to connect"%string).
Proof.
  split; [|split; [|split]].
  - intros rnd c' Hc.
    eexists. split; [|
      unfold Benchmark.measure_classical_handshake, try_finally, bind, tick, modify,
        taking, on_bench_client, ret;
      rewrite classical_timed_block_cases; cbn [bench_client clock];
      rewrite Hc; cbn [bench_client clock];
      rewrite classical_disconnect_cleared; reflexivity ].
    cbn [clock]. ring.
  - intros rnd c' Hc.
    unfold Benchmark.measure_classical_handshake, try_finally, bind, tick, modify,
      taking, on_bench_client, ret.
    rewrite classical_timed_block_cases. cbn [bench_client clock].
    rewrite Hc. cbn [bench_client clock].
    rewrite classical_disconnect_cleared. reflexivity.
  - intros rnd c' Hc.
    eexists. split; [|
      unfold Benchmark.measure_pqc_handshake, try_finally, bind, tick, modify,
        taking, on_bench_client, ret;
      rewrite pqc_timed_block_cases; cbn [bench_client clock];
      rewrite Hc; cbn [bench_client clock];
      rewrite pqc_disconnect_cleared; reflexivity ].
    cbn [clock]. ring.
  - intros rnd c' Hc.
    unfold Benchmark.measure_pqc_handshake, try_finally, bind, tick, modify,
      taking, on_bench_client, ret.
    rewrite pqc_timed_block_cases. cbn [bench_client clock].
    rewrite Hc. cbn [bench_client clock].
    rewrite pqc_disconnect_cleared. reflexivity.
Qed.
End TimedInterval.

Lemma timed_interval_is_connect_plus_disconnect_witness :
  exists elapsed_ms,
    (elapsed_ms == 6)%Q
    /\ fst (Benchmark.measure_classical_handshake (ecdh := Toy.toy_ecdh)
              Demo.schedule_5_1 Demo.classical_net 5 0 0 0 None 50000 Demo.bench_start)
       = Ok (Benchmark._simulate_network_penalties elapsed_ms 0 0 0).
Proof.
  destruct (proj1 (@timed_interval_is_connect_plus_disconnect
                     Toy.toy_ecdh Toy.toy_oqs Demo.schedule_5_1 Demo.classical_net
                     0 0 0 None 50000 Demo.bench_start)
              5
              (snd (ClassicalClient.connect (ecdh := Toy.toy_ecdh) Demo.classical_net 5
                      (ClassicalClient.init "127.0.0.1" 50000)))
              ltac:(vm_compute; reflexivity))
    as (e & He & Hm).
  exists e. split; [|exact Hm].
  rewrite He. vm_compute. reflexivity.
Defined.

(** The claim as stated fails: with a connect of 5 ms and a disconnect of
    1 ms the recorded time is 6 ms, not the 5 ms of the handshake. *)
Lemma timed_interval_includes_disconnect :
  exists elapsed_ms b',
    Benchmark.classical_timed_block (ecdh := Toy.toy_ecdh)
      Demo.schedule_5_1 Demo.classical_net 5
      (mkBench 0 (ClassicalClient.init "127.0.0.1" 50000)) = (Ok elapsed_ms, b')
    /\ (elapsed_ms == 6)%Q
    /\ ~ (elapsed_ms == t_connect Demo.schedule_5_1 * 1000)%Q.
Proof.
  eexists. eexists. split; [vm_compute; reflexivity|].
  split; [vm_compute; reflexivity|].
  intros H. vm_compute in H. discriminate H.
Qed.

(** ** Concrete runs *)

(** Both demo handshakes open a channel. *)
Example demo_connects_succeed :
  fst (ClassicalClient.connect (ecdh := Toy.toy_ecdh) Demo.classical_net 5
         (ClassicalClient.init "127.0.0.1" 12345)) = Ok true
  /\ fst (PQCClient.connect (oqs := Toy.toy_oqs) Demo.pqc_net 3
            (PQCClient.init "127.0.0.1" 12346)) = Ok true.
Proof. split; vm_compute; reflexivity. Qed.

(** No listener on the port: the scenario of both test suites. *)
Example connect_without_listener :
  ClassicalClient.connect (ecdh := Toy.toy_ecdh) (mkNetwork true [] None false) 5
    (ClassicalClient.init "localhost" 19999)
  = (Ok false, ClassicalClient.init "localhost" 19999)
  /\ PQCClient.connect (oqs := Toy.toy_oqs) (mkNetwork true [] None false) 3
       (PQCClient.init "localhost" 19998)
     = (Ok false, PQCClient.init "localhost" 19998).
Proof. split; reflexivity. Qed.

(** The peer closes inside the first length field; the peer's key does not
    deserialize; the socket fails while the client sends its key. *)
Example classical_connect_fails_at_each_stage :
  ClassicalClient.connect (ecdh := Toy.toy_ecdh)
    (mkNetwork false [Chunk [x00; x00]] None false) 5
    (ClassicalClient.init "localhost" 12345)
  = (Ok false, ClassicalClient.init "localhost" 12345)
  /\ ClassicalClient.connect (ecdh := Toy.toy_ecdh)
       (mkNetwork false [Chunk (frame [x00])] None false) 5
       (ClassicalClient.init "localhost" 12345)
     = (Ok false, ClassicalClient.init "localhost" 12345)
  /\ ClassicalClient.connect (ecdh := Toy.toy_ecdh)
       (mkNetwork false [Chunk Demo.classical_server_bytes] (Some 1%nat) false) 5
       (ClassicalClient.init "localhost" 12345)
     = (Ok false, ClassicalClient.init "localhost" 12345)
  /\ ClassicalClient.connect (ecdh := Toy.toy_ecdh)
       (mkNetwork false [Chunk [x00; x00]; Fault "ConnectionResetError"%string] None true) 5
       (ClassicalClient.init "localhost" 12345)
     = (Ok false, ClassicalClient.init "localhost" 12345).
Proof. repeat split; vm_compute; reflexivity. Qed.

(** One flipped byte in the ciphertext the server sent: the client's
    verification fails and no key results. *)
Example pqc_tampered_ciphertext_yields_no_key :
  let tampered :=
    firstn 9 Demo.pqc_server_bytes ++ [xff] ++ skipn 10 Demo.pqc_server_bytes in
  nth 9 Demo.pqc_server_bytes x00 <> xff
  /\ fst (PQCClient._perform_pqc_key_exchange (oqs := Toy.toy_oqs) 3
            (Demo.client_with tampered)) = Ok None
  /\ PQCClient.connect (oqs := Toy.toy_oqs)
       (mkNetwork false [Chunk tampered] None false) 3
       (PQCClient.init "127.0.0.1" 12346)
     = (Ok false, PQCClient.init "127.0.0.1" 12346).
Proof. cbv zeta. repeat split; vm_compute; try reflexivity; discriminate. Qed.

(** A whole connection on the server: handshake with the demo client, the
    message ["hello"], then the sentinel in mixed case.  The handler stops
    after the sentinel, with the last message stored, the event set and the
    socket closed; the bytes after the sentinel are never read. *)
Example handle_client_end_to_end :
  let key := Demo.key_of (fst Demo.pqc_server_run) in
  let stream :=
    Demo.pqc_client_bytes ++ Demo.message_frame_under key "hello"
      ++ Demo.message_frame_under key "Exit" ++ Demo.message_frame_under key "late" in
  match PQCServer._handle_client (oqs := Toy.toy_oqs) (aead := Toy.toy_aead)
          (text := Toy.toy_text) 5 11 (Demo.listening_server, Demo.socket_with stream)
  with
  | (r, (sv, s)) =>
      r = Ok (Done tt)
      /\ last_received_message sv = Some (str_of_string "Exit")
      /\ message_received_event sv = Some true
      /\ closed s = true
      /\ available (rx s) = Demo.message_frame_under key "late"
  end.
Proof. vm_compute. repeat split; reflexivity. Qed.

(** ** The serve loop ends *)

Lemma parsed_shrinks (x : bytes) (ps : list bytes) (rest : bytes) :
  parsed x ps rest -> len rest <= len x /\ (ps <> [] -> len rest < len x).
Proof.
  induction 1 as [rest | l p r ps rest Hl Hp Hne Hps [IH1 IH2]].
  - split; [lia | congruence].
  - rewrite !len_app. pose proof (len_nonneg p). split; intros; lia.
Qed.

Section ServeLoopEnds.
Context {oqs : OQS} {aead : AEAD} {text : PyText}.

(** A pass of the body never raises, and it asks for another pass only
    after consuming a message from the stream. *)
Lemma serve_body_progress (cipher : bytes) (sv : server) (s : socket) :
  exists c sv' s',
    PQCServer.serve_body cipher (sv, s) = (Ok c, (sv', s'))
    /\ (c = Continue -> len (available (rx s')) < len (available (rx s))).
Proof.
  destruct (server_receive_message_total cipher s) as ([msg|] & s1 & Hrecv).
  - destruct (stdout_print msg) as [[]|e] eqn:Hprint.
    + rewrite (@serve_body_message _ _ cipher sv s s1 msg Hrecv Hprint).
      destruct (server_receive_message_inv _ _ Hrecv) as (nonce & ct & pt & Hp & _).
      apply parsed_shrinks in Hp. destruct Hp as [_ Hlt].
      do 3 eexists. split; [reflexivity|]. intros _. apply Hlt. discriminate.
    + rewrite (@serve_body_unprintable _ _ cipher sv s s1 msg e Hrecv Hprint).
      do 3 eexists. split; [reflexivity | discriminate].
  - unfold PQCServer.serve_body, try_except.
    unfold bind at 1. unfold on_conn at 1. cbn [fst snd]. rewrite Hrecv.
    unfold ret. do 3 eexists. split; [reflexivity | discriminate].
Qed.

(** With more fuel than bytes left on the stream the loop returns. *)
Lemma serve_loop_terminates (fuel : nat) (cipher : bytes) :
  forall (sv : server) (s : socket),
    len (available (rx s)) < Z.of_nat fuel ->
    exists st', PQCServer.serve_loop fuel cipher (sv, s) = (Ok (Done tt), st').
Proof.
  induction fuel as [|fuel IH]; intros sv s Hf.
  - pose proof (len_nonneg (available (rx s))). lia.
  - cbn [PQCServer.serve_loop]. unfold bind at 1, gets at 1. cbn [fst].
    destruct (running sv); [|unfold ret; eauto].
    unfold bind at 1.
    destruct (serve_body_progress cipher sv s) as (c & sv' & s' & Hbody & Hlt).
    rewrite Hbody. destruct c.
    + apply IH. specialize (Hlt eq_refl). lia.
    + unfold ret. eauto.
Qed.

(** The handler of a connection returns normally, whatever the peer sends,
    once the fuel exceeds the bytes the stream still delivers. *)
Lemma handle_client_returns (fuel : nat) (rnd : oqs_entropy) (sv : server) (s : socket) :
  len (available (rx s)) < Z.of_nat fuel ->
  fst (PQCServer._handle_client fuel rnd (sv, s)) = Ok (Done tt).
Proof.
  intros Hf. unfold PQCServer._handle_client, try_except, try_finally.
  unfold bind at 1. unfold on_conn at 1. cbn [fst snd].
  destruct (server_pqc_key_exchange_total rnd s) as (r & s1 & Hkex). rewrite Hkex.
  assert (Hclose : forall (res0 : res (loop_res unit)) st,
             res0 = Ok (Done tt) \/ (exists e, res0 = Exc e) ->
             fst (match (match on_conn Socket.close st with
                         | (Ok _, s'') => (res0, s'')
                         | (Exc e, s'') => (Exc e, s'')
                         end) with
                  | (Ok a, s') => (Ok a, s')
                  | (Exc _, s') => ret (Done tt) s'
                  end) = Ok (Done tt)).
  { intros res0 st Hres. destruct (on_conn Socket.close st) as [[u|e] s''];
      [|reflexivity].
    destruct Hres as [->|[e ->]]; reflexivity. }
  destruct r as [[|b k]|].
  - apply Hclose. left. reflexivity.
  - unfold bind at 1, lift at 1.
    destruct (AESGCM (b :: k)) as [cipher|e].
    + assert (Hle : len (available (rx s1)) < Z.of_nat fuel).
      { destruct (server_pqc_key_exchange_inv _ _ Hkex)
          as (? & ? & ? & ? & ? & ? & ? & ? & _ & Hp & _).
        apply parsed_shrinks in Hp. lia. }
      destruct (@serve_loop_terminates fuel cipher sv s1 Hle) as (st' & Hloop).
      rewrite Hloop. apply Hclose. left. reflexivity.
    + apply Hclose. right. eauto.
  - apply Hclose. left. reflexivity.
Qed.
End ServeLoopEnds.

(** * Further properties of the code *)

Unset Implicit Arguments.

(** ** Reading what was framed *)

Lemma socket_receive_exact_fwd (n : Z) (s : socket) :
  closed s = false -> 0 <= n -> n <= len (available (rx s)) ->
  exists q',
    receive_exact Socket.recv n s
    = (Ok (Some (firstn (Z.to_nat n) (available (rx s)))), set_rx q' s)
    /\ available q' = skipn (Z.to_nat n) (available (rx s)).
Proof.
  intros Hc Hn Hav.
  destruct (@socket_loop_fwd (Z.to_nat n) n [] s Hc) as (q' & Hloop & Hq');
    try (unfold len in *; simpl; lia).
  change (len (@nil byte)) with 0 in *. rewrite Z.sub_0_r in *. simpl in Hloop.
  exists q'. split; [|exact Hq'].
  unfold receive_exact. rewrite Hloop. reflexivity.
Qed.

Lemma socket_receive_prefix (d rest : bytes) (s : socket) :
  closed s = false -> available (rx s) = d ++ rest ->
  exists q',
    receive_exact Socket.recv (len d) s = (Ok (Some d), set_rx q' s)
    /\ available q' = rest.
Proof.
  intros Hc Hav.
  destruct (@socket_receive_exact_fwd (len d) s Hc (len_nonneg d)) as (q' & Hr & Hq').
  { rewrite Hav, len_app. pose proof (len_nonneg rest). lia. }
  exists q'. rewrite Hr, Hq', Hav. unfold len. rewrite Nat2Z.id.
  rewrite firstn_app, Nat.sub_diag, firstn_all, firstn_O, app_nil_r.
  rewrite skipn_app, Nat.sub_diag, skipn_all, skipn_O. auto.
Qed.

(** The two reads of a frame, length field then payload, return the payload
    that was framed and leave the stream right behind it. *)
Lemma socket_receive_frame (p rest : bytes) (s : socket) :
  closed s = false -> len p < 4294967296 ->
  available (rx s) = frame p ++ rest ->
  exists b0 l0 q1 q2,
    receive_exact Socket.recv 4 s = (Ok (Some (b0 :: l0)), set_rx q1 s)
    /\ receive_exact Socket.recv (from_bytes (b0 :: l0)) (set_rx q1 s)
       = (Ok (Some p), set_rx q2 s)
    /\ available q2 = rest.
Proof.
  intros Hc Hp Hav. unfold frame in Hav. rewrite <- app_assoc in Hav.
  destruct (socket_receive_prefix (be32 (len p)) (p ++ rest) s Hc Hav)
    as (q1 & Hr1 & Hq1).
  destruct (socket_receive_prefix p rest (set_rx q1 s) Hc Hq1) as (q2 & Hr2 & Hq2).
  exists (byte_of_Z (len p / 16777216)),
    [byte_of_Z (len p / 65536); byte_of_Z (len p / 256); byte_of_Z (len p)], q1, q2.
  change (byte_of_Z (len p / 16777216)
            :: [byte_of_Z (len p / 65536); byte_of_Z (len p / 256); byte_of_Z (len p)])
    with (be32 (len p)).
  rewrite from_bytes_be32 by (pose proof (len_nonneg p); lia).
  split; [exact Hr1|]. split; [exact Hr2 | exact Hq2].
Qed.

(** ** Receiving a message *)

Section ReceiveMessage.
Context {oqs : OQS} {aead : AEAD} {text : PyText}.

(** What [_receive_encrypted_message] returns on a stream that starts with
    the ciphertext frame of a nonce and a ciphertext. *)
Lemma receive_encrypted_message_frames
      (cipher nonce ct rest : bytes) (s : socket) :
  closed s = false ->
  nonce <> [] -> ct <> [] ->
  len nonce < 4294967296 -> len ct < 4294967296 ->
  available (rx s) = frame nonce ++ frame ct ++ rest ->
  exists q,
    PQCServer._receive_encrypted_message cipher s
    = (match aesgcm_decrypt cipher nonce ct None with
       | Ok plaintext =>
           match decode_utf8 plaintext with
           | Ok message => Ok (Some message)
           | Exc _ => Ok None
           end
       | Exc _ => Ok None
       end, set_rx q s)
    /\ available q = rest.
Proof.
  intros Hc Hn Hct Hln Hlc Hav.
  destruct (socket_receive_frame nonce (frame ct ++ rest) s Hc Hln Hav)
    as (b0 & l0 & q1 & q2 & Hr1 & Hr2 & Hq2).
  destruct (socket_receive_frame ct rest (set_rx q2 s) Hc Hlc Hq2)
    as (b1 & l1 & q3 & q4 & Hr3 & Hr4 & Hq4).
  rewrite !set_rx_set_rx in *.
  exists q4. split; [|exact Hq4].
  destruct nonce as [|n0 nonce]; [congruence|].
  destruct ct as [|c0 ct]; [congruence|].
  unfold PQCServer._receive_encrypted_message, PQCServer._receive_exact, try_except.
  unfold bind at 1. rewrite Hr1. cbv beta iota.
  unfold bind at 1. rewrite Hr2. cbv beta iota.
  unfold bind at 1. rewrite Hr3. cbv beta iota.
  unfold bind at 1. rewrite Hr4. cbv beta iota.
  unfold bind, lift, ret.
  destruct (aesgcm_decrypt cipher (n0 :: nonce) (c0 :: ct) None) as [pt|e];
    [|reflexivity].
  destruct (decode_utf8 pt) as [m|e]; reflexivity.
Qed.
End ReceiveMessage.

(** ** Sending a message *)

Lemma gets_bind {S A B : Type} (f : S -> A) (k : A -> M S B) (s : S) :
  bind (gets f) k s = k (f s) s.
Proof. reflexivity. Qed.

Lemma try_except_false_inv {S : Type} (m : M S bool) (s s' : S) :
  try_except m (fun _ => ret false) s = (Ok true, s') -> m s = (Ok true, s').
Proof.
  unfold try_except, ret. destruct (m s) as [[b|e] s1]; [auto | discriminate].
Qed.

Lemma on_client_socket_none {A : Type} (m : M socket A) (c : client) :
  client_socket c = None ->
  exists e, on_client_socket m c = (Exc e, c).
Proof. unfold on_client_socket. intros ->. eauto. Qed.

(** The proof that a successful [send_message] has written one ciphertext
    frame; the two classes share it. *)
Ltac prove_send_message_inv send_def :=
  let H := fresh "H" in
  intros H; unfold send_def in H;
  rewrite !gets_bind in H;
  match type of H with
  | context [connected ?c] =>
      destruct (connected c) eqn:?; [|cbv [ret] in H; discriminate H];
      destruct (aesgcm c) as [key|] eqn:?; [|cbv [ret] in H; discriminate H];
      apply try_except_false_inv in H;
      destruct (client_socket c) as [s|] eqn:?;
      [ repeat step_client; simpl_states;
        exists s, key; do 3 eexists;
        repeat (split; [first [reflexivity | eassumption | lia]|]);
        split;
        [ cbn [tx sent]; unfold frame; rewrite <- !app_assoc; reflexivity
        | reflexivity ]
      | exfalso;
        repeat (step_bind H;
                match goal with
                | Hs : lift _ _ = (Ok _, _) |- _ =>
                    apply lift_ok_inv in Hs; destruct Hs as [? ->]
                end);
        step_bind H;
        match goal with
        | Hs : on_client_socket _ c = (Ok _, _), Hn : client_socket c = None |- _ =>
            unfold on_client_socket in Hs; rewrite Hn in Hs; discriminate Hs
        end ]
  end.

Section SendMessage.
Context {aead : AEAD} {enc : PyEncode} {rand : OSRandom}.

Lemma classical_send_message_inv (message : str) (rnd : os_entropy) (c c' : client) :
  ClassicalClientMessages.send_message message rnd c = (Ok true, c') ->
  exists s key nonce plaintext ciphertext,
    connected c = true /\ aesgcm c = Some key /\ client_socket c = Some s
    /\ urandom rnd 12 = Ok nonce
    /\ encode_utf8 message = Ok plaintext
    /\ aesgcm_encrypt key nonce plaintext None = Ok ciphertext
    /\ len nonce < 4294967296 /\ len ciphertext < 4294967296
    /\ c' = set_client_socket
              (Some (sent ciphertext (sent (be32 (len ciphertext))
                       (sent nonce (sent (be32 (len nonce)) s))))) c
    /\ tx (sent ciphertext (sent (be32 (len ciphertext))
             (sent nonce (sent (be32 (len nonce)) s))))
       = tx s ++ frame nonce ++ frame ciphertext
    /\ rx (sent ciphertext (sent (be32 (len ciphertext))
             (sent nonce (sent (be32 (len nonce)) s)))) = rx s.
Proof.
  prove_send_message_inv (@ClassicalClientMessages.send_message).
Qed.

Lemma pqc_send_message_inv (message : str) (rnd : os_entropy) (c c' : client) :
  PQCClientMessages.send_message message rnd c = (Ok true, c') ->
  exists s key nonce plaintext ciphertext,
    connected c = true /\ aesgcm c = Some key /\ client_socket c = Some s
    /\ urandom rnd 12 = Ok nonce
    /\ encode_utf8 message = Ok plaintext
    /\ aesgcm_encrypt key nonce plaintext None = Ok ciphertext
    /\ len nonce < 4294967296 /\ len ciphertext < 4294967296
    /\ c' = set_client_socket
              (Some (sent ciphertext (sent (be32 (len ciphertext))
                       (sent nonce (sent (be32 (len nonce)) s))))) c
    /\ tx (sent ciphertext (sent (be32 (len ciphertext))
             (sent nonce (sent (be32 (len nonce)) s))))
       = tx s ++ frame nonce ++ frame ciphertext
    /\ rx (sent ciphertext (sent (be32 (len ciphertext))
             (sent nonce (sent (be32 (len nonce)) s)))) = rx s.
Proof.
  prove_send_message_inv (@PQCClientMessages.send_message).
Qed.

Lemma classical_send_message_total (message : str) (rnd : os_entropy) (c : client) :
  exists b c', ClassicalClientMessages.send_message message rnd c = (Ok b, c').
Proof.
  unfold ClassicalClientMessages.send_message. rewrite !gets_bind.
  destruct (connected c); [|unfold ret; eauto].
  destruct (aesgcm c); [|unfold ret; eauto].
  apply try_except_ret_total.
Qed.

Lemma pqc_send_message_total (message : str) (rnd : os_entropy) (c : client) :
  exists b c', PQCClientMessages.send_message message rnd c = (Ok b, c').
Proof.
  unfold PQCClientMessages.send_message. rewrite !gets_bind.
  destruct (connected c); [|unfold ret; eauto].
  destruct (aesgcm c); [|unfold ret; eauto].
  apply try_except_ret_total.
Qed.

Lemma classical_send_message_unconnected (message : str) (rnd : os_entropy) (c : client) :
  connected c = false \/ aesgcm c = None ->
  ClassicalClientMessages.send_message message rnd c = (Ok false, c).
Proof.
  unfold ClassicalClientMessages.send_message. rewrite !gets_bind.
  intros [-> | ->]; [reflexivity|]. destruct (connected c); reflexivity.
Qed.

Lemma pqc_send_message_unconnected (message : str) (rnd : os_entropy) (c : client) :
  connected c = false \/ aesgcm c = None ->
  PQCClientMessages.send_message message rnd c = (Ok false, c).
Proof.
  unfold PQCClientMessages.send_message. rewrite !gets_bind.
  intros [-> | ->]; [reflexivity|]. destruct (connected c); reflexivity.
Qed.

(** X1. [send_message] never raises.  It returns [True] only for a connected
    client with a cipher and a socket, and then it has appended to the wire
    exactly one ciphertext frame, [len(nonce) | nonce | len(ciphertext) |
    ciphertext], the nonce being [os.urandom(12)] and the ciphertext the
    AES-GCM encryption of the UTF-8 bytes of the message under the session
    key; it has read nothing and changed no attribute of the client.  Both
    client classes. *)
Theorem send_message_writes_one_frame (message : str) (rnd : os_entropy) (c : client) :
  (exists b c',
      ClassicalClientMessages.send_message message rnd c = (Ok b, c')
      /\ (b = true ->
          exists s s' key nonce plaintext ciphertext,
            connected c = true /\ aesgcm c = Some key /\ client_socket c = Some s
            /\ urandom rnd 12 = Ok nonce
            /\ encode_utf8 message = Ok plaintext
            /\ aesgcm_encrypt key nonce plaintext None = Ok ciphertext
            /\ c' = set_client_socket (Some s') c
            /\ tx s' = tx s ++ frame nonce ++ frame ciphertext
            /\ rx s' = rx s))
  /\ (exists b c',
         PQCClientMessages.send_message message rnd c = (Ok b, c')
         /\ (b = true ->
             exists s s' key nonce plaintext ciphertext,
               connected c = true /\ aesgcm c = Some key /\ client_socket c = Some s
               /\ urandom rnd 12 = Ok nonce
               /\ encode_utf8 message = Ok plaintext
               /\ aesgcm_encrypt key nonce plaintext None = Ok ciphertext
               /\ c' = set_client_socket (Some s') c
               /\ tx s' = tx s ++ frame nonce ++ frame ciphertext
               /\ rx s' = rx s)).
Proof.
  split.
  - destruct (classical_send_message_total message rnd c) as (b & c' & Hrun).
    exists b, c'. split; [exact Hrun|]. intros ->.
    destruct (classical_send_message_inv _ _ _ _ Hrun)
      as (s & key & nonce & pt & ct & H1 & H2 & H3 & H4 & H5 & H6 & _ & _ & H7 & H8 & H9).
    exists s. eexists. exists key, nonce, pt, ct.
    repeat (split; [eassumption|]). split; assumption.
  - destruct (pqc_send_message_total message rnd c) as (b & c' & Hrun).
    exists b, c'. split; [exact Hrun|]. intros ->.
    destruct (pqc_send_message_inv _ _ _ _ Hrun)
      as (s & key & nonce & pt & ct & H1 & H2 & H3 & H4 & H5 & H6 & _ & _ & H7 & H8 & H9).
    exists s. eexists. exists key, nonce, pt, ct.
    repeat (split; [eassumption|]). split; assumption.
Qed.
End SendMessage.

Section MessageLayer.
Context {ecdh : ECDH} {oqs : OQS} {aead : AEAD} {text : PyText}
        {enc : PyEncode} {rand : OSRandom}.

(** X2. On a client that was never connected, that has been disconnected, or
    whose [connect] has just failed, [send_message] returns [False] and
    leaves the client as it is: nothing is encrypted or sent.  Both client
    classes. *)
Theorem send_message_needs_a_channel
        (message : str) (rnd : os_entropy) (c : client) (h : string) (p : Z) :
  (ClassicalClientMessages.send_message message rnd (ClassicalClient.init h p)
   = (Ok false, ClassicalClient.init h p)
   /\ (ClassicalClient.disconnect ;;; ClassicalClientMessages.send_message message rnd) c
      = (Ok false, cleared c)
   /\ forall net rcl c',
        ClassicalClient.connect net rcl c = (Ok false, c') ->
        ClassicalClientMessages.send_message message rnd c' = (Ok false, c'))
  /\ (PQCClientMessages.send_message message rnd (PQCClient.init h p)
      = (Ok false, PQCClient.init h p)
      /\ (PQCClient.disconnect ;;; PQCClientMessages.send_message message rnd) c
         = (Ok false, cleared c)
      /\ forall net rpq c',
           PQCClient.connect net rpq c = (Ok false, c') ->
           PQCClientMessages.send_message message rnd c' = (Ok false, c')).
Proof.
  split; (split; [reflexivity|]); split.
  - unfold bind. rewrite classical_disconnect_cleared. reflexivity.
  - intros net rcl c' Hc. apply classical_send_message_unconnected.
    rewrite classical_connect_cases in Hc.
    destruct (net_refuses net); [injection Hc as <-; left; reflexivity|].
    destruct (ClassicalClient._perform_key_exchange rcl
                (set_client_socket (Some (socket_socket net)) c))
      as [[[[|b k]|]|e] c2]; try (injection Hc as <-; left; reflexivity).
    destruct (AESGCM (b :: k)); [discriminate|].
    injection Hc as <-; left; reflexivity.
  - unfold bind. rewrite pqc_disconnect_cleared. reflexivity.
  - intros net rpq c' Hc. apply pqc_send_message_unconnected.
    rewrite pqc_connect_cases in Hc.
    destruct (net_refuses net); [injection Hc as <-; left; reflexivity|].
    destruct (PQCClient._perform_pqc_key_exchange rpq
                (set_client_socket (Some (socket_socket net)) c))
      as [[[[|b k]|]|e] c2]; try (injection Hc as <-; left; reflexivity).
    destruct (AESGCM (b :: k)); [discriminate|].
    injection Hc as <-; left; reflexivity.
Qed.

(** What the server reads when its stream carries what a successful
    [send_message] has written. *)
Lemma sent_message_is_received
      (cipher nonce plaintext ciphertext rest : bytes) (message : str) (ss : socket) :
  closed ss = false ->
  len nonce < 4294967296 -> len ciphertext < 4294967296 ->
  available (rx ss) = (frame nonce ++ frame ciphertext) ++ rest ->
  nonce <> [] -> ciphertext <> [] ->
  aesgcm_decrypt cipher nonce ciphertext None = Ok plaintext ->
  decode_utf8 plaintext = Ok message ->
  exists ss',
    PQCServer._receive_encrypted_message cipher ss = (Ok (Some message), ss')
    /\ available (rx ss') = rest.
Proof.
  intros Hc Hln Hlc Hav Hn Hct Hdec Hutf. rewrite <- app_assoc in Hav.
  destruct (receive_encrypted_message_frames cipher nonce ciphertext rest ss
              Hc Hn Hct Hln Hlc Hav) as (q & Hr & Hq).
  rewrite Hdec, Hutf in Hr. exists (set_rx q ss). split; [exact Hr | exact Hq].
Qed.

(** X3. Round trip of a message.  When [send_message] has succeeded and the
    server's stream delivers the bytes it wrote, followed by [rest], then
    [_receive_encrypted_message] under the same key returns exactly the
    message that was sent and leaves the stream at [rest]; provided AES-GCM
    decrypts what it encrypted, UTF-8 decodes what it encoded, and nonce and
    ciphertext are not empty.  Both client classes. *)
Theorem message_round_trip
        (message : str) (rnd : os_entropy) (c c' : client) (sc sc' ss : socket)
        (cipher wire rest : bytes) :
  client_socket c = Some sc -> client_socket c' = Some sc' ->
  aesgcm c = Some cipher ->
  tx sc' = tx sc ++ wire ->
  closed ss = false ->
  available (rx ss) = wire ++ rest ->
  (forall nonce plaintext ciphertext,
      urandom rnd 12 = Ok nonce ->
      encode_utf8 message = Ok plaintext ->
      aesgcm_encrypt cipher nonce plaintext None = Ok ciphertext ->
      nonce <> [] /\ ciphertext <> []
      /\ aesgcm_decrypt cipher nonce ciphertext None = Ok plaintext
      /\ decode_utf8 plaintext = Ok message) ->
  (ClassicalClientMessages.send_message message rnd c = (Ok true, c')
   \/ PQCClientMessages.send_message message rnd c = (Ok true, c')) ->
  exists ss',
    PQCServer._receive_encrypted_message cipher ss = (Ok (Some message), ss')
    /\ available (rx ss') = rest.
Proof.
  intros Hsc Hsc' Hkey Htx Hc Hav Hprim Hsend.
  assert (Hinv : exists nonce plaintext ciphertext,
             urandom rnd 12 = Ok nonce
             /\ encode_utf8 message = Ok plaintext
             /\ aesgcm_encrypt cipher nonce plaintext None = Ok ciphertext
             /\ len nonce < 4294967296 /\ len ciphertext < 4294967296
             /\ wire = frame nonce ++ frame ciphertext).
  { destruct Hsend as [Hsend | Hsend];
      [ apply classical_send_message_inv in Hsend
      | apply pqc_send_message_inv in Hsend ];
      destruct Hsend
        as (s & key & nonce & pt & ct & _ & Hk & Hs & H4 & H5 & H6 & Hl1 & Hl2 & Hc'
            & Htx' & _);
      rewrite Hs in Hsc; injection Hsc as ->;
      rewrite Hk in Hkey; injection Hkey as ->;
      subst c'; cbn [client_socket set_client_socket] in Hsc'; injection Hsc' as <-;
      rewrite Htx' in Htx; apply app_inv_head in Htx;
      exists nonce, pt, ct; auto 10. }
  destruct Hinv as (nonce & pt & ct & H1 & H2 & H3 & Hl1 & Hl2 & ->).
  destruct (Hprim nonce pt ct H1 H2 H3) as (Hn & Hct & Hdec & Hutf).
  exact (sent_message_is_received cipher nonce pt ct rest message ss
           Hc Hl1 Hl2 Hav Hn Hct Hdec Hutf).
Qed.
End MessageLayer.

Lemma message_round_trip_witness :
  exists ss',
    PQCServer._receive_encrypted_message (aead := Toy.toy_aead) (text := Toy.toy_text)
      DemoIO.session_key (Demo.socket_with (DemoIO.hello_wire ++ [x00]))
    = (Ok (Some (str_of_string "hello")), ss')
    /\ available (rx ss') = [x00].
Proof.
  apply (@message_round_trip Toy.toy_aead Toy.toy_text ToyIO.toy_encode ToyIO.toy_random
           (str_of_string "hello") 1 DemoIO.connected_client DemoIO.after_hello
           (DemoIO.socket_of DemoIO.connected_client) (DemoIO.socket_of DemoIO.after_hello)
           (Demo.socket_with (DemoIO.hello_wire ++ [x00]))
           DemoIO.session_key DemoIO.hello_wire [x00]).
  - vm_compute. reflexivity.
  - vm_compute. reflexivity.
  - vm_compute. reflexivity.
  - vm_compute. reflexivity.
  - reflexivity.
  - vm_compute. reflexivity.
  - intros nonce plaintext ciphertext H1 H2 H3.
    vm_compute in H1. injection H1 as <-.
    vm_compute in H2. injection H2 as <-.
    vm_compute in H3. injection H3 as <-.
    vm_compute. repeat split; try reflexivity; discriminate.
  - left. vm_compute. reflexivity.
Defined.

(** ** The serve loop on a stream of messages *)

Section ServeStream.
Context {oqs : OQS} {aead : AEAD} {text : PyText}.

Lemma serve_loop_step (fuel : nat) (cipher : bytes) (sv : server) (s : socket)
      (c : loop_ctl) (st' : server * socket) :
  running sv = true ->
  PQCServer.serve_body cipher (sv, s) = (Ok c, st') ->
  PQCServer.serve_loop (S fuel) cipher (sv, s) =
  match c with
  | Break => (Ok (Done tt), st')
  | Continue => PQCServer.serve_loop fuel cipher st'
  end.
Proof.
  intros Hrun Hbody. cbn [PQCServer.serve_loop].
  unfold bind at 1, gets at 1. cbn [fst]. rewrite Hrun.
  unfold bind at 1. rewrite Hbody. destruct c; reflexivity.
Qed.

Lemma serve_body_none (cipher : bytes) (sv : server) (s s' : socket) :
  PQCServer._receive_encrypted_message cipher s = (Ok None, s') ->
  PQCServer.serve_body cipher (sv, s) = (Ok Break, (sv, s')).
Proof.
  intros Hrecv. unfold PQCServer.serve_body, try_except.
  unfold bind at 1. unfold on_conn at 1. cbn [fst snd]. rewrite Hrecv. reflexivity.
Qed.

Lemma running_delivered (m : str) (sv : server) :
  running (delivered m sv) = running sv.
Proof. unfold delivered. destruct (message_received_event sv); reflexivity. Qed.

(** X5. A ciphertext frame that does not authenticate under the session key,
    or whose plaintext is not UTF-8, is consumed and dropped: the receive
    returns [None], the serve loop ends at once and the server object is
    unchanged (no message stored, event not set), although the stream goes
    on behind the frame. *)
Theorem unauthenticated_message_ends_serving
        (fuel : nat) (cipher nonce ct rest : bytes) (sv : server) (s : socket) :
  running sv = true ->
  closed s = false ->
  nonce <> [] -> ct <> [] ->
  len nonce < 4294967296 -> len ct < 4294967296 ->
  available (rx s) = frame nonce ++ frame ct ++ rest ->
  (forall plaintext message,
      aesgcm_decrypt cipher nonce ct None = Ok plaintext ->
      decode_utf8 plaintext <> Ok message) ->
  exists s',
    PQCServer._receive_encrypted_message cipher s = (Ok None, s')
    /\ PQCServer.serve_loop (S fuel) cipher (sv, s) = (Ok (Done tt), (sv, s'))
    /\ available (rx s') = rest.
Proof.
  intros Hrun Hc Hn Hct Hln Hlc Hav Hbad.
  destruct (receive_encrypted_message_frames cipher nonce ct rest s
              Hc Hn Hct Hln Hlc Hav) as (q & Hr & Hq).
  assert (Hnone : PQCServer._receive_encrypted_message cipher s = (Ok None, set_rx q s)).
  { rewrite Hr. destruct (aesgcm_decrypt cipher nonce ct None) as [pt|e];
      [|reflexivity].
    destruct (decode_utf8 pt) as [m|e] eqn:Hd; [|reflexivity].
    exfalso. exact (Hbad pt m eq_refl Hd). }
  exists (set_rx q s). split; [exact Hnone|]. split; [|exact Hq].
  rewrite (serve_loop_step fuel cipher sv s Break (sv, set_rx q s) Hrun
             (serve_body_none cipher sv s (set_rx q s) Hnone)).
  reflexivity.
Qed.

Lemma receive_on_ended_stream (cipher : bytes) (s : socket) :
  available (rx s) = [] ->
  exists s', PQCServer._receive_encrypted_message cipher s = (Ok None, s').
Proof.
  intros Hav.
  destruct (server_receive_message_total cipher s) as ([m|] & s' & Hrun); [|eauto].
  exfalso. destruct (server_receive_message_inv _ _ Hrun) as (n & c & pt & Hp & _).
  rewrite Hav in Hp. apply parsed_no_payload in Hp. destruct Hp as [Hne _]. congruence.
Qed.

Lemma serve_loop_stream (cipher : bytes) (msgs : list (bytes * bytes * str)) :
  forall (fuel : nat) (sv : server) (s : socket) (rest : bytes),
    running sv = true ->
    closed s = false ->
    Forall (readable cipher) msgs ->
    available (rx s) = message_wire msgs ++ rest ->
    existsb is_sentinel (map snd msgs) = true \/ rest = [] ->
    (length msgs < fuel)%nat ->
    exists s',
      PQCServer.serve_loop fuel cipher (sv, s)
      = (Ok (Done tt), (after_serving (map snd msgs) sv, s'))
      /\ (existsb is_sentinel (map snd msgs) = true ->
          available (rx s') = message_wire (unserved msgs) ++ rest).
Proof.
  induction msgs as [|[[nonce ct] m] msgs IH];
    intros fuel sv s rest Hrun Hc Hok Hav Hend Hfuel.
  - destruct fuel as [|fuel]; [simpl in Hfuel; lia|].
    destruct Hend as [Hend | ->]; [discriminate Hend|].
    cbn in Hav. destruct (receive_on_ended_stream cipher s Hav) as (s' & Hnone).
    exists s'. split; [|intros Hex; discriminate Hex].
    rewrite (serve_loop_step fuel cipher sv s Break (sv, s') Hrun
               (serve_body_none cipher sv s s' Hnone)).
    reflexivity.
  - destruct fuel as [|fuel]; [simpl in Hfuel; lia|].
    inversion Hok as [|? ? Hm Hmsgs]; subst.
    destruct Hm as (Hn & Hct & Hln & Hlc & pt & Hdec & Hutf & Hprint).
    cbn [fst snd] in *.
    unfold message_wire in Hav. cbn [map concat fst snd] in Hav.
    fold (message_wire msgs) in Hav. rewrite <- !app_assoc in Hav.
    destruct (receive_encrypted_message_frames cipher nonce ct
                (message_wire msgs ++ rest) s Hc Hn Hct Hln Hlc Hav) as (q & Hr & Hq).
    rewrite Hdec, Hutf in Hr.
    pose proof (@serve_body_message _ _ cipher sv s (set_rx q s) m Hr Hprint) as Hbody.
    unfold after_serving. cbn [map snd served unserved existsb].
    fold (is_sentinel m) in Hbody.
    destruct (is_sentinel m) eqn:Hs.
    + exists (set_rx q s). split; [|intros _; exact Hq].
      rewrite (serve_loop_step fuel cipher sv s Break _ Hrun Hbody). reflexivity.
    + rewrite (serve_loop_step fuel cipher sv s Continue _ Hrun Hbody).
      cbn [fold_left orb].
      apply (IH fuel (delivered m sv) (set_rx q s) rest).
      * rewrite running_delivered. exact Hrun.
      * exact Hc.
      * exact Hmsgs.
      * exact Hq.
      * cbn [map existsb snd] in Hend. rewrite Hs in Hend. exact Hend.
      * simpl in Hfuel. lia.
Qed.
End ServeStream.

Lemma unauthenticated_message_ends_serving_witness :
  exists s',
    PQCServer.serve_loop (aead := Toy.toy_aead) (text := Toy.toy_text) 3 [x01]
      (Demo.listening_server,
       Demo.socket_with (frame [x02] ++ frame [x68; x00] ++ Demo.message_frame "hello"))
    = (Ok (Done tt), (Demo.listening_server, s'))
    /\ available (rx s') = Demo.message_frame "hello".
Proof.
  destruct (@unauthenticated_message_ends_serving Toy.toy_aead Toy.toy_text
              2%nat [x01] [x02] [x68; x00] (Demo.message_frame "hello")
              Demo.listening_server
              (Demo.socket_with
                 (frame [x02] ++ frame [x68; x00] ++ Demo.message_frame "hello")))
    as (s' & _ & Hloop & Hrest).
  - reflexivity.
  - reflexivity.
  - discriminate.
  - discriminate.
  - reflexivity.
  - reflexivity.
  - vm_compute. reflexivity.
  - intros plaintext message H. vm_compute in H. discriminate H.
  - exists s'. split; [exact Hloop | exact Hrest].
Defined.

(** ** Honest peers complete the handshake *)

Lemma sendall_ok (data : bytes) (s : socket) :
  closed s = false -> tx_credit s = None ->
  Socket.sendall data s = (Ok tt, sent data s).
Proof.
  intros Hc Hcr. unfold Socket.sendall, sent. rewrite Hc, Hcr. reflexivity.
Qed.

Lemma to_bytes4_ok (n : Z) : 0 <= n < 4294967296 -> to_bytes4 n = Ok (be32 n).
Proof.
  intros Hn. unfold to_bytes4.
  destruct (0 <=? n) eqn:H0; [|apply Z.leb_gt in H0; lia].
  destruct (n <? 4294967296) eqn:H1; [reflexivity | apply Z.ltb_ge in H1; lia].
Qed.

(** Run the next library call, whose result is known. *)
Ltac fwd_lift H :=
  unfold bind at 1; unfold lift at 1; rewrite H; cbv beta iota.

Ltac fwd_len Hlen :=
  unfold bind at 1; unfold lift at 1;
  rewrite to_bytes4_ok by (split; [apply len_nonneg | exact Hlen]);
  cbv beta iota.

(** Run the next [sendall] on an open socket with unlimited credit. *)
Ltac fwd_send Hcr :=
  unfold bind at 1;
  rewrite sendall_ok
    by (cbn [closed tx_credit sent set_rx]; rewrite ?Hcr;
        first [assumption | reflexivity]);
  cbv beta iota.

(** Run the two reads of the frame of [p], the stream being at
    [frame p ++ rest]. *)
Ltac fwd_frame p rest Hlen Hav :=
  unfold bind at 1;
  match goal with
  | |- context [receive_exact Socket.recv 4 ?st] =>
      let b0 := fresh "b" in
      let l0 := fresh "l" in
      let q1 := fresh "q" in
      let q2 := fresh "q" in
      let Hr1 := fresh "Hr" in
      let Hr2 := fresh "Hr" in
      let Hq := fresh "Hq" in
      let Hcl := fresh "Hcl" in
      let Hst := fresh "Hst" in
      assert (Hcl : closed st = false)
        by (cbn [closed sent set_rx]; first [reflexivity | assumption]);
      assert (Hst : available (rx st) = frame p ++ rest)
        by (cbn [rx sent set_rx]; exact Hav);
      destruct (socket_receive_frame p rest st Hcl Hlen Hst)
        as (b0 & l0 & q1 & q2 & Hr1 & Hr2 & Hq);
      clear Hcl Hst;
      rewrite Hr1; cbv beta iota;
      unfold bind at 1; rewrite Hr2; cbv beta iota;
      rewrite ?set_rx_set_rx in *
  end.

Section HonestHandshake.
Context {oqs : OQS}.

Lemma server_pqc_key_exchange_fwd
      (rs : oqs_entropy) (s : socket) (skS : sig_secret_key)
      (pkS pkC kpk ksig ct secret csig rest : bytes) :
  closed s = false -> tx_credit s = None ->
  KeyEncapsulation "Kyber768" = Ok tt -> Signature "ML-DSA-65" = Ok tt ->
  sig_generate_keypair rs = Ok (pkS, skS) ->
  available (rx s) = frame pkC ++ frame kpk ++ frame ksig ++ rest ->
  pkC <> [] -> kpk <> [] -> ksig <> [] ->
  len pkC < 4294967296 -> len kpk < 4294967296 -> len ksig < 4294967296 ->
  sig_verify kpk ksig pkC = Ok true ->
  kem_encap_secret rs kpk = Ok (ct, secret) ->
  sig_sign rs skS ct = Ok csig ->
  len pkS < 4294967296 -> len ct < 4294967296 -> len csig < 4294967296 ->
  exists s',
    PQCServer._perform_pqc_key_exchange rs s = (Ok (Some (firstn 32 secret)), s')
    /\ tx s' = tx s ++ frame pkS ++ frame ct ++ frame csig
    /\ available (rx s') = rest
    /\ closed s' = false.
Proof.
  intros Hc Hcr Hkem Hsig Hgen Hav HnC Hnk Hns HlC Hlk Hls Hver Henc Hsign HlS Hlct Hlcs.
  destruct pkC as [|c0 pkC]; [congruence|].
  destruct kpk as [|k0 kpk]; [congruence|].
  destruct ksig as [|g0 ksig]; [congruence|].
  unfold PQCServer._perform_pqc_key_exchange, PQCServer._receive_exact, try_except.
  fwd_lift Hkem. fwd_lift Hsig. fwd_lift Hgen.
  fwd_len HlS. fwd_send Hcr. fwd_send Hcr.
  fwd_frame (c0 :: pkC) (frame (k0 :: kpk) ++ frame (g0 :: ksig) ++ rest) HlC Hav.
  fwd_frame (k0 :: kpk) (frame (g0 :: ksig) ++ rest) Hlk Hq.
  fwd_frame (g0 :: ksig) rest Hls Hq0.
  fwd_lift Hver. cbn [negb]. fwd_lift Henc. fwd_lift Hsign.
  fwd_len Hlct. fwd_send Hcr. fwd_send Hcr.
  fwd_len Hlcs. fwd_send Hcr. fwd_send Hcr.
  unfold ret. eexists. split; [reflexivity|].
  cbn [tx rx closed sent set_rx]. unfold frame. rewrite <- !app_assoc.
  repeat split; assumption || reflexivity.
Qed.
End HonestHandshake.

Lemma set_client_socket_twice (o o' : option socket) (c : client) :
  set_client_socket o (set_client_socket o' c) = set_client_socket o c.
Proof. reflexivity. Qed.

Lemma client_sendall_ok (data : bytes) (c : client) (s : socket) :
  client_socket c = Some s -> closed s = false -> tx_credit s = None ->
  on_client_socket (Socket.sendall data) c
  = (Ok tt, set_client_socket (Some (sent data s)) c).
Proof.
  intros Hs Hc Hcr. unfold on_client_socket. rewrite Hs.
  rewrite (sendall_ok data s Hc Hcr). reflexivity.
Qed.

Lemma client_receive_frame (p rest : bytes) (c : client) (s : socket) :
  client_socket c = Some s -> closed s = false -> len p < 4294967296 ->
  available (rx s) = frame p ++ rest ->
  exists b0 l0 q1 q2,
    receive_exact (fun k => on_client_socket (Socket.recv k)) 4 c
    = (Ok (Some (b0 :: l0)), set_client_socket (Some (set_rx q1 s)) c)
    /\ receive_exact (fun k => on_client_socket (Socket.recv k))
         (from_bytes (b0 :: l0)) (set_client_socket (Some (set_rx q1 s)) c)
       = (Ok (Some p), set_client_socket (Some (set_rx q2 s)) c)
    /\ available q2 = rest.
Proof.
  intros Hs Hc Hp Hav.
  destruct (socket_receive_frame p rest s Hc Hp Hav)
    as (b0 & l0 & q1 & q2 & Hr1 & Hr2 & Hq).
  exists b0, l0, q1, q2. split; [|split; [|exact Hq]].
  - rewrite (@client_receive_exact_socket 4 c s Hs), Hr1. reflexivity.
  - rewrite (@client_receive_exact_socket _ (set_client_socket (Some (set_rx q1 s)) c)
               (set_rx q1 s) eq_refl), Hr2.
    reflexivity.
Qed.

(** The same steps on [self.client_socket]. *)
Ltac fwd_csend Hcr :=
  unfold bind at 1;
  erewrite client_sendall_ok
    by (cbn [client_socket set_client_socket closed tx_credit sent set_rx];
        rewrite ?Hcr; first [reflexivity | eassumption]);
  cbv beta iota; rewrite ?set_client_socket_twice.

Ltac fwd_cframe p rest Hlen Hav :=
  unfold bind at 1;
  match goal with
  | |- context [receive_exact _ 4 ?cl] =>
      let so := eval cbn [client_socket set_client_socket] in (client_socket cl) in
      match so with
      | Some ?st =>
          let b0 := fresh "b" in
          let l0 := fresh "l" in
          let q1 := fresh "q" in
          let q2 := fresh "q" in
          let Hr1 := fresh "Hr" in
          let Hr2 := fresh "Hr" in
          let Hq := fresh "Hq" in
          let Hcl := fresh "Hcl" in
          let Hst := fresh "Hst" in
          assert (Hcl : closed st = false)
            by (cbn [closed sent set_rx]; first [reflexivity | assumption]);
          assert (Hst : available (rx st) = frame p ++ rest)
            by (cbn [rx sent set_rx]; exact Hav);
          destruct (client_receive_frame p rest cl st eq_refl Hcl Hlen Hst)
            as (b0 & l0 & q1 & q2 & Hr1 & Hr2 & Hq);
          clear Hcl Hst;
          rewrite ?set_client_socket_twice in *;
          rewrite Hr1; cbv beta iota;
          unfold bind at 1; rewrite Hr2; cbv beta iota;
          rewrite ?set_rx_set_rx in *
      end
  end.

Section HonestClients.
Context {oqs : OQS} {ecdh : ECDH}.

Lemma client_pqc_key_exchange_fwd
      (rc : oqs_entropy) (c : client) (s : socket)
      (skC : sig_secret_key) (ksk : kem_secret_key)
      (pkC kpk ksig pkS ct csig secret rest : bytes) :
  client_socket c = Some s -> closed s = false -> tx_credit s = None ->
  KeyEncapsulation "Kyber768" = Ok tt -> Signature "ML-DSA-65" = Ok tt ->
  sig_generate_keypair rc = Ok (pkC, skC) ->
  kem_generate_keypair rc = Ok (kpk, ksk) ->
  sig_sign rc skC kpk = Ok ksig ->
  len pkC < 4294967296 -> len kpk < 4294967296 -> len ksig < 4294967296 ->
  available (rx s) = frame pkS ++ frame ct ++ frame csig ++ rest ->
  pkS <> [] -> ct <> [] -> csig <> [] ->
  len pkS < 4294967296 -> len ct < 4294967296 -> len csig < 4294967296 ->
  sig_verify ct csig pkS = Ok true ->
  kem_decap_secret ksk ct = Ok secret ->
  exists s',
    PQCClient._perform_pqc_key_exchange rc c
    = (Ok (Some (firstn 32 secret)), set_client_socket (Some s') c)
    /\ tx s' = tx s ++ frame pkC ++ frame kpk ++ frame ksig
    /\ available (rx s') = rest
    /\ closed s' = false.
Proof.
  intros Hs Hc Hcr Hkem Hsig Hgen Hkgen Hsign HlC Hlk Hls Hav HnS Hnct Hncs
    HlS Hlct Hlcs Hver Hdec.
  destruct c as [h p so ci co]. cbn [client_socket] in Hs. subst so.
  destruct pkS as [|s0 pkS]; [congruence|].
  destruct ct as [|t0 ct]; [congruence|].
  destruct csig as [|g0 csig]; [congruence|].
  unfold PQCClient._perform_pqc_key_exchange, PQCClient._receive_exact, try_except.
  fwd_lift Hkem. fwd_lift Hsig. fwd_lift Hgen.
  fwd_cframe (s0 :: pkS) (frame (t0 :: ct) ++ frame (g0 :: csig) ++ rest) HlS Hav.
  fwd_len HlC. fwd_csend Hcr. fwd_csend Hcr.
  fwd_lift Hkgen. fwd_lift Hsign.
  fwd_len Hlk. fwd_csend Hcr. fwd_csend Hcr.
  fwd_len Hls. fwd_csend Hcr. fwd_csend Hcr.
  fwd_cframe (t0 :: ct) (frame (g0 :: csig) ++ rest) Hlct Hq.
  fwd_cframe (g0 :: csig) rest Hlcs Hq0.
  fwd_lift Hver. cbn [negb]. fwd_lift Hdec.
  unfold ret. eexists. split; [reflexivity|].
  cbn [tx rx closed sent set_rx]. unfold frame. rewrite <- !app_assoc.
  repeat split; assumption || reflexivity.
Qed.
End HonestClients.

Section HonestPQCHandshake.
Context {oqs : OQS}.

(** X6. The post-quantum handshake of two honest peers completes.  When the
    library calls succeed, each signature verifies under its signer's public
    key, decapsulation returns the encapsulated secret, and each peer's
    stream carries the three frames the other writes, then the client's and
    the server's key exchange both return the first 32 bytes of that secret;
    the client has written exactly its signature key, its KEM key and the
    signature over it, the server exactly its signature key, the ciphertext
    and the signature over it, each as a length-prefixed frame; both
    connections stay open and what follows the handshake in a stream is left
    unread. *)
Theorem pqc_handshake_completes
        (rc rs : oqs_entropy) (c : client) (sc ss : socket)
        (skC skS : sig_secret_key) (ksk : kem_secret_key)
        (pkC kpk ksig pkS ct csig secret restC restS : bytes) :
  client_socket c = Some sc ->
  closed sc = false -> tx_credit sc = None ->
  closed ss = false -> tx_credit ss = None ->
  KeyEncapsulation "Kyber768" = Ok tt -> Signature "ML-DSA-65" = Ok tt ->
  sig_generate_keypair rc = Ok (pkC, skC) ->
  kem_generate_keypair rc = Ok (kpk, ksk) ->
  sig_sign rc skC kpk = Ok ksig ->
  sig_generate_keypair rs = Ok (pkS, skS) ->
  kem_encap_secret rs kpk = Ok (ct, secret) ->
  sig_sign rs skS ct = Ok csig ->
  sig_verify kpk ksig pkC = Ok true ->
  sig_verify ct csig pkS = Ok true ->
  kem_decap_secret ksk ct = Ok secret ->
  Forall (fun b => b <> [] /\ len b < 4294967296) [pkC; kpk; ksig; pkS; ct; csig] ->
  available (rx sc) = frame pkS ++ frame ct ++ frame csig ++ restC ->
  available (rx ss) = frame pkC ++ frame kpk ++ frame ksig ++ restS ->
  exists sc' ss',
    PQCClient._perform_pqc_key_exchange rc c
    = (Ok (Some (firstn 32 secret)), set_client_socket (Some sc') c)
    /\ PQCServer._perform_pqc_key_exchange rs ss = (Ok (Some (firstn 32 secret)), ss')
    /\ tx sc' = tx sc ++ frame pkC ++ frame kpk ++ frame ksig
    /\ tx ss' = tx ss ++ frame pkS ++ frame ct ++ frame csig
    /\ available (rx sc') = restC /\ available (rx ss') = restS
    /\ closed sc' = false /\ closed ss' = false.
Proof.
  intros Hc Hoc Hcc Hos Hcs Hkem Hsig HgC HkC HsC HgS Henc HsS HvC HvS Hdec Hall HavC HavS.
  repeat match goal with
         | H : Forall _ (_ :: _) |- _ => inversion H; subst; clear H
         | H : _ /\ _ |- _ => destruct H
         end.
  destruct (client_pqc_key_exchange_fwd rc c sc skC ksk pkC kpk ksig pkS ct csig
              secret restC) as (sc' & Hrun & Htx & Hrx & Hcl); try assumption.
  destruct (server_pqc_key_exchange_fwd rs ss skS pkS pkC kpk ksig ct secret csig
              restS) as (ss' & HrunS & HtxS & HrxS & HclS); try assumption.
  exists sc', ss'. repeat split; assumption.
Qed.
End HonestPQCHandshake.

Lemma pqc_handshake_completes_witness :
  exists sc' ss',
    PQCClient._perform_pqc_key_exchange (oqs := Toy.toy_oqs) 3
      (Demo.client_with Demo.pqc_server_bytes)
    = (Ok (Some (map (fun i => byte_of_Z (11 + 5 * Z.of_nat i)) (seq 0 32))),
       set_client_socket (Some sc') (Demo.client_with Demo.pqc_server_bytes))
    /\ PQCServer._perform_pqc_key_exchange (oqs := Toy.toy_oqs) 11
         (Demo.socket_with Demo.pqc_client_bytes)
       = (Ok (Some (map (fun i => byte_of_Z (11 + 5 * Z.of_nat i)) (seq 0 32))), ss')
    /\ tx sc' = Demo.pqc_client_bytes
    /\ tx ss' = Demo.pqc_server_bytes.
Proof.
  destruct (@pqc_handshake_completes Toy.toy_oqs 3 11
              (Demo.client_with Demo.pqc_server_bytes)
              (Demo.socket_with Demo.pqc_server_bytes)
              (Demo.socket_with Demo.pqc_client_bytes)
              10 18 3
              [x0a] [x03; x04] [x11] [x12]
              (map (fun i => byte_of_Z (14 + 5 * Z.of_nat i)) (seq 0 32))
              [byte_of_Z (sum_bytes (map (fun i => byte_of_Z (14 + 5 * Z.of_nat i))
                                         (seq 0 32)) + 18)]
              (map (fun i => byte_of_Z (11 + 5 * Z.of_nat i)) (seq 0 32))
              [] [])
    as (sc' & ss' & Hc & Hs & Htc & Hts & _).
  - reflexivity.
  - reflexivity.
  - reflexivity.
  - reflexivity.
  - reflexivity.
  - reflexivity.
  - reflexivity.
  - reflexivity.
  - reflexivity.
  - reflexivity.
  - reflexivity.
  - vm_compute. reflexivity.
  - vm_compute. reflexivity.
  - vm_compute. reflexivity.
  - vm_compute. reflexivity.
  - vm_compute. reflexivity.
  - repeat constructor; try discriminate; vm_compute; reflexivity.
  - vm_compute. reflexivity.
  - vm_compute. reflexivity.
  - exists sc', ss'. split; [exact Hc|]. split; [exact Hs|]. split.
    + rewrite Htc. vm_compute. reflexivity.
    + rewrite Hts. vm_compute. reflexivity.
Defined.

(** ** The handler of a connection *)

Lemma set_rx_same (s : socket) : set_rx (rx s) s = s.
Proof. destruct s; reflexivity. Qed.

Lemma reads_only_ret (A : Type) (a : A) : reads_only (ret a).
Proof. intros s r s' H. injection H as <- <-. symmetry. apply set_rx_same. Qed.

Lemma reads_only_lift (A : Type) (x : res A) : reads_only (lift x).
Proof. intros s r s' H. injection H as <- <-. symmetry. apply set_rx_same. Qed.

Lemma reads_only_bind (A B : Type) (m : M socket A) (k : A -> M socket B) :
  reads_only m -> (forall a, reads_only (k a)) -> reads_only (bind m k).
Proof.
  intros Hm Hk s r s' H. unfold bind in H.
  destruct (m s) as [[a|e] s1] eqn:Hms.
  - apply Hk in H. apply Hm in Hms. rewrite H, Hms at 1. apply set_rx_set_rx.
  - injection H as <- <-. exact (Hm _ _ _ Hms).
Qed.

Lemma reads_only_try_except (A : Type) (m : M socket A) (h : exn -> M socket A) :
  reads_only m -> (forall e, reads_only (h e)) -> reads_only (try_except m h).
Proof.
  intros Hm Hh s r s' H. unfold try_except in H.
  destruct (m s) as [[a|e] s1] eqn:Hms.
  - injection H as <- <-. exact (Hm _ _ _ Hms).
  - apply Hh in H. apply Hm in Hms. rewrite H, Hms at 1. apply set_rx_set_rx.
Qed.

Lemma reads_only_recv (n : Z) : reads_only (Socket.recv n).
Proof.
  intros s r s' H. unfold Socket.recv in H.
  destruct (closed s); [injection H as <- <-; symmetry; apply set_rx_same|].
  destruct (n <? 0); [injection H as <- <-; symmetry; apply set_rx_same|].
  destruct (rx s) as [|[c|e] q] eqn:Hrx; injection H as <- <-;
    [symmetry; apply set_rx_same | |]; destruct s; reflexivity.
Qed.

Lemma reads_only_loop (fuel : nat) (n : Z) :
  forall (data : bytes) (s : socket) r (s' : socket),
    receive_exact_loop Socket.recv fuel n data s = (r, s') -> s' = set_rx (rx s') s.
Proof.
  induction fuel as [|fuel IH]; intros data s r s' H; cbn [receive_exact_loop] in H.
  - destruct (len data <? n); injection H as <- <-; symmetry; apply set_rx_same.
  - destruct (len data <? n); [|injection H as <- <-; symmetry; apply set_rx_same].
    destruct (Socket.recv (n - len data) s) as [[[|b chunk]|e] s1] eqn:Hrecv.
    + injection H as <- <-. exact (reads_only_recv _ _ _ _ Hrecv).
    + apply IH in H. apply reads_only_recv in Hrecv.
      rewrite H, Hrecv at 1. apply set_rx_set_rx.
    + injection H as <- <-. exact (reads_only_recv _ _ _ _ Hrecv).
Qed.

Lemma reads_only_receive_exact (n : Z) : reads_only (receive_exact Socket.recv n).
Proof.
  intros s r s' H. unfold receive_exact in H.
  destruct (receive_exact_loop Socket.recv (Z.to_nat n) n [] s) as [[x|] s1] eqn:Hl;
    injection H as <- <-; exact (reads_only_loop _ _ _ _ _ _ Hl).
Qed.

Section Handler.
Context {oqs : OQS} {aead : AEAD} {text : PyText}.

(** The message reception only reads. *)
Lemma receive_encrypted_message_reads_only (cipher : bytes) :
  reads_only (PQCServer._receive_encrypted_message cipher).
Proof.
  unfold PQCServer._receive_encrypted_message, PQCServer._receive_exact.
  repeat first
    [ apply reads_only_try_except
    | apply reads_only_bind
    | apply reads_only_receive_exact
    | apply reads_only_lift
    | apply reads_only_ret
    | intros [[|? ?]|]
    | intro ].
Qed.

Lemma same_listener_refl (sv : server) : same_listener sv sv.
Proof. repeat split. Qed.

Lemma same_listener_delivered (m : str) (sv sv' : server) :
  same_listener (delivered m sv) sv' -> same_listener sv sv'.
Proof.
  unfold same_listener, delivered.
  destruct (message_received_event sv); cbn; intros H; exact H.
Qed.

(** The serve loop never raises, only reads from the connection, and leaves
    the listening side of the server object as it was; a server that is not
    running is left untouched. *)
Lemma serve_loop_listens (cipher : bytes) (fuel : nat) :
  forall (sv : server) (s : socket),
  exists r sv' s',
    PQCServer.serve_loop fuel cipher (sv, s) = (Ok r, (sv', s'))
    /\ s' = set_rx (rx s') s
    /\ same_listener sv sv'
    /\ (running sv = false -> sv' = sv).
Proof.
  induction fuel as [|fuel IH]; intros sv s.
  - cbn [PQCServer.serve_loop]. unfold bind, gets, ret. cbn [fst].
    destruct (running sv); do 3 eexists; (split; [reflexivity|]);
      (split; [symmetry; apply set_rx_same|]); split;
      try apply same_listener_refl; reflexivity || discriminate.
  - destruct (running sv) eqn:Hrun.
    + destruct (server_receive_message_total cipher s) as ([msg|] & s1 & Hrecv).
      * pose proof (receive_encrypted_message_reads_only cipher _ _ _ Hrecv) as Hs1.
        destruct (stdout_print msg) as [[]|e] eqn:Hprint.
        -- rewrite (serve_loop_step fuel cipher sv s _ _ Hrun
                      (@serve_body_message _ _ cipher sv s s1 msg Hrecv Hprint)).
           destruct (str_eqb (lower msg) (str_of_string "exit")).
           ++ do 3 eexists. split; [reflexivity|]. split; [exact Hs1|].
              split; [|discriminate].
              apply (same_listener_delivered msg). apply same_listener_refl.
           ++ destruct (IH (delivered msg sv) s1)
                as (r & sv' & s' & Hloop & Hs' & Hl & _).
              exists r, sv', s'. split; [exact Hloop|]. split.
              ** rewrite Hs', Hs1 at 1. apply set_rx_set_rx.
              ** split; [|discriminate].
                 exact (same_listener_delivered msg sv sv' Hl).
        -- rewrite (serve_loop_step fuel cipher sv s _ _ Hrun
                      (@serve_body_unprintable _ _ cipher sv s s1 msg e Hrecv Hprint)).
           do 3 eexists. split; [reflexivity|]. split; [exact Hs1|].
           split; [apply same_listener_refl | discriminate].
      * pose proof (receive_encrypted_message_reads_only cipher _ _ _ Hrecv) as Hs1.
        rewrite (serve_loop_step fuel cipher sv s _ _ Hrun
                   (serve_body_none cipher sv s s1 Hrecv)).
        do 3 eexists. split; [reflexivity|]. split; [exact Hs1|].
        split; [apply same_listener_refl | discriminate].
    + cbn [PQCServer.serve_loop]. unfold bind, gets, ret. cbn [fst]. rewrite Hrun.
      do 3 eexists. split; [reflexivity|]. split; [symmetry; apply set_rx_same|].
      split; [apply same_listener_refl | reflexivity].
Qed.
End Handler.

Section HandlerTheorem.
Context {oqs : OQS} {aead : AEAD} {text : PyText}.

(** What every run of the handler does, whatever the peer sends. *)
Lemma handle_client_facts
        (fuel : nat) (rnd : oqs_entropy) (sv : server) (s : socket) :
  exists r sv' s',
    PQCServer._handle_client fuel rnd (sv, s) = (Ok r, (sv', s'))
    /\ closed s' = true
    /\ tx s' = tx (snd (PQCServer._perform_pqc_key_exchange rnd s))
    /\ same_listener sv sv'
    /\ (fst (PQCServer._perform_pqc_key_exchange rnd s) = Ok None
        \/ running sv = false -> sv' = sv).
Proof.
  unfold PQCServer._handle_client, try_except, try_finally.
  unfold bind at 1. unfold on_conn at 1. cbn [fst snd].
  destruct (server_pqc_key_exchange_total rnd s) as (k & s1 & Hkex). rewrite Hkex.
  cbn [fst snd].
  assert (Hclose : forall (res0 : res (loop_res unit)) (sv1 : server) (s2 : socket),
             (exists r0, res0 = Ok r0) \/ (exists e, res0 = Exc e) ->
             exists r s',
               match (match on_conn Socket.close (sv1, s2) with
                      | (Ok _, s'') => (res0, s'')
                      | (Exc e, s'') => (Exc e, s'')
                      end) with
               | (Ok a, st) => (Ok a, st)
               | (Exc _, st) => ret (Done tt) st
               end = (Ok r, (sv1, s')) /\ closed s' = true /\ tx s' = tx s2).
  { intros res0 sv1 s2 Hres. unfold on_conn, Socket.close, ret. cbn [fst snd].
    destruct (closed s2) eqn:Hc2; [|destruct (close_fails s2)];
      destruct Hres as [[r0 ->]|[e ->]]; do 2 eexists;
      (split; [reflexivity|]); split; assumption || reflexivity. }
  destruct k as [[|b k]|].
  - destruct (Hclose (Ok (Done tt)) sv s1) as (r & s' & Heq & Hc & Htx); [eauto|].
    exists r, sv, s'. split; [exact Heq|].
    repeat split; assumption || reflexivity.
  - unfold bind at 1. unfold lift at 1.
    destruct (AESGCM (b :: k)) as [cipher|e].
    + destruct (serve_loop_listens cipher fuel sv s1)
        as (r1 & sv1 & s2 & Hloop & Hs2 & Hl & Hstop).
      rewrite Hloop.
      destruct (Hclose (Ok r1) sv1 s2) as (r & s' & Heq & Hc & Htx); [eauto|].
      exists r, sv1, s'. split; [exact Heq|]. split; [exact Hc|]. split.
      * rewrite Htx, Hs2. reflexivity.
      * split; [exact Hl|]. intros [Hnone | Hrun]; [discriminate Hnone | auto].
    + destruct (Hclose (Exc e) sv s1) as (r & s' & Heq & Hc & Htx); [eauto|].
      exists r, sv, s'. split; [exact Heq|].
      repeat split; assumption || reflexivity.
  - destruct (Hclose (Ok (Done tt)) sv s1) as (r & s' & Heq & Hc & Htx); [eauto|].
    exists r, sv, s'. split; [exact Heq|].
    repeat split; assumption || reflexivity.
Qed.

(** X7. The handler of a connection never raises and always leaves the
    accepted socket closed, whatever the peer sent and however the handshake
    or the session ended.  After the handshake it writes nothing more: the
    bytes sent on the connection are those of the key exchange.  It leaves
    the listening side of the server object (host, port, listening socket,
    running flag) as it was, and it leaves the whole object untouched when
    the key exchange fails or the server is not running. *)
Theorem handle_client_closes_and_only_listens
        (fuel : nat) (rnd : oqs_entropy) (sv : server) (s : socket) :
  exists r sv' s',
    PQCServer._handle_client fuel rnd (sv, s) = (Ok r, (sv', s'))
    /\ closed s' = true
    /\ tx s' = tx (snd (PQCServer._perform_pqc_key_exchange rnd s))
    /\ same_listener sv sv'
    /\ (fst (PQCServer._perform_pqc_key_exchange rnd s) = Ok None
        \/ running sv = false -> sv' = sv).
Proof. exact (handle_client_facts fuel rnd sv s). Qed.
End HandlerTheorem.

Section ServeStreamTheorem.
Context {oqs : OQS} {aead : AEAD} {text : PyText}.

(** X4. A stream of messages is served in order.  On an open connection
    whose stream carries the ciphertext frames of [msgs], each decrypting
    and decoding to a text that standard output can print, the running serve
    loop delivers the texts one after the other up to and including the
    first one that lowercases to ["exit"], and returns; what follows the
    sentinel is not read: the stream is left at the first frame after it.
    With no sentinel the loop delivers them all and returns when the stream
    ends.  The loop writes nothing and leaves the connection open, and the
    server then holds the last delivered text. *)
Theorem serve_loop_delivers_stream_in_order
        (cipher : bytes) (msgs : list (bytes * bytes * str))
        (fuel : nat) (sv : server) (s : socket) (rest : bytes) :
  running sv = true ->
  closed s = false ->
  Forall (readable cipher) msgs ->
  available (rx s) = message_wire msgs ++ rest ->
  existsb is_sentinel (map snd msgs) = true \/ rest = [] ->
  (length msgs < fuel)%nat ->
  exists s',
    PQCServer.serve_loop fuel cipher (sv, s)
    = (Ok (Done tt), (after_serving (map snd msgs) sv, s'))
    /\ (existsb is_sentinel (map snd msgs) = true ->
        available (rx s') = message_wire (unserved msgs) ++ rest)
    /\ tx s' = tx s /\ closed s' = false
    /\ (served (map snd msgs) <> [] ->
        last_received_message (after_serving (map snd msgs) sv)
        = Some (last (served (map snd msgs)) [])).
Proof.
  intros Hrun Hc Hok Hav Hend Hfuel.
  destruct (serve_loop_stream cipher msgs fuel sv s rest Hrun Hc Hok Hav Hend Hfuel)
    as (s' & Hloop & Hpos).
  destruct (serve_loop_listens cipher fuel sv s) as (r & sv1 & s1 & Hloop1 & Hs1 & _).
  rewrite Hloop in Hloop1. injection Hloop1 as _ _ <-.
  exists s'. split; [exact Hloop|]. split; [exact Hpos|].
  split; [rewrite Hs1; reflexivity|]. split; [rewrite Hs1; exact Hc|].
  unfold after_serving. generalize (served (map snd msgs)) as l. clear.
  intros l. revert sv. induction l as [|m l IH]; intros sv Hne; [congruence|].
  cbn [fold_left]. destruct l as [|m' l].
  - cbn. unfold delivered. destruct (message_received_event sv); reflexivity.
  - rewrite IH by discriminate. reflexivity.
Qed.
End ServeStreamTheorem.

Lemma serve_loop_delivers_stream_in_order_witness :
  exists s',
    PQCServer.serve_loop (aead := Toy.toy_aead) (text := Toy.toy_text) 5 [x01]
      (Demo.listening_server,
       Demo.socket_with
         (message_wire [DemoIO.toy_message "hello"; DemoIO.toy_message "Exit";
                        DemoIO.toy_message "late"] ++ [x07]))
    = (Ok (Done tt),
       (delivered (str_of_string "Exit")
          (delivered (str_of_string "hello") Demo.listening_server), s'))
    /\ available (rx s') = message_wire [DemoIO.toy_message "late"] ++ [x07].
Proof.
  destruct (@serve_loop_delivers_stream_in_order Toy.toy_aead Toy.toy_text [x01]
              [DemoIO.toy_message "hello"; DemoIO.toy_message "Exit";
               DemoIO.toy_message "late"]
              5%nat Demo.listening_server
              (Demo.socket_with
                 (message_wire [DemoIO.toy_message "hello"; DemoIO.toy_message "Exit";
                                DemoIO.toy_message "late"] ++ [x07]))
              [x07]) as (s' & Hloop & Hpos & _).
  - reflexivity.
  - reflexivity.
  - repeat constructor; try discriminate;
      (eexists; split; [|split]; vm_compute; reflexivity).
  - vm_compute. reflexivity.
  - left. vm_compute. reflexivity.
  - simpl. lia.
  - exists s'. split; [exact Hloop|]. apply Hpos. vm_compute. reflexivity.
Defined.

(** ** Connecting to an honest server *)

Lemma AESGCM_32 (key : bytes) : len key = 32 -> AESGCM key = Ok key.
Proof. intros H. unfold AESGCM. rewrite H. reflexivity. Qed.

Lemma firstn_32_cons (secret : bytes) :
  32 <= len secret -> exists b k, firstn 32 secret = b :: k /\ len (b :: k) = 32.
Proof.
  intros H. destruct secret as [|b secret]; [unfold len in H; simpl in H; lia|].
  exists b, (firstn 31 secret). split; [reflexivity|].
  change (b :: firstn 31 secret) with (firstn 32 (b :: secret)).
  unfold len in *. rewrite length_firstn. lia.
Qed.

Section HonestClassicalClient.
Context {ecdh : ECDH}.

Lemma classical_client_key_exchange_fwd
      (rc : ec_entropy) (c : client) (s : socket)
      (sk : ec_private_key) (pk : ec_public_key)
      (pubS pubC shared key rest : bytes) :
  client_socket c = Some s -> closed s = false -> tx_credit s = None ->
  available (rx s) = frame pubS ++ rest ->
  pubS <> [] -> len pubS < 4294967296 ->
  load_pem_public_key pubS = Ok pk ->
  generate_private_key rc = Ok sk ->
  public_bytes (public_key sk) = Ok pubC ->
  len pubC < 4294967296 ->
  exchange sk pk = Ok shared ->
  hkdf_sha256 32 None (bytes_of_string "handshake data") shared = Ok key ->
  exists s',
    ClassicalClient._perform_key_exchange rc c
    = (Ok (Some key), set_client_socket (Some s') c)
    /\ tx s' = tx s ++ frame pubC
    /\ available (rx s') = rest
    /\ closed s' = false.
Proof.
  intros Hs Hc Hcr Hav HnS HlS Hload Hgen Hpub HlC Hex Hkdf.
  destruct c as [h p so ci co]. cbn [client_socket] in Hs. subst so.
  destruct pubS as [|s0 pubS]; [congruence|].
  unfold ClassicalClient._perform_key_exchange, ClassicalClient._receive_exact,
    try_except.
  fwd_cframe (s0 :: pubS) rest HlS Hav.
  fwd_lift Hload. fwd_lift Hgen. fwd_lift Hpub.
  fwd_len HlC. fwd_csend Hcr. fwd_csend Hcr.
  fwd_lift Hex. fwd_lift Hkdf.
  unfold ret. eexists. split; [reflexivity|].
  cbn [tx rx closed sent set_rx]. unfold frame. rewrite <- !app_assoc.
  repeat split; assumption || reflexivity.
Qed.

(** X8. Connecting to an honest classical server succeeds.  When the
    network accepts the connection and delivers the server's public key as
    one length-prefixed frame, the key loads, the ECDH exchange succeeds and
    HKDF returns 32 bytes, [connect] returns [True] on a client that is then
    connected, holds the derived key as its cipher and keeps the socket
    open; it has sent exactly one frame, its own public key, and has left
    unread what follows the server's key. *)
Theorem classical_connect_succeeds
        (net : network) (rc : ec_entropy) (c : client)
        (sk : ec_private_key) (pk : ec_public_key)
        (pubS pubC shared key rest : bytes) :
  net_refuses net = false -> net_send_credit net = None ->
  available (net_incoming net) = frame pubS ++ rest ->
  pubS <> [] -> len pubS < 4294967296 ->
  load_pem_public_key pubS = Ok pk ->
  generate_private_key rc = Ok sk ->
  public_bytes (public_key sk) = Ok pubC ->
  len pubC < 4294967296 ->
  exchange sk pk = Ok shared ->
  hkdf_sha256 32 None (bytes_of_string "handshake data") shared = Ok key ->
  len key = 32 ->
  exists s',
    ClassicalClient.connect net rc c
    = (Ok true, mkClient (host c) (port c) (Some s') (Some key) true)
    /\ tx s' = frame pubC
    /\ available (rx s') = rest
    /\ closed s' = false.
Proof.
  intros Hrf Hcr Hav HnS HlS Hload Hgen Hpub HlC Hex Hkdf Hlen.
  rewrite classical_connect_cases, Hrf.
  destruct (classical_client_key_exchange_fwd rc
              (set_client_socket (Some (socket_socket net)) c) (socket_socket net)
              sk pk pubS pubC shared key rest)
    as (s' & Hrun & Htx & Hrx & Hcl); try assumption; try reflexivity.
  rewrite Hrun. destruct key as [|b k]; [discriminate Hlen|].
  rewrite (AESGCM_32 (b :: k) Hlen).
  exists s'. repeat split; assumption.
Qed.
End HonestClassicalClient.

Section HonestPQCClient.
Context {oqs : OQS}.

(** X9. Connecting to an honest post-quantum server succeeds.  When the
    network accepts the connection and delivers the server's three frames
    (signature key, ciphertext, signature), the client's library calls
    succeed, the server's signature verifies and decapsulation returns a
    secret of at least 32 bytes, [connect] returns [True] on a client that
    is then connected, holds the first 32 bytes of the secret as its cipher
    and keeps the socket open; it has sent exactly its three frames. *)
Theorem pqc_connect_succeeds
        (net : network) (rc : oqs_entropy) (c : client)
        (skC : sig_secret_key) (ksk : kem_secret_key)
        (pkC kpk ksig pkS ct csig secret rest : bytes) :
  net_refuses net = false -> net_send_credit net = None ->
  KeyEncapsulation "Kyber768" = Ok tt -> Signature "ML-DSA-65" = Ok tt ->
  sig_generate_keypair rc = Ok (pkC, skC) ->
  kem_generate_keypair rc = Ok (kpk, ksk) ->
  sig_sign rc skC kpk = Ok ksig ->
  Forall (fun b => len b < 4294967296) [pkC; kpk; ksig] ->
  available (net_incoming net) = frame pkS ++ frame ct ++ frame csig ++ rest ->
  Forall (fun b => b <> [] /\ len b < 4294967296) [pkS; ct; csig] ->
  sig_verify ct csig pkS = Ok true ->
  kem_decap_secret ksk ct = Ok secret ->
  32 <= len secret ->
  exists s',
    PQCClient.connect net rc c
    = (Ok true, mkClient (host c) (port c) (Some s') (Some (firstn 32 secret)) true)
    /\ tx s' = frame pkC ++ frame kpk ++ frame ksig
    /\ available (rx s') = rest
    /\ closed s' = false.
Proof.
  intros Hrf Hcr Hkem Hsig Hgen Hkgen Hsign Hout Hav Hin Hver Hdec Hlen.
  repeat match goal with
         | H : Forall _ (_ :: _) |- _ => inversion H; subst; clear H
         | H : _ /\ _ |- _ => destruct H
         end.
  rewrite pqc_connect_cases, Hrf.
  destruct (client_pqc_key_exchange_fwd rc
              (set_client_socket (Some (socket_socket net)) c) (socket_socket net)
              skC ksk pkC kpk ksig pkS ct csig secret rest)
    as (s' & Hrun & Htx & Hrx & Hcl); try assumption; try reflexivity.
  rewrite Hrun. destruct (firstn_32_cons secret Hlen) as (b & k & Hk & Hlk).
  rewrite Hk. rewrite (AESGCM_32 (b :: k) Hlk).
  exists s'. repeat split; assumption.
Qed.
End HonestPQCClient.

Lemma classical_connect_succeeds_witness :
  exists s',
    ClassicalClient.connect (ecdh := Toy.toy_ecdh) Demo.classical_net 5
      (ClassicalClient.init "127.0.0.1" 12345)
    = (Ok true,
       mkClient "127.0.0.1" 12345 (Some s')
                (Some (Demo.key_of (fst Demo.classical_client_run))) true)
    /\ tx s' = Demo.classical_client_bytes.
Proof.
  destruct (@classical_connect_succeeds Toy.toy_ecdh Demo.classical_net 5
              (ClassicalClient.init "127.0.0.1" 12345)
              5 (6 ^ 9 mod 251)
              [byte_of_Z (6 ^ 9 mod 251)] [byte_of_Z (6 ^ 5 mod 251)]
              [byte_of_Z ((6 ^ 9 mod 251) ^ 5 mod 251)]
              (Demo.key_of (fst Demo.classical_client_run)) [])
    as (s' & Hrun & Htx & _).
  - reflexivity.
  - reflexivity.
  - vm_compute. reflexivity.
  - discriminate.
  - vm_compute. reflexivity.
  - vm_compute. reflexivity.
  - reflexivity.
  - vm_compute. reflexivity.
  - vm_compute. reflexivity.
  - vm_compute. reflexivity.
  - vm_compute. reflexivity.
  - vm_compute. reflexivity.
  - exists s'. split; [exact Hrun|]. rewrite Htx. vm_compute. reflexivity.
Defined.

Lemma pqc_connect_succeeds_witness :
  exists s',
    PQCClient.connect (oqs := Toy.toy_oqs) Demo.pqc_net 3
      (PQCClient.init "127.0.0.1" 12346)
    = (Ok true,
       mkClient "127.0.0.1" 12346 (Some s')
                (Some (map (fun i => byte_of_Z (11 + 5 * Z.of_nat i)) (seq 0 32))) true)
    /\ tx s' = Demo.pqc_client_bytes.
Proof.
  destruct (@pqc_connect_succeeds Toy.toy_oqs Demo.pqc_net 3
              (PQCClient.init "127.0.0.1" 12346)
              10 3
              [x0a] [x03; x04] [x11] [x12]
              (map (fun i => byte_of_Z (14 + 5 * Z.of_nat i)) (seq 0 32))
              [byte_of_Z (sum_bytes (map (fun i => byte_of_Z (14 + 5 * Z.of_nat i))
                                         (seq 0 32)) + 18)]
              (map (fun i => byte_of_Z (11 + 5 * Z.of_nat i)) (seq 0 32))
              [])
    as (s' & Hrun & Htx & _).
  - reflexivity.
  - reflexivity.
  - reflexivity.
  - reflexivity.
  - reflexivity.
  - reflexivity.
  - reflexivity.
  - repeat constructor; vm_compute; reflexivity.
  - vm_compute. reflexivity.
  - repeat constructor; try discriminate; vm_compute; reflexivity.
  - vm_compute. reflexivity.
  - vm_compute. reflexivity.
  - vm_compute. discriminate.
  - exists s'. split; [exact Hrun|]. rewrite Htx. vm_compute. reflexivity.
Defined.

(** ** A whole session on the server *)

Section Session.
Context {oqs : OQS} {aead : AEAD} {text : PyText}.

(** X10. The handler serves a whole honest session.  On an accepted
    connection whose stream carries the client's three handshake frames and
    then the ciphertext frames of [msgs], each of which decrypts under the
    first 32 bytes of the encapsulated secret and decodes to a text that
    standard output can print, the
    handler of a running server completes the key exchange, delivers the
    texts in order up to and including the first one that lowercases to
    ["exit"] (or all of them when the stream then ends), returns normally,
    and leaves the connection closed, having written on it exactly the
    server's three handshake frames. *)
Theorem handle_client_serves_session
        (fuel : nat) (rs : oqs_entropy) (sv : server) (s : socket)
        (skS : sig_secret_key)
        (pkS pkC kpk ksig ct secret csig rest : bytes)
        (msgs : list (bytes * bytes * str)) :
  running sv = true ->
  closed s = false -> tx_credit s = None ->
  KeyEncapsulation "Kyber768" = Ok tt -> Signature "ML-DSA-65" = Ok tt ->
  sig_generate_keypair rs = Ok (pkS, skS) ->
  available (rx s)
  = frame pkC ++ frame kpk ++ frame ksig ++ message_wire msgs ++ rest ->
  Forall (fun b => b <> [] /\ len b < 4294967296) [pkC; kpk; ksig] ->
  sig_verify kpk ksig pkC = Ok true ->
  kem_encap_secret rs kpk = Ok (ct, secret) ->
  sig_sign rs skS ct = Ok csig ->
  Forall (fun b => len b < 4294967296) [pkS; ct; csig] ->
  32 <= len secret ->
  Forall (readable (firstn 32 secret)) msgs ->
  existsb is_sentinel (map snd msgs) = true \/ rest = [] ->
  (length msgs < fuel)%nat ->
  exists s',
    PQCServer._handle_client fuel rs (sv, s)
    = (Ok (Done tt), (after_serving (map snd msgs) sv, s'))
    /\ closed s' = true
    /\ tx s' = tx s ++ frame pkS ++ frame ct ++ frame csig.
Proof.
  intros Hrun Hc Hcr Hkem Hsig Hgen Hav Hin Hver Henc Hsign Hout Hlen Hok Hend Hfuel.
  repeat match goal with
         | H : Forall _ (_ :: _) |- _ => inversion H; subst; clear H
         | H : _ /\ _ |- _ => destruct H
         end.
  destruct (server_pqc_key_exchange_fwd rs s skS pkS pkC kpk ksig ct secret csig
              (message_wire msgs ++ rest))
    as (s1 & Hkex & Htx1 & Hrx1 & Hc1); try assumption.
  destruct (firstn_32_cons secret Hlen) as (b & k & Hk & Hlk).
  rewrite Hk in Hkex, Hok.
  destruct (serve_loop_stream (b :: k) msgs fuel sv s1 rest Hrun Hc1 Hok Hrx1 Hend Hfuel)
    as (s2 & Hloop & _).
  pose proof (serve_loop_listens (b :: k) fuel sv s1)
    as (r' & sv' & s2' & Hloop' & Hs2 & _).
  rewrite Hloop in Hloop'. injection Hloop' as _ _ <-.
  unfold PQCServer._handle_client, try_except, try_finally.
  unfold bind at 1. unfold on_conn at 1. cbn [fst snd]. rewrite Hkex.
  unfold bind at 1. unfold lift at 1. rewrite (AESGCM_32 (b :: k) Hlk).
  rewrite Hloop. unfold on_conn, Socket.close, ret. cbn [fst snd].
  assert (Hc2 : closed s2 = false) by (rewrite Hs2; exact Hc1).
  assert (Htx2 : tx s2 = tx s1) by (rewrite Hs2; reflexivity).
  rewrite Hc2.
  destruct (close_fails s2); eexists; (split; [reflexivity|]);
    cbn [closed tx]; rewrite Htx2, Htx1; split; reflexivity.
Qed.
End Session.

Lemma handle_client_serves_session_witness :
  exists s',
    PQCServer._handle_client (oqs := Toy.toy_oqs) (aead := Toy.toy_aead)
      (text := Toy.toy_text) 5 11
      (Demo.listening_server, Demo.socket_with DemoSession.pqc_session_wire)
    = (Ok (Done tt),
       (delivered (str_of_string "exit")
          (delivered (str_of_string "hello") Demo.listening_server), s'))
    /\ closed s' = true
    /\ tx s' = Demo.pqc_server_bytes.
Proof.
  destruct (@handle_client_serves_session Toy.toy_oqs Toy.toy_aead Toy.toy_text
              5%nat 11 Demo.listening_server
              (Demo.socket_with DemoSession.pqc_session_wire)
              18 [x12] [x0a] [x03; x04] [x11]
              (map (fun i => byte_of_Z (14 + 5 * Z.of_nat i)) (seq 0 32))
              (map (fun i => byte_of_Z (11 + 5 * Z.of_nat i)) (seq 0 32))
              [byte_of_Z (sum_bytes (map (fun i => byte_of_Z (14 + 5 * Z.of_nat i))
                                         (seq 0 32)) + 18)]
              []
              [DemoSession.session_message 1 "hello";
               DemoSession.session_message 2 "exit"])
    as (s' & Hrun & Hc & Htx).
  - reflexivity.
  - reflexivity.
  - reflexivity.
  - reflexivity.
  - reflexivity.
  - reflexivity.
  - vm_compute. reflexivity.
  - repeat constructor; try discriminate; vm_compute; reflexivity.
  - vm_compute. reflexivity.
  - vm_compute. reflexivity.
  - vm_compute. reflexivity.
  - repeat constructor; vm_compute; reflexivity.
  - vm_compute. discriminate.
  - repeat constructor; try discriminate;
      (eexists; split; [|split]; vm_compute; reflexivity).
  - left. vm_compute. reflexivity.
  - simpl. lia.
  - exists s'. split; [exact Hrun|]. split; [exact Hc|].
    rewrite Htx. vm_compute. reflexivity.
Defined.

(** ** Stopping and starting the server *)

Lemma stop_cases (sv : server) :
  PQCServerLifecycle.stop sv =
  (Ok tt,
   match server_socket sv with
   | Some l => set_server_socket (Some (snd (Socket.close l))) (set_running false sv)
   | None => set_running false sv
   end).
Proof.
  unfold PQCServerLifecycle.stop, bind, modify, gets, try_except, on_server_socket, ret.
  destruct sv as [h p [l|] r m ev]; cbn [server_socket set_running]; [|reflexivity].
  destruct (Socket.close l) as [[[]|e] l']; reflexivity.
Qed.

Lemma cleanup_cases (sv : server) :
  PQCServerLifecycle._cleanup sv =
  (Ok tt,
   match server_socket sv with
   | Some l => set_server_socket (Some (snd (Socket.close l))) sv
   | None => sv
   end).
Proof.
  unfold PQCServerLifecycle._cleanup, bind, gets, try_except, on_server_socket, ret.
  destruct sv as [h p [l|] r m ev]; cbn [server_socket]; [|reflexivity].
  destruct (Socket.close l) as [[[]|e] l']; reflexivity.
Qed.

Lemma close_closes (s : socket) : closed (snd (Socket.close s)) = true.
Proof.
  unfold Socket.close. destruct (closed s) eqn:Hc; [exact Hc|].
  destruct (close_fails s); reflexivity.
Qed.

Lemma close_closed (s : socket) : closed s = true -> snd (Socket.close s) = s.
Proof. intros Hc. unfold Socket.close. rewrite Hc. reflexivity. Qed.

(** X11. [stop] and [_cleanup] never raise, whatever the state of the
    server object, even when closing the listening socket raises.  Each
    leaves the listening socket, when there is one, closed but still
    referenced by the server object, with host, port, last message and event
    kept; [stop] also clears the running flag, [_cleanup] leaves it as it
    is.  Stopping a stopped server changes nothing, and so does the
    [_cleanup] that [start] runs on its way out. *)
Theorem stop_closes_listener (sv : server) :
  (exists sv',
      PQCServerLifecycle.stop sv = (Ok tt, sv')
      /\ running sv' = false
      /\ match server_socket sv with
         | Some l => exists l', server_socket sv' = Some l' /\ closed l' = true
                                /\ rx l' = rx l /\ tx l' = tx l
         | None => server_socket sv' = None
         end
      /\ server_host sv' = server_host sv /\ server_port sv' = server_port sv
      /\ last_received_message sv' = last_received_message sv
      /\ message_received_event sv' = message_received_event sv
      /\ PQCServerLifecycle.stop sv' = (Ok tt, sv')
      /\ PQCServerLifecycle._cleanup sv' = (Ok tt, sv'))
  /\ (exists sv',
         PQCServerLifecycle._cleanup sv = (Ok tt, sv')
         /\ running sv' = running sv
         /\ match server_socket sv with
            | Some l => exists l', server_socket sv' = Some l' /\ closed l' = true
                                   /\ rx l' = rx l /\ tx l' = tx l
            | None => server_socket sv' = None
            end
         /\ server_host sv' = server_host sv /\ server_port sv' = server_port sv
         /\ last_received_message sv' = last_received_message sv
         /\ message_received_event sv' = message_received_event sv
         /\ PQCServerLifecycle._cleanup sv' = (Ok tt, sv')).
Proof.
  assert (Hclose : forall l,
             closed (snd (Socket.close l)) = true
             /\ rx (snd (Socket.close l)) = rx l /\ tx (snd (Socket.close l)) = tx l).
  { intros l. split; [apply close_closes|].
    unfold Socket.close. destruct (closed l); [|destruct (close_fails l)];
      split; reflexivity. }
  split.
  - rewrite stop_cases. eexists. split; [reflexivity|].
    destruct (server_socket sv) as [l|] eqn:Hl.
    + split; [reflexivity|]. split.
      * eexists. split; [reflexivity|]. apply Hclose.
      * repeat split; try reflexivity.
        -- rewrite stop_cases. cbn [server_socket set_server_socket].
           rewrite (close_closed _ (close_closes l)). reflexivity.
        -- rewrite cleanup_cases. cbn [server_socket set_server_socket].
           rewrite (close_closed _ (close_closes l)). reflexivity.
    + split; [reflexivity|]. split; [cbn; exact Hl|].
      repeat split; try reflexivity.
      * rewrite stop_cases. cbn [server_socket set_running]. rewrite Hl.
        destruct sv; reflexivity.
      * rewrite cleanup_cases. cbn [server_socket set_running]. rewrite Hl.
        reflexivity.
  - rewrite cleanup_cases. eexists. split; [reflexivity|].
    destruct (server_socket sv) as [l|] eqn:Hl.
    + split; [reflexivity|]. split.
      * eexists. split; [reflexivity|]. apply Hclose.
      * repeat split; try reflexivity.
        rewrite cleanup_cases. cbn [server_socket set_server_socket].
        rewrite (close_closed _ (close_closes l)). reflexivity.
    + split; [reflexivity|]. split; [exact Hl|].
      repeat split; try reflexivity.
      rewrite cleanup_cases, Hl. reflexivity.
Qed.

Section AcceptLoop.
Context {oqs : OQS} {aead : AEAD} {text : PyText}.

(** One pass of the accept loop on a listening server. *)
Lemma accept_pass (hf : nat) (sv : server) (l : socket)
      (ev : accept_event oqs_entropy) (script : list (accept_event oqs_entropy)) :
  server_socket sv = Some l -> closed l = false ->
  exists r sv',
    try_except (PQCServerLifecycle.accept_and_handle hf) (fun _ => ret (Done tt))
      (sv, ev :: script)
    = (Ok r, (sv', script))
    /\ match ev with
       | StopRequested => sv' = snd (PQCServerLifecycle.stop sv) /\ r = Done tt
       | Accepted conn _ =>
           same_listener sv sv'
           /\ (len (available (rx conn)) < Z.of_nat hf -> r = Done tt)
       | _ => sv' = sv /\ r = Done tt
       end.
Proof.
  intros Hl Hc. unfold try_except, PQCServerLifecycle.accept_and_handle.
  cbn [fst snd]. rewrite Hl, Hc.
  destruct ev as [conn rnd| |e|]; unfold ret.
  - destruct (handle_client_facts hf rnd sv conn)
      as (r & sv' & s' & Hrun & _ & _ & Hsame & _).
    pose proof (@handle_client_returns _ _ _ hf rnd sv conn) as Hret.
    rewrite Hrun in *. cbn [fst] in Hret.
    exists r, sv'. split; [reflexivity|]. split; [exact Hsame|].
    intros Hf. specialize (Hret Hf). congruence.
  - do 2 eexists. split; [reflexivity|]. split; reflexivity.
  - do 2 eexists. split; [reflexivity|]. split; reflexivity.
  - do 2 eexists. split; [reflexivity|]. split; reflexivity.
Qed.

Lemma accept_pass_idle (hf : nat) (sv : server)
      (script : list (accept_event oqs_entropy)) :
  (server_socket sv = None
   \/ (exists l, server_socket sv = Some l /\ closed l = true)
   \/ script = []) ->
  try_except (PQCServerLifecycle.accept_and_handle hf) (fun _ => ret (Done tt))
    (sv, script)
  = (Ok (Done tt), (sv, script)).
Proof.
  unfold try_except, PQCServerLifecycle.accept_and_handle. cbn [fst snd].
  intros [Hn | [(l & Hl & Hc) | ->]].
  - rewrite Hn. reflexivity.
  - rewrite Hl, Hc. reflexivity.
  - destruct (server_socket sv) as [l|]; [destruct (closed l)|]; reflexivity.
Qed.

(** The accept loop never raises and keeps a listening socket in place. *)
Lemma accept_loop_total (hf fuel : nat) :
  forall (sv : server) (script : list (accept_event oqs_entropy)),
    server_socket sv <> None ->
    exists r sv' script',
      PQCServerLifecycle.accept_loop fuel hf (sv, script) = (Ok r, (sv', script'))
      /\ server_socket sv' <> None
      /\ server_host sv' = server_host sv /\ server_port sv' = server_port sv.
Proof.
  induction fuel as [|fuel IH]; intros sv script Hsock;
    cbn [PQCServerLifecycle.accept_loop]; unfold bind at 1, gets at 1; cbn [fst].
  - destruct (running sv); unfold ret; do 3 eexists; repeat split; assumption.
  - destruct (running sv); [|unfold ret; do 3 eexists; repeat split; assumption].
    unfold bind at 1.
    assert (Hpass : exists r sv' script',
               try_except (PQCServerLifecycle.accept_and_handle hf)
                 (fun _ => ret (Done tt)) (sv, script) = (Ok r, (sv', script'))
               /\ server_socket sv' <> None
               /\ server_host sv' = server_host sv /\ server_port sv' = server_port sv).
    { destruct (server_socket sv) as [l|] eqn:Hl; [|congruence].
      destruct (closed l) eqn:Hc.
      - rewrite accept_pass_idle by (right; left; eauto).
        do 3 eexists. split; [reflexivity|]. rewrite Hl. repeat split; congruence.
      - destruct script as [|ev script].
        + rewrite accept_pass_idle by (right; right; reflexivity).
          do 3 eexists. split; [reflexivity|]. rewrite Hl. repeat split; congruence.
        + destruct (accept_pass hf sv l ev script Hl Hc) as (r & sv' & Hrun & Hev).
          exists r, sv', script. split; [exact Hrun|].
          destruct ev as [conn rnd| |e|].
          * destruct Hev as ((Hh & Hp & Hs & _) & _). rewrite Hs, Hl.
            repeat split; congruence.
          * destruct Hev as (-> & _). rewrite Hl. repeat split; congruence.
          * destruct Hev as (-> & _). rewrite Hl. repeat split; congruence.
          * destruct Hev as (-> & _). rewrite stop_cases, Hl. cbn.
            repeat split; congruence. }
    destruct Hpass as (r & sv1 & script1 & Hrun & Hs1 & Hh1 & Hp1). rewrite Hrun.
    destruct r as [[]|].
    + destruct (IH sv1 script1 Hs1) as (r' & sv' & script' & Hloop & Hs' & Hh' & Hp').
      exists r', sv', script'. split; [exact Hloop|]. repeat split; congruence.
    + unfold ret. do 3 eexists. split; [reflexivity|]. repeat split; assumption.
Qed.

(** The accept loop gets through the events before a stop, and ends on it. *)
Lemma accept_loop_until_stop (hf : nat) (rest : list (accept_event oqs_entropy)) :
  forall (prefix : list (accept_event oqs_entropy)) (fuel : nat) (sv : server)
         (l : socket),
    running sv = true -> server_socket sv = Some l -> closed l = false ->
    Forall (handled_within hf) prefix ->
    (length prefix < fuel)%nat ->
    exists sv1,
      PQCServerLifecycle.accept_loop fuel hf (sv, prefix ++ StopRequested :: rest)
      = (Ok (Done tt), (snd (PQCServerLifecycle.stop sv1), rest))
      /\ same_listener sv sv1.
Proof.
  induction prefix as [|ev prefix IH]; intros fuel sv l Hrun Hl Hc Hok Hfuel;
    (destruct fuel as [|fuel]; [simpl in Hfuel; lia|]);
    cbn [PQCServerLifecycle.accept_loop app]; unfold bind at 1, gets at 1;
    cbn [fst]; rewrite Hrun; unfold bind at 1.
  - destruct (accept_pass hf sv l StopRequested rest Hl Hc)
      as (r & sv' & Hpass & -> & ->).
    rewrite Hpass. exists sv. split; [|apply same_listener_refl].
    destruct fuel; cbn [PQCServerLifecycle.accept_loop]; unfold bind, gets;
      cbn [fst]; rewrite stop_cases; cbn [snd]; rewrite Hl; reflexivity.
  - inversion Hok as [|? ? Hev Hoks]; subst.
    destruct (accept_pass hf sv l ev (prefix ++ StopRequested :: rest) Hl Hc)
      as (r & sv' & Hpass & Hfacts).
    rewrite Hpass.
    assert (Hnext : r = Done tt /\ same_listener sv sv').
    { destruct ev as [conn rnd| |e|]; cbn [handled_within] in Hev.
      - destruct Hfacts as (Hsame & Hdone). split; [exact (Hdone Hev) | exact Hsame].
      - destruct Hfacts as (-> & ->). split; [reflexivity | apply same_listener_refl].
      - destruct Hfacts as (-> & ->). split; [reflexivity | apply same_listener_refl].
      - contradiction. }
    destruct Hnext as (-> & Hh & Hp & Hs & Hr).
    destruct (IH fuel sv' l) as (sv1 & Hloop & Hh1 & Hp1 & Hs1 & Hr1);
      try congruence; try assumption; [simpl in Hfuel; lia|].
    exists sv1. split; [exact Hloop|]. repeat split; congruence.
Qed.
End AcceptLoop.

Section StartTheorems.
Context {oqs : OQS} {aead : AEAD} {text : PyText}.

(** X12. [start] never raises, and when it returns no listening socket is
    left open: the socket it created is closed, so the port is released,
    while host and port of the object are as before.  When binding or
    configuring the new socket fails, [start] returns at once without
    accepting anything, the new socket is closed, and the object still says
    [running = True].  When creating the socket fails, no socket is
    assigned: [start] returns at once, also with [running = True], and the
    object keeps the socket reference it had, closed by [_cleanup] if there
    was one. *)
Theorem start_releases_the_listener
        (fuel hf : nat) (env : listen_env) (sv : server)
        (script : list (accept_event oqs_entropy)) :
  exists r sv' script',
    PQCServerLifecycle.start fuel hf env (sv, script) = (Ok r, (sv', script'))
    /\ (r = Done tt -> forall l, server_socket sv' = Some l -> closed l = true)
    /\ (r = Done tt -> (forall e, listen_error env <> Some (CreateFails e)) ->
        exists l, server_socket sv' = Some l /\ closed l = true)
    /\ server_host sv' = server_host sv /\ server_port sv' = server_port sv
    /\ (forall e, listen_error env = Some (SetupFails e) ->
          r = Done tt /\ script' = script /\ running sv' = true
          /\ last_received_message sv' = last_received_message sv)
    /\ (forall e, listen_error env = Some (CreateFails e) ->
          r = Done tt /\ script' = script /\ running sv' = true
          /\ last_received_message sv' = last_received_message sv
          /\ server_socket sv'
             = match server_socket sv with
               | Some l => Some (snd (Socket.close l))
               | None => None
               end).
Proof.
  unfold PQCServerLifecycle.start, try_finally, try_except.
  unfold bind at 1. unfold PQCServerLifecycle.on_listening_server at 1, modify at 1.
  cbn [fst snd].
  set (sv0 := set_server_socket
                (Some (mkSocket [] [] None false (listen_close_fails env) false))
                (set_running true sv)).
  assert (Hfin : forall (r : loop_res unit) (sv1 : server)
                        (sc : list (accept_event oqs_entropy)),
             exists sv',
               match PQCServerLifecycle.on_listening_server
                       PQCServerLifecycle._cleanup (sv1, sc) with
               | (Ok _, s'') => (Ok r, s'')
               | (Exc e, s'') => (Exc e, s'')
               end = (Ok r, (sv', sc))
               /\ server_socket sv'
                  = match server_socket sv1 with
                    | Some l => Some (snd (Socket.close l))
                    | None => None
                    end
               /\ server_host sv' = server_host sv1
               /\ server_port sv' = server_port sv1
               /\ running sv' = running sv1
               /\ last_received_message sv' = last_received_message sv1).
  { intros r sv1 sc. unfold PQCServerLifecycle.on_listening_server.
    cbn [fst snd]. rewrite cleanup_cases.
    destruct (server_socket sv1) as [l|] eqn:Hl.
    - eexists. split; [reflexivity|]. repeat split.
    - eexists. split; [reflexivity|]. rewrite Hl. repeat split. }
  assert (Hclosed : forall sv1 sv',
             server_socket sv'
             = match server_socket sv1 with
               | Some l => Some (snd (Socket.close l))
               | None => None
               end ->
             forall l, server_socket sv' = Some l -> closed l = true).
  { intros sv1 sv' Heq l Hl. rewrite Heq in Hl.
    destruct (server_socket sv1) as [l1|]; [|discriminate].
    injection Hl as <-. apply close_closes. }
  destruct (listen_error env) as [[e|e]|] eqn:Herr.
  - (* socket.socket raises *)
    unfold bind at 1, raise at 1.
    destruct (Hfin (Done tt) (set_running true sv) script)
      as (sv' & Heq & Hs & Hh & Hp & Hr & Hm).
    exists (Done tt), sv', script. split; [exact Heq|].
    split; [intros _; exact (Hclosed (set_running true sv) sv' Hs)|].
    split; [intros _ Hne; exfalso; exact (Hne e eq_refl)|].
    split; [exact Hh|]. split; [exact Hp|].
    split; [intros e' He'; discriminate He'|].
    intros e' _. repeat split; assumption.
  - (* bind, listen, ... raises *)
    unfold bind at 1. unfold PQCServerLifecycle.on_listening_server at 1, modify at 1.
    cbn [fst snd]. fold sv0. unfold bind at 1, raise at 1.
    destruct (Hfin (Done tt) sv0 script) as (sv' & Heq & Hs & Hh & Hp & Hr & Hm).
    exists (Done tt), sv', script. split; [exact Heq|].
    split; [intros _; exact (Hclosed sv0 sv' Hs)|].
    split; [intros _ _; eexists; split; [exact Hs | apply close_closes]|].
    split; [exact Hh|]. split; [exact Hp|].
    split; [|intros e' He'; discriminate He'].
    intros e' _. repeat split; assumption.
  - unfold bind at 1. unfold PQCServerLifecycle.on_listening_server at 1, modify at 1.
    cbn [fst snd]. fold sv0. unfold bind at 1, ret at 1.
    destruct (accept_loop_total hf fuel sv0 script)
      as (r & sv1 & sc & Hloop & Hs1 & Hh1 & Hp1); [discriminate|].
    rewrite Hloop.
    destruct (Hfin r sv1 sc) as (sv' & Heq & Hs & Hh & Hp & _).
    exists r, sv', sc. split; [exact Heq|].
    split; [intros _; exact (Hclosed sv1 sv' Hs)|].
    split.
    { intros _ _. destruct (server_socket sv1) as [l1|]; [|congruence].
      eexists. split; [exact Hs | apply close_closes]. }
    split; [rewrite Hh, Hh1; reflexivity|]. split; [rewrite Hp, Hp1; reflexivity|].
    split; intros e He; discriminate He.
Qed.

(** X13. A running server serves until it is stopped.  Once the listening
    socket is set up, [start] gets through the timeouts, accept errors and
    clients that arrive, each client being handled to the end of its
    connection, and returns when [stop] is called from another thread: the
    events after the stop are left unaccepted, [running] is [False], and the
    listening socket is closed. *)
Theorem start_runs_until_stopped
        (fuel hf : nat) (env : listen_env) (sv : server)
        (prefix rest : list (accept_event oqs_entropy)) :
  listen_error env = None ->
  Forall (handled_within hf) prefix ->
  (length prefix < fuel)%nat ->
  exists sv',
    PQCServerLifecycle.start fuel hf env (sv, prefix ++ StopRequested :: rest)
    = (Ok (Done tt), (sv', rest))
    /\ running sv' = false
    /\ (exists l, server_socket sv' = Some l /\ closed l = true)
    /\ server_host sv' = server_host sv /\ server_port sv' = server_port sv.
Proof.
  intros Herr Hok Hfuel.
  unfold PQCServerLifecycle.start, try_finally, try_except. rewrite Herr.
  unfold bind at 1. unfold PQCServerLifecycle.on_listening_server at 1, modify at 1.
  cbn [fst snd].
  unfold bind at 1. unfold PQCServerLifecycle.on_listening_server at 1, modify at 1.
  cbn [fst snd]. unfold bind at 1, ret at 1.
  set (l0 := mkSocket [] [] None false (listen_close_fails env) false).
  destruct (accept_loop_until_stop hf rest prefix fuel
              (set_server_socket (Some l0) (set_running true sv)) l0)
    as (sv1 & Hloop & Hh & Hp & Hs & Hr); try reflexivity; try assumption.
  rewrite Hloop. unfold PQCServerLifecycle.on_listening_server. cbn [fst snd].
  rewrite cleanup_cases, stop_cases. cbn [snd]. rewrite Hs.
  cbn [server_socket set_server_socket set_running].
  eexists. split; [reflexivity|]. split; [reflexivity|]. split.
  - eexists. split; [reflexivity | apply close_closes].
  - split; [exact Hh | exact Hp].
Qed.
End StartTheorems.

Lemma start_runs_until_stopped_witness :
  exists sv',
    PQCServerLifecycle.start (oqs := Toy.toy_oqs) (aead := Toy.toy_aead)
      (text := Toy.toy_text) 4 1000 (mkListenEnv None false)
      (Demo.listening_server,
       [TimedOut; Accepted (Demo.socket_with DemoSession.pqc_session_wire) 11;
        AcceptFailed "ConnectionAbortedError"%string]
       ++ StopRequested :: [TimedOut])
    = (Ok (Done tt), (sv', [TimedOut]))
    /\ running sv' = false.
Proof.
  destruct (@start_runs_until_stopped Toy.toy_oqs Toy.toy_aead Toy.toy_text
              4%nat 1000%nat (mkListenEnv None false) Demo.listening_server
              [TimedOut; Accepted (Demo.socket_with DemoSession.pqc_session_wire) 11;
               AcceptFailed "ConnectionAbortedError"%string]
              [TimedOut])
    as (sv' & Hrun & Hstop & _).
  - reflexivity.
  - repeat constructor.
  - simpl. lia.
  - exists sv'. split; [exact Hrun | exact Hstop].
Defined.

(** ** The hybrid measurement *)

Section Hybrid.
Context {ecdh : ECDH} {oqs : OQS}.
Variable reading : Q -> float.

Lemma measure_classical_f64_ok (tc : trial ec_entropy) (latency loss : float)
      (b : bench) (c' : client) :
  ClassicalClient.connect (trial_network tc) (trial_entropy tc)
    (ClassicalClient.init "127.0.0.1" (trial_free_port tc)) = (Ok true, c') ->
  let sch := trial_schedule tc in
  let t0 := (clock b + t_server_start sch + t_settle sch)%Q in
  BenchmarkModes.measure_classical_handshake reading tc latency loss b
  = (Ok (Benchmark._simulate_network_penalties_f64
           ((reading (t0 + t_connect sch + t_disconnect sch)%Q - reading t0) * 1000)
           latency loss (trial_draw tc)),
     mkBench (t0 + t_connect sch + t_disconnect sch + t_finally sch)%Q (cleared c')).
Proof.
  intros Hc. cbv zeta.
  unfold BenchmarkModes.measure_classical_handshake,
    BenchmarkModes.classical_timed_block, BenchmarkModes.perf_counter,
    try_finally, bind, tick, modify, gets, taking, on_bench_client, raise, ret.
  cbn [bench_client clock]. rewrite Hc. cbn [negb bench_client clock].
  rewrite !classical_disconnect_cleared. reflexivity.
Qed.

Lemma measure_classical_f64_fails (tc : trial ec_entropy) (latency loss : float)
      (b : bench) (c' : client) :
  ClassicalClient.connect (trial_network tc) (trial_entropy tc)
    (ClassicalClient.init "127.0.0.1" (trial_free_port tc)) = (Ok false, c') ->
  let sch := trial_schedule tc in
  BenchmarkModes.measure_classical_handshake reading tc latency loss b
  = (Exc "RuntimeError: Classical handshake failed to connect"%string,
     mkBench (clock b + t_server_start sch + t_settle sch + t_connect sch
              + t_finally sch)%Q (cleared c')).
Proof.
  intros Hc. cbv zeta.
  unfold BenchmarkModes.measure_classical_handshake,
    BenchmarkModes.classical_timed_block, BenchmarkModes.perf_counter,
    try_finally, bind, tick, modify, gets, taking, on_bench_client, raise, ret.
  cbn [bench_client clock]. rewrite Hc. cbn [negb bench_client clock].
  rewrite !classical_disconnect_cleared. reflexivity.
Qed.

Lemma measure_pqc_f64_ok (tp : trial oqs_entropy) (latency loss : float)
      (b : bench) (c' : client) :
  PQCClient.connect (trial_network tp) (trial_entropy tp)
    (PQCClient.init "127.0.0.1" (trial_free_port tp)) = (Ok true, c') ->
  let sch := trial_schedule tp in
  let t0 := (clock b + t_server_start sch + t_settle sch)%Q in
  BenchmarkModes.measure_pqc_handshake reading tp latency loss b
  = (Ok (Benchmark._simulate_network_penalties_f64
           ((reading (t0 + t_connect sch + t_disconnect sch)%Q - reading t0) * 1000)
           latency loss (trial_draw tp)),
     mkBench (t0 + t_connect sch + t_disconnect sch + t_finally sch)%Q (cleared c')).
Proof.
  intros Hc. cbv zeta.
  unfold BenchmarkModes.measure_pqc_handshake,
    BenchmarkModes.pqc_timed_block, BenchmarkModes.perf_counter,
    try_finally, bind, tick, modify, gets, taking, on_bench_client, raise, ret.
  cbn [bench_client clock]. rewrite Hc. cbn [negb bench_client clock].
  rewrite !pqc_disconnect_cleared. reflexivity.
Qed.

(** X14. The hybrid measurement is the binary64 sum of two separately
    impaired measurements, run one after the other on their own
    connections.  When both handshakes succeed its value is the impaired
    classical time plus the impaired post-quantum time, each raw time being
    read off the performance counter around connect and disconnect of its
    own run; so the configured latency is charged twice: without packet loss
    the value is [(raw_c + max(latency, 0)) + (raw_p + max(latency, 0))].
    The post-quantum run starts when the classical run, [finally] block
    included, is over, and the wall clock advances by every step of both.
    When the classical handshake fails the measurement raises its
    [RuntimeError] and the post-quantum run is never started. *)
Theorem hybrid_charges_impairment_twice
        (tc : trial ec_entropy) (tp : trial oqs_entropy)
        (latency loss : float) (b : bench) :
  let sc := trial_schedule tc in
  let sp := trial_schedule tp in
  let c0 := (clock b + t_server_start sc + t_settle sc)%Q in
  let c1 := (c0 + t_connect sc + t_disconnect sc)%Q in
  let p0 := (c1 + t_finally sc + t_server_start sp + t_settle sp)%Q in
  let p1 := (p0 + t_connect sp + t_disconnect sp)%Q in
  let raw_c := ((reading c1 - reading c0) * 1000)%float in
  let raw_p := ((reading p1 - reading p0) * 1000)%float in
  (forall cc cp,
      ClassicalClient.connect (trial_network tc) (trial_entropy tc)
        (ClassicalClient.init "127.0.0.1" (trial_free_port tc)) = (Ok true, cc) ->
      PQCClient.connect (trial_network tp) (trial_entropy tp)
        (PQCClient.init "127.0.0.1" (trial_free_port tp)) = (Ok true, cp) ->
      BenchmarkModes.measure_hybrid_handshake reading tc tp latency loss b
      = (Ok (Benchmark._simulate_network_penalties_f64 raw_c latency loss (trial_draw tc)
             + Benchmark._simulate_network_penalties_f64 raw_p latency loss
                 (trial_draw tp))%float,
         mkBench (p1 + t_finally sp)%Q (cleared cp))
      /\ (PrimFloat.ltb 0 loss = false ->
          fst (BenchmarkModes.measure_hybrid_handshake reading tc tp latency loss b)
          = Ok ((raw_c + Benchmark.py_max_f64 latency 0)
                + (raw_p + Benchmark.py_max_f64 latency 0))%float))
  /\ (forall cc,
         ClassicalClient.connect (trial_network tc) (trial_entropy tc)
           (ClassicalClient.init "127.0.0.1" (trial_free_port tc)) = (Ok false, cc) ->
         BenchmarkModes.measure_hybrid_handshake reading tc tp latency loss b
         = (Exc "RuntimeError: Classical handshake failed to connect"%string,
            mkBench (c0 + t_connect sc + t_finally sc)%Q (cleared cc))).
Proof.
  cbv zeta. split.
  - intros cc cp Hcc Hcp.
    pose proof (measure_classical_f64_ok tc latency loss b cc Hcc) as Hrun1.
    cbv zeta in Hrun1.
    assert (Hrun : BenchmarkModes.measure_hybrid_handshake reading tc tp latency loss b
                   = (Ok (Benchmark._simulate_network_penalties_f64
                            ((reading (clock b + t_server_start (trial_schedule tc)
                                       + t_settle (trial_schedule tc)
                                       + t_connect (trial_schedule tc)
                                       + t_disconnect (trial_schedule tc))%Q
                              - reading (clock b + t_server_start (trial_schedule tc)
                                         + t_settle (trial_schedule tc))%Q) * 1000)
                            latency loss (trial_draw tc)
                          + Benchmark._simulate_network_penalties_f64
                              ((reading (clock b + t_server_start (trial_schedule tc)
                                         + t_settle (trial_schedule tc)
                                         + t_connect (trial_schedule tc)
                                         + t_disconnect (trial_schedule tc)
                                         + t_finally (trial_schedule tc)
                                         + t_server_start (trial_schedule tp)
                                         + t_settle (trial_schedule tp)
                                         + t_connect (trial_schedule tp)
                                         + t_disconnect (trial_schedule tp))%Q
                                - reading (clock b + t_server_start (trial_schedule tc)
                                           + t_settle (trial_schedule tc)
                                           + t_connect (trial_schedule tc)
                                           + t_disconnect (trial_schedule tc)
                                           + t_finally (trial_schedule tc)
                                           + t_server_start (trial_schedule tp)
                                           + t_settle (trial_schedule tp))%Q) * 1000)
                              latency loss (trial_draw tp))%float,
                      mkBench (clock b + t_server_start (trial_schedule tc)
                               + t_settle (trial_schedule tc)
                               + t_connect (trial_schedule tc)
                               + t_disconnect (trial_schedule tc)
                               + t_finally (trial_schedule tc)
                               + t_server_start (trial_schedule tp)
                               + t_settle (trial_schedule tp)
                               + t_connect (trial_schedule tp)
                               + t_disconnect (trial_schedule tp)
                               + t_finally (trial_schedule tp))%Q (cleared cp))).
    { unfold BenchmarkModes.measure_hybrid_handshake.
      unfold bind at 1. rewrite Hrun1. unfold bind at 1.
      rewrite (measure_pqc_f64_ok tp latency loss _ cp Hcp). reflexivity. }
    split; [exact Hrun|].
    intros Hl. rewrite Hrun. cbn [fst].
    unfold Benchmark._simulate_network_penalties_f64. rewrite Hl. reflexivity.
  - intros cc Hcc.
    pose proof (measure_classical_f64_fails tc latency loss b cc Hcc) as Hrun1.
    cbv zeta in Hrun1.
    unfold BenchmarkModes.measure_hybrid_handshake.
    unfold bind at 1. rewrite Hrun1. reflexivity.
Qed.
End Hybrid.

Lemma hybrid_charges_impairment_twice_witness :
  exists v,
    fst (BenchmarkModes.measure_hybrid_handshake
           (ecdh := Toy.toy_ecdh) (oqs := Toy.toy_oqs) ToyIO.toy_reading
           (@mkTrial Z Demo.schedule_5_1 Demo.classical_net 5 0.5%float 50000)
           (@mkTrial Z Demo.schedule_5_1 Demo.pqc_net 3 0.5%float 50001)
           30 0 Demo.bench_start) = Ok v
    /\ PrimFloat.ltb 71.999 v = true /\ PrimFloat.ltb v 72.001 = true.
Proof.
  destruct (proj1 (@hybrid_charges_impairment_twice Toy.toy_ecdh Toy.toy_oqs
                     ToyIO.toy_reading
                     (@mkTrial Z Demo.schedule_5_1 Demo.classical_net 5 0.5%float 50000)
                     (@mkTrial Z Demo.schedule_5_1 Demo.pqc_net 3 0.5%float 50001)
                     30%float 0%float Demo.bench_start)
              (snd (ClassicalClient.connect (ecdh := Toy.toy_ecdh) Demo.classical_net 5
                      (ClassicalClient.init "127.0.0.1" 50000)))
              (snd (PQCClient.connect (oqs := Toy.toy_oqs) Demo.pqc_net 3
                      (PQCClient.init "127.0.0.1" 50001)))
              ltac:(vm_compute; reflexivity) ltac:(vm_compute; reflexivity))
    as (_ & Hv).
  specialize (Hv eq_refl).
  eexists. split; [exact Hv|].
  split; vm_compute; reflexivity.
Defined.

(** ** The chat loop of the clients *)

Section Chat.
Context {ecdh : ECDH} {oqs : OQS} {aead : AEAD} {text : PyText} {enc : PyEncode}
        {rand : OSRandom}.

Lemma classical_send_message_ok (message : str) (rnd : os_entropy) (c : client)
      (s : socket) (key nonce plaintext ciphertext : bytes) :
  connected c = true -> aesgcm c = Some key -> client_socket c = Some s ->
  closed s = false -> tx_credit s = None ->
  urandom rnd 12 = Ok nonce ->
  encode_utf8 message = Ok plaintext ->
  aesgcm_encrypt key nonce plaintext None = Ok ciphertext ->
  len nonce < 4294967296 -> len ciphertext < 4294967296 ->
  exists s',
    ClassicalClientMessages.send_message message rnd c
    = (Ok true, set_client_socket (Some s') c)
    /\ tx s' = tx s ++ frame nonce ++ frame ciphertext
    /\ rx s' = rx s /\ closed s' = false /\ tx_credit s' = None.
Proof.
  intros Hco Hk Hs Hc Hcr Hrand Henc Hct Hln Hlc.
  destruct c as [h p so ci co]. cbn [client_socket aesgcm connected] in *. subst.
  unfold ClassicalClientMessages.send_message, try_except.
  unfold bind at 1, gets at 1. unfold bind at 1, gets at 1.
  cbn [connected aesgcm].
  fwd_lift Hrand. fwd_lift Henc. fwd_lift Hct.
  fwd_len Hln. fwd_csend Hcr. fwd_csend Hcr.
  fwd_len Hlc. fwd_csend Hcr. fwd_csend Hcr.
  unfold ret. eexists. split; [reflexivity|].
  cbn [tx rx closed tx_credit sent]. rewrite Hcr. unfold frame.
  rewrite <- !app_assoc. repeat split; assumption || reflexivity.
Qed.

Lemma pqc_send_message_ok (message : str) (rnd : os_entropy) (c : client)
      (s : socket) (key nonce plaintext ciphertext : bytes) :
  connected c = true -> aesgcm c = Some key -> client_socket c = Some s ->
  closed s = false -> tx_credit s = None ->
  urandom rnd 12 = Ok nonce ->
  encode_utf8 message = Ok plaintext ->
  aesgcm_encrypt key nonce plaintext None = Ok ciphertext ->
  len nonce < 4294967296 -> len ciphertext < 4294967296 ->
  exists s',
    PQCClientMessages.send_message message rnd c
    = (Ok true, set_client_socket (Some s') c)
    /\ tx s' = tx s ++ frame nonce ++ frame ciphertext
    /\ rx s' = rx s /\ closed s' = false /\ tx_credit s' = None.
Proof.
  intros Hco Hk Hs Hc Hcr Hrand Henc Hct Hln Hlc.
  destruct c as [h p so ci co]. cbn [client_socket aesgcm connected] in *. subst.
  unfold PQCClientMessages.send_message, try_except.
  unfold bind at 1, gets at 1. unfold bind at 1, gets at 1.
  cbn [connected aesgcm].
  fwd_lift Hrand. fwd_lift Henc. fwd_lift Hct.
  fwd_len Hln. fwd_csend Hcr. fwd_csend Hcr.
  fwd_len Hlc. fwd_csend Hcr. fwd_csend Hcr.
  unfold ret. eexists. split; [reflexivity|].
  cbn [tx rx closed tx_credit sent]. rewrite Hcr. unfold frame.
  rewrite <- !app_assoc. repeat split; assumption || reflexivity.
Qed.
End Chat.

Lemma set_client_socket_same (c : client) (s : socket) :
  client_socket c = Some s -> set_client_socket (Some s) c = c.
Proof. destruct c; cbn; intros ->; reflexivity. Qed.

Lemma message_wire_cons (m : bytes * bytes * str) (msgs : list (bytes * bytes * str)) :
  message_wire (m :: msgs) = frame (fst (fst m)) ++ frame (snd (fst m)) ++ message_wire msgs.
Proof. unfold message_wire. cbn [map concat]. rewrite <- app_assoc. reflexivity. Qed.

Section ChatLoop.
Context {ecdh : ECDH} {oqs : OQS} {aead : AEAD} {text : PyText} {enc : PyEncode}
        {rand : OSRandom}.

Lemma classical_chat_sends :
  forall (script : list (console_event os_entropy)) (c : client) (s : socket)
         (key : bytes) (msgs : list (bytes * bytes * str)),
    connected c = true -> aesgcm c = Some key -> client_socket c = Some s ->
    closed s = false -> tx_credit s = None ->
    Forall2 (encrypts key) (typed_until_exit script) msgs ->
    exists s',
      ClassicalClientMain.chat script c
      = (chat_outcome script, set_client_socket (Some s') c)
      /\ tx s' = tx s ++ message_wire msgs
      /\ rx s' = rx s /\ closed s' = false.
Proof.
  intros script. induction script as [|[line rnd|] script IH];
    intros c s key msgs Hco Hk Hs Hc Hcr Hall.
  - inversion Hall; subst. exists s. cbn. rewrite (set_client_socket_same c s Hs).
    unfold raise. rewrite app_nil_r. repeat split; assumption || reflexivity.
  - destruct line as [|a line].
    + cbn [typed_until_exit chat_outcome] in *.
      exact (IH c s key msgs Hco Hk Hs Hc Hcr Hall).
    + cbn [typed_until_exit chat_outcome ClassicalClientMain.chat] in *.
      destruct (is_sentinel (a :: line)) eqn:Hexit;
        inversion Hall
          as [|? m0 ? msgs' (Htext & Hrand & Hln & Hlc & pt & Henc & Hct) Hrest];
        subst; cbn [fst snd] in *;
        destruct (classical_send_message_ok (a :: line) rnd c s key _ _ _ Hco Hk Hs Hc Hcr
                    Hrand Henc Hct Hln Hlc) as (s1 & Hsend & Htx1 & Hrx1 & Hc1 & Hcr1);
        unfold bind at 1; rewrite Hsend; cbn [negb];
        unfold is_sentinel in Hexit; rewrite Hexit.
      * inversion Hrest; subst. exists s1. split; [reflexivity|].
        rewrite message_wire_cons. cbn [message_wire map concat].
        rewrite app_nil_r. repeat split; assumption.
      * destruct (IH (set_client_socket (Some s1) c) s1 key msgs' Hco Hk eq_refl Hc1
                    Hcr1 Hrest) as (s' & Hchat & Htx & Hrx & Hcl).
        exists s'. split; [exact Hchat|].
        rewrite message_wire_cons, Htx, Htx1, <- !app_assoc.
        repeat split; congruence.
  - inversion Hall; subst. exists s. cbn. rewrite (set_client_socket_same c s Hs).
    unfold raise. rewrite app_nil_r. repeat split; assumption || reflexivity.
Qed.

Lemma pqc_chat_sends :
  forall (script : list (console_event os_entropy)) (c : client) (s : socket)
         (key : bytes) (msgs : list (bytes * bytes * str)),
    connected c = true -> aesgcm c = Some key -> client_socket c = Some s ->
    closed s = false -> tx_credit s = None ->
    Forall2 (encrypts key) (typed_until_exit script) msgs ->
    exists s',
      PQCClientMain.chat script c
      = (chat_outcome script, set_client_socket (Some s') c)
      /\ tx s' = tx s ++ message_wire msgs
      /\ rx s' = rx s /\ closed s' = false.
Proof.
  intros script. induction script as [|[line rnd|] script IH];
    intros c s key msgs Hco Hk Hs Hc Hcr Hall.
  - inversion Hall; subst. exists s. cbn. rewrite (set_client_socket_same c s Hs).
    unfold raise. rewrite app_nil_r. repeat split; assumption || reflexivity.
  - destruct line as [|a line].
    + cbn [typed_until_exit chat_outcome] in *.
      exact (IH c s key msgs Hco Hk Hs Hc Hcr Hall).
    + cbn [typed_until_exit chat_outcome PQCClientMain.chat] in *.
      destruct (is_sentinel (a :: line)) eqn:Hexit;
        inversion Hall
          as [|? m0 ? msgs' (Htext & Hrand & Hln & Hlc & pt & Henc & Hct) Hrest];
        subst; cbn [fst snd] in *;
        destruct (pqc_send_message_ok (a :: line) rnd c s key _ _ _ Hco Hk Hs Hc Hcr
                    Hrand Henc Hct Hln Hlc) as (s1 & Hsend & Htx1 & Hrx1 & Hc1 & Hcr1);
        unfold bind at 1; rewrite Hsend; cbn [negb];
        unfold is_sentinel in Hexit; rewrite Hexit.
      * inversion Hrest; subst. exists s1. split; [reflexivity|].
        rewrite message_wire_cons. cbn [message_wire map concat].
        rewrite app_nil_r. repeat split; assumption.
      * destruct (IH (set_client_socket (Some s1) c) s1 key msgs' Hco Hk eq_refl Hc1
                    Hcr1 Hrest) as (s' & Hchat & Htx & Hrx & Hcl).
        exists s'. split; [exact Hchat|].
        rewrite message_wire_cons, Htx, Htx1, <- !app_assoc.
        repeat split; congruence.
  - inversion Hall; subst. exists s. cbn. rewrite (set_client_socket_same c s Hs).
    unfold raise. rewrite app_nil_r. repeat split; assumption || reflexivity.
Qed.
End ChatLoop.

Section ChatTheorem.
Context {ecdh : ECDH} {oqs : OQS} {aead : AEAD} {text : PyText} {enc : PyEncode}
        {rand : OSRandom}.

(** X15. The chat loop of [main] sends what is typed, in order, and stops
    at ["exit"].  On a connected client with an open socket, when every
    line that gets sent encodes and encrypts, the loop writes the ciphertext
    frames of the non-empty lines one after the other, up to and including
    the first line that lowercases to ["exit"]; empty lines are skipped, and
    nothing typed after the exit line, or after an interrupt from the
    keyboard, is sent.  The loop reads nothing from the socket and leaves it
    open.  It returns after the exit line, and raises [KeyboardInterrupt] or
    [EOFError] when the input is interrupted or ends first.  Both clients. *)
Theorem chat_sends_lines_until_exit
        (script : list (console_event os_entropy)) (c : client) (s : socket)
        (key : bytes) (msgs : list (bytes * bytes * str)) :
  connected c = true -> aesgcm c = Some key -> client_socket c = Some s ->
  closed s = false -> tx_credit s = None ->
  Forall2 (encrypts key) (typed_until_exit script) msgs ->
  (exists s',
      ClassicalClientMain.chat script c
      = (chat_outcome script, set_client_socket (Some s') c)
      /\ tx s' = tx s ++ message_wire msgs
      /\ rx s' = rx s /\ closed s' = false)
  /\ (exists s',
         PQCClientMain.chat script c
         = (chat_outcome script, set_client_socket (Some s') c)
         /\ tx s' = tx s ++ message_wire msgs
         /\ rx s' = rx s /\ closed s' = false).
Proof.
  intros Hco Hk Hs Hc Hcr Hall. split.
  - exact (classical_chat_sends script c s key msgs Hco Hk Hs Hc Hcr Hall).
  - exact (pqc_chat_sends script c s key msgs Hco Hk Hs Hc Hcr Hall).
Qed.
End ChatTheorem.

Lemma chat_sends_lines_until_exit_witness :
  exists s',
    PQCClientMain.chat (aead := Toy.toy_aead) (text := Toy.toy_text)
      (enc := ToyIO.toy_encode) (rand := ToyIO.toy_random)
      [Typed (str_of_string "hello") 1; Typed [] 0; Typed (str_of_string "exit") 2;
       Typed (str_of_string "late") 3; CtrlC]
      DemoSession.pqc_connected
    = (Ok tt, set_client_socket (Some s') DemoSession.pqc_connected)
    /\ tx s' = DemoSession.pqc_session_wire.
Proof.
  destruct (@chat_sends_lines_until_exit Toy.toy_aead Toy.toy_text
              ToyIO.toy_encode ToyIO.toy_random
              [Typed (str_of_string "hello") 1; Typed [] 0;
               Typed (str_of_string "exit") 2;
               Typed (str_of_string "late") 3; CtrlC]
              DemoSession.pqc_connected
              (DemoIO.socket_of DemoSession.pqc_connected)
              DemoSession.pqc_session_key
              [DemoSession.session_message 1 "hello";
               DemoSession.session_message 2 "exit"])
    as (_ & s' & Hchat & Htx & _).
  - reflexivity.
  - reflexivity.
  - reflexivity.
  - reflexivity.
  - reflexivity.
  - repeat constructor; (eexists; split; vm_compute; reflexivity).
  - exists s'. split; [exact Hchat|]. rewrite Htx. vm_compute. reflexivity.
Defined.

(** ** The entry points of the clients *)

Section MainResult.
Context {ecdh : ECDH} {oqs : OQS} {aead : AEAD} {text : PyText} {enc : PyEncode}
        {rand : OSRandom}.




End MainResult.

Section MainTheorem.
Context {ecdh : ECDH} {oqs : OQS} {aead : AEAD} {text : PyText} {enc : PyEncode}
        {rand : OSRandom}.

End MainTheorem.
